(** * Distributed raycaster: the worker's raycasting engine, the worker
    service, and the master's worker pool, load balancer and gateway.

    The C++ sources are embedded as executable Rocq functions:
    - [double] values are IEEE-754 binary64 numbers (Rocq's primitive
      floats), so every arithmetic step rounds exactly as the compiled code;
    - [int], [uint8_t] and [size_t] values are integers in [Z] with their
      wrap-around written out;
    - [std::vector] is [list]; a read outside a vector is the outcome
      [Undefined];
    - exceptions are the outcome [Throw];
    - clocks, the status and render RPCs and the random generator are read
      from an explicit [World]. *)

From Stdlib Require Import ZArith Lia Bool.
From Stdlib Require Import Floats.PrimFloat Floats.SpecFloat Floats.FloatOps.
From Stdlib Require Import Numbers.Cyclic.Int63.Uint63.
From stdpp Require Import base list strings.

Local Open Scope Z_scope.

(** ** Machine arithmetic *)

Module CInt.

Definition INT_MIN : Z := - 2 ^ 31.
Definition INT_MAX : Z := 2 ^ 31 - 1.

Definition in_int (z : Z) : Prop := INT_MIN <= z <= INT_MAX.

(** Two's-complement reduction of an integer to [int]. *)
Definition wrap_int (z : Z) : Z := (z + 2 ^ 31) mod 2 ^ 32 - 2 ^ 31.

(** Reduction to [uint8_t]. *)
Definition wrap_uint8 (z : Z) : Z := z mod 256.

(** Reduction to [size_t] (64 bits on the x86-64 build). *)
Definition SIZE_MOD : Z := 2 ^ 64.
Definition wrap_size (z : Z) : Z := z mod SIZE_MOD.

(** [a / b] and [a % b] on [int]: the quotient truncates toward zero and
    the remainder has the sign of the dividend. *)
Definition int_div (a b : Z) : Z := Z.quot a b.
Definition int_rem (a b : Z) : Z := Z.rem a b.

End CInt.

Module Double.

(** The integer part of a finite double (rounding toward zero); [None]
    for infinities and NaN. *)
Definition trunc (d : float) : option Z :=
  match Prim2SF d with
  | S754_zero _ => Some 0
  | S754_finite s m e =>
      let a := if 0 <=? e then Z.shiftl (Z.pos m) e
               else Z.shiftr (Z.pos m) (- e) in
      Some (if s then - a else a)
  | S754_infinity _ => None
  | S754_nan => None
  end.

(** [static_cast<double>(n)] for an [int] [n]; exact. *)
Definition of_int (n : Z) : float :=
  if n <? 0 then PrimFloat.opp (PrimFloat.of_uint63 (Uint63.of_Z (- n)))
  else PrimFloat.of_uint63 (Uint63.of_Z n).

(** [static_cast<int>(d)] is defined by the language only when the
    truncated value is an [int].  The x86-64 build converts with
    [cvttsd2si], which yields the truncated value when it fits and the
    "integer indefinite" value [INT_MIN] otherwise. *)
Definition to_int_defined (d : float) : bool :=
  match trunc d with
  | Some z => (CInt.INT_MIN <=? z) && (z <=? CInt.INT_MAX)
  | None => false
  end.

Definition to_int (d : float) : Z :=
  match trunc d with
  | Some z => if (CInt.INT_MIN <=? z) && (z <=? CInt.INT_MAX) then z
              else CInt.INT_MIN
  | None => CInt.INT_MIN
  end.

(** [static_cast<uint8_t>(d)] is defined by the language only when the
    truncated value lies in [0, 255].  The x86-64 build converts to a
    32-bit integer with [cvttsd2si] and keeps the low byte. *)
Definition to_uint8_defined (d : float) : bool :=
  match trunc d with
  | Some z => (0 <=? z) && (z <=? 255)
  | None => false
  end.

Definition to_uint8 (d : float) : Z := CInt.wrap_uint8 (to_int d).

End Double.

(** ** Outcomes of a call *)

Inductive outcome (A : Type) : Type :=
| Ok (a : A)
| Throw (what : string)     (* a C++ exception derived from std::exception *)
| Undefined                  (* a read outside a vector or repeated field *)
| Diverged.                  (* the model's loop bound was reached *)
Arguments Ok {A} a.
Arguments Throw {A} what.
Arguments Undefined {A}.
Arguments Diverged {A}.

Definition obind {A B} (k : A -> outcome B) (o : outcome A) : outcome B :=
  match o with
  | Ok a => k a
  | Throw w => Throw w
  | Undefined => Undefined
  | Diverged => Diverged
  end.

#[global] Instance outcome_bind : MBind outcome := @obind.
#[global] Instance outcome_ret : MRet outcome := @Ok.
#[global] Instance outcome_fmap : FMap outcome :=
  fun A B f o => obind (fun a => Ok (f a)) o.

Definition of_option {A} (o : option A) : outcome A :=
  match o with Some a => Ok a | None => Undefined end.

(** ** worker_types.h *)

Record InternalPlayer := {
  player_x : float;
  player_y : float;
  player_angle : float;
  player_pitch : float;
  player_id : string;
  player_timestamp : Z
}.

Record InternalRaycastResult := {
  column : Z;
  distance : float;
  wallType : Z;
  wallX : float;
  wallTop : Z;
  wallBottom : Z;
  r : Z;
  g : Z;
  b : Z
}.

Record InternalRenderRequest := {
  requestId : string;
  playerId : string;
  player : InternalPlayer;
  screenWidth : Z;
  screenHeight : Z;
  fov : float;
  startColumn : Z;
  endColumn : Z;
  map : list (list Z);
  mapWidth : Z;
  mapHeight : Z;
  timestamp : Z
}.

(** The functions of <cmath> the engine calls. *)
Record Libm := { cos : float -> float; sin : float -> float }.

(** ** raycast_engine.cpp *)

Module RaycastEngine.

Definition MAX_DISTANCE : float := 800%float.
Definition SCREEN_HEIGHT : Z := 768.

(** The double nearest to the literal [1e30]. *)
Definition BIG : float := 0x1.93e5939a08ceap+99%float.

(** [map[mapY][mapX]] *)
Definition map_at (map : list (list Z)) (mapY mapX : Z) : option Z :=
  if (mapY <? 0) || (mapX <? 0) then None
  else match map !! Z.to_nat mapY with
       | Some row => row !! Z.to_nat mapX
       | None => None
       end.

Record RayHit := { hit_distance : float; hit_wallType : Z; hit_wallX : float }.

(** State of the DDA march when the loop is left. *)
Record DDA := {
  sideDistX : float; sideDistY : float; mapX : Z; mapY : Z; side : Z
}.

Section CastRay.
Variable libm : Libm.
Variables (map : list (list Z)) (mapWidth mapHeight : Z).

Section Loop.
Variables (deltaDistX deltaDistY : float) (stepX stepY : Z).

(** The [while (true)] loop: one iteration per unit of [fuel]. *)
Fixpoint dda (fuel : nat) (sdX sdY : float) (mX mY : Z) : outcome DDA :=
  match fuel with
  | O => Diverged
  | S fuel' =>
      let st :=
        if PrimFloat.ltb sdX sdY
        then {| sideDistX := PrimFloat.add sdX deltaDistX; sideDistY := sdY;
                mapX := CInt.wrap_int (mX + stepX); mapY := mY; side := 0 |}
        else {| sideDistX := sdX; sideDistY := PrimFloat.add sdY deltaDistY;
                mapX := mX; mapY := CInt.wrap_int (mY + stepY); side := 1 |} in
      if (mapX st <? 0) || (mapX st >=? mapWidth)
         || (mapY st <? 0) || (mapY st >=? mapHeight)
      then Ok st
      else match map_at map (mapY st) (mapX st) with
           | None => Undefined
           | Some cell =>
               if cell =? 1 then Ok st
               else dda fuel' (sideDistX st) (sideDistY st) (mapX st) (mapY st)
           end
  end.
End Loop.

(** Every iteration that does not leave the loop moves one cell inside
    the [mapWidth] x [mapHeight] grid, so this many iterations suffice
    (see [castRay_fuel_enough]). *)
Definition dda_bound : nat := S (Z.to_nat mapWidth + Z.to_nat mapHeight).

Definition castRay_fuel (fuel : nat)
    (rayAngle playerX playerY playerPitch : float) : outcome RayHit :=
  let rayX := playerX in
  let rayY := playerY in
  let rayDirX := PrimFloat.mul (cos libm rayAngle) (cos libm playerPitch) in
  let rayDirY := PrimFloat.mul (sin libm rayAngle) (cos libm playerPitch) in
  let deltaDistX := if PrimFloat.eqb rayDirX 0 then BIG
                    else PrimFloat.abs (PrimFloat.div 1 rayDirX) in
  let deltaDistY := if PrimFloat.eqb rayDirY 0 then BIG
                    else PrimFloat.abs (PrimFloat.div 1 rayDirY) in
  let mapX0 := Double.to_int rayX in
  let mapY0 := Double.to_int rayY in
  let '(stepX, sideDistX0) :=
    if PrimFloat.ltb rayDirX 0
    then (-1, PrimFloat.mul (PrimFloat.sub rayX (Double.of_int mapX0)) deltaDistX)
    else (1, PrimFloat.mul
               (PrimFloat.sub (PrimFloat.add (Double.of_int mapX0) 1) rayX)
               deltaDistX) in
  let '(stepY, sideDistY0) :=
    if PrimFloat.ltb rayDirY 0
    then (-1, PrimFloat.mul (PrimFloat.sub rayY (Double.of_int mapY0)) deltaDistY)
    else (1, PrimFloat.mul
               (PrimFloat.sub (PrimFloat.add (Double.of_int mapY0) 1) rayY)
               deltaDistY) in
  st ← dda deltaDistX deltaDistY stepX stepY fuel
          sideDistX0 sideDistY0 mapX0 mapY0;
  let '(dist, wx) :=
    if side st =? 0
    then let d := PrimFloat.sub (sideDistX st) deltaDistX in
         (d, PrimFloat.add playerY (PrimFloat.mul d rayDirY))
    else let d := PrimFloat.sub (sideDistY st) deltaDistY in
         (d, PrimFloat.add playerX (PrimFloat.mul d rayDirX)) in
  Ok {| hit_distance := PrimFloat.mul dist (cos libm playerPitch);
        hit_wallType := CInt.int_rem (CInt.wrap_int (mapX st + mapY st)) 6;
        hit_wallX := wx |}.

Definition castRay := castRay_fuel dda_bound.

Definition isWall (x y : float) : outcome bool :=
  let mX := Double.to_int x in
  let mY := Double.to_int y in
  if (mX <? 0) || (mX >=? mapWidth) || (mY <? 0) || (mY >=? mapHeight)
  then Ok true
  else cell ← of_option (map_at map mY mX); Ok (cell =? 1).

End CastRay.

Definition calculateIntensity (distance : float) : Z :=
  let intensity :=
    Double.to_uint8
      (PrimFloat.mul 255
         (PrimFloat.sub 1 (PrimFloat.div distance MAX_DISTANCE))) in
  Z.max intensity 50.

(** Whether the conversion inside [calculateIntensity] is one the language
    defines. *)
Definition calculateIntensity_defined (distance : float) : bool :=
  Double.to_uint8_defined
    (PrimFloat.mul 255
       (PrimFloat.sub 1 (PrimFloat.div distance MAX_DISTANCE))).

Definition baseColors : list (Z * Z * Z) :=
  [ (34, 139, 34);    (* Green (grass) *)
    (105, 105, 105);  (* Gray (rock) *)
    (128, 128, 128);  (* Light gray (stone) *)
    (139, 69, 19);    (* Brown (wood) *)
    (160, 82, 45);    (* Saddle brown (dirt) *)
    (178, 34, 34) ].  (* Red (brick) *)

(** [baseColors[i]]: a read of the six-row table. *)
Definition baseColors_at (i : Z) : outcome (Z * Z * Z) :=
  if i <? 0 then Undefined else of_option (baseColors !! Z.to_nat i).

Definition getWallColor (wallType intensity : Z) : outcome (Z * Z * Z) :=
  if (wallType >=? 0) && (wallType <? 6)
  then
    '(c0, c1, c2) ← baseColors_at wallType;
    Ok (CInt.wrap_uint8 (CInt.int_div (c0 * intensity) 255),
        CInt.wrap_uint8 (CInt.int_div (c1 * intensity) 255),
        CInt.wrap_uint8 (CInt.int_div (c2 * intensity) 255))
  else Ok (intensity, intensity, intensity).

Section RenderColumns.
Variable libm : Libm.
Variable request : InternalRenderRequest.

(** The body of the [for] loop for column [x]. *)
Definition renderColumn (x : Z) : outcome InternalRaycastResult :=
  let rayAngle :=
    PrimFloat.add
      (PrimFloat.sub (player_angle (player request))
                     (PrimFloat.div (fov request) 2))
      (PrimFloat.div (PrimFloat.mul (Double.of_int x) (fov request))
                     (Double.of_int (screenWidth request))) in
  hit ← castRay libm (map request) (mapWidth request) (mapHeight request)
           rayAngle (player_x (player request)) (player_y (player request))
           (player_pitch (player request));
  let wallHeight :=
    Double.to_int (PrimFloat.div (Double.of_int SCREEN_HEIGHT) (hit_distance hit)) in
  let wallTop := CInt.int_div (CInt.wrap_int (SCREEN_HEIGHT - wallHeight)) 2 in
  let wallBottom := CInt.wrap_int (wallTop + wallHeight) in
  let intensity := calculateIntensity (hit_distance hit) in
  '(r, g, b) ← getWallColor (hit_wallType hit) intensity;
  Ok {| column := x; distance := hit_distance hit;
        wallType := hit_wallType hit; wallX := hit_wallX hit;
        wallTop := wallTop; wallBottom := wallBottom;
        r := r; g := g; b := b |}.

(** [for (int x = ...; x < endColumn; x++)], with [n] iterations left. *)
Fixpoint renderLoop (n : nat) (x : Z) (results : list InternalRaycastResult)
    : outcome (list InternalRaycastResult) :=
  match n with
  | O => Ok results
  | S n' =>
      res ← renderColumn x;
      renderLoop n' (x + 1) (results ++ [res])
  end.

(** [results.reserve(n)] converts the [int] difference to [size_t]; a
    negative difference becomes a size above [max_size()] and
    [std::length_error] is thrown.  (Running out of memory is not
    modelled.) *)
Definition renderColumns : outcome (list InternalRaycastResult) :=
  let n := CInt.wrap_int (endColumn request - startColumn request) in
  if n <? 0 then Throw "vector::reserve"
  else renderLoop (Z.to_nat (endColumn request - startColumn request))
                  (startColumn request) [].

End RenderColumns.

End RaycastEngine.

(** ** The wire messages of worker_service.proto and master_service.proto *)

Record Player := {
  x : float; y : float; angle : float; pitch : float;
  id : string; p_timestamp : Z
}.

(** [RenderRequest]; [RaycastRequest] has the same fields with [client_id]
    in the place of [player_id]. *)
Record RenderRequest := {
  request_id : string;
  player_id_ : string;
  player_ : Player;
  screen_width : Z;
  screen_height : Z;
  fov_ : float;
  start_column : Z;
  end_column : Z;
  map_ : list Z;
  map_width : Z;
  map_height : Z;
  timestamp_ : Z
}.

Record RenderResponse := {
  rr_request_id : string;
  rr_player_id : string;
  rr_worker_id : Z;
  rr_timestamp : Z;
  rr_processing_time_ms : Z;
  rr_results : list InternalRaycastResult
}.

Record WorkerStatus := {
  ws_worker_id : Z;
  ws_status : string;
  ws_active_jobs : Z;
  ws_total_jobs_processed : Z;
  ws_average_processing_time_ms : float;
  ws_last_heartbeat : Z
}.

Inductive StatusCode := OK | UNAVAILABLE | INTERNAL | DEADLINE_EXCEEDED | UNKNOWN.

Record Status := { error_code : StatusCode; error_message : string }.

Definition Status_OK : Status := {| error_code := OK; error_message := "" |}.

Definition ok (s : Status) : bool :=
  match error_code s with OK => true | _ => false end.

(** ** worker.cpp *)

Module Worker.

Record InternalWorkerStatus := {
  workerId : Z;
  status : string;
  activeJobs : Z;
  totalJobsProcessed : Z;
  averageProcessingTimeMs : float;
  lastHeartbeat : Z
}.

Record RaycastWorkerServiceImpl := {
  workerId_ : Z;
  status_ : InternalWorkerStatus;
  activeJobs_ : Z;
  totalJobsProcessed_ : Z;
  totalProcessingTime_ : float
}.

(** The clock readings of one [ProcessRenderRequest] call, in the order
    the code takes them. *)
Record Clock := {
  startTime : Z;            (* high_resolution_clock, ns *)
  responseTimestamp : Z;    (* system_clock, ms *)
  endTime : Z;              (* high_resolution_clock, ns *)
  heartbeatTimestamp : Z    (* system_clock, ms *)
}.

(** The constructor, at system time [nowMs]. *)
Definition new (workerId nowMs : Z) : RaycastWorkerServiceImpl :=
  {| workerId_ := workerId;
     status_ := {| workerId := workerId; status := "idle"; activeJobs := 0;
                   totalJobsProcessed := 0; averageProcessingTimeMs := 0;
                   lastHeartbeat := nowMs |};
     activeJobs_ := 0; totalJobsProcessed_ := 0; totalProcessingTime_ := 0 |}.

(** [request->map(i)] *)
Definition wire_map_at (request : RenderRequest) (i : Z) : outcome Z :=
  if i <? 0 then Undefined else of_option (map_ request !! Z.to_nat i).

(** The inner loop of the map conversion: cells [x .. x+n) of row [y]. *)
Fixpoint convert_row (request : RenderRequest) (y : Z) (n : nat) (x : Z)
    (row : list Z) : outcome (list Z) :=
  match n with
  | O => Ok row
  | S n' =>
      cell ← wire_map_at request
               (CInt.wrap_int (CInt.wrap_int (y * map_width request) + x));
      convert_row request y n' (x + 1) (row ++ [cell])
  end.

(** The outer loop: rows [y .. y+n). *)
Fixpoint convert_map (request : RenderRequest) (n : nat) (y : Z)
    (map : list (list Z)) : outcome (list (list Z)) :=
  match n with
  | O => Ok map
  | S n' =>
      row ← convert_row request y (Z.to_nat (map_width request)) 0 [];
      convert_map request n' (y + 1) (map ++ [row])
  end.

(** Convert protobuf request to internal format.  The handler leaves the
    player's id and the two timestamps of the internal request unset; they
    are never read. *)
Definition convert_request (request : RenderRequest)
    : outcome InternalRenderRequest :=
  map ← convert_map request (Z.to_nat (map_height request)) 0 [];
  Ok {| requestId := request_id request;
        playerId := player_id_ request;
        player := {| player_x := x (player_ request);
                     player_y := y (player_ request);
                     player_angle := angle (player_ request);
                     player_pitch := pitch (player_ request);
                     player_id := ""; player_timestamp := 0 |};
        screenWidth := screen_width request;
        screenHeight := screen_height request;
        fov := fov_ request;
        startColumn := start_column request;
        endColumn := end_column request;
        map := map;
        mapWidth := map_width request;
        mapHeight := map_height request;
        timestamp := 0 |}.

(** The statements before the [try] block. *)
Definition enter (svc : RaycastWorkerServiceImpl) : RaycastWorkerServiceImpl :=
  let active := CInt.wrap_int (activeJobs_ svc + 1) in
  {| workerId_ := workerId_ svc;
     status_ := {| workerId := workerId (status_ svc); status := "busy";
                   activeJobs := active;
                   totalJobsProcessed := totalJobsProcessed (status_ svc);
                   averageProcessingTimeMs := averageProcessingTimeMs (status_ svc);
                   lastHeartbeat := lastHeartbeat (status_ svc) |};
     activeJobs_ := active;
     totalJobsProcessed_ := totalJobsProcessed_ svc;
     totalProcessingTime_ := totalProcessingTime_ svc |}.

(** The [try] block: the response it fills in and the statistics it
    updates. *)
Definition try_block (libm : Libm) (clock : Clock)
    (svc : RaycastWorkerServiceImpl) (request : RenderRequest)
    : outcome (RenderResponse * RaycastWorkerServiceImpl) :=
  internalRequest ← convert_request request;
  results ← RaycastEngine.renderColumns libm internalRequest;
  let processingTime :=
    Z.quot (endTime clock - startTime clock) 1000000 in
  let response :=
    {| rr_request_id := requestId internalRequest;
       rr_player_id := playerId internalRequest;
       rr_worker_id := workerId_ svc;
       rr_timestamp := responseTimestamp clock;
       rr_processing_time_ms := processingTime;
       rr_results := results |} in
  let total := CInt.wrap_int (totalJobsProcessed_ svc + 1) in
  let time := PrimFloat.add (totalProcessingTime_ svc)
                            (Double.of_int processingTime) in
  Ok (response,
      {| workerId_ := workerId_ svc;
         status_ := {| workerId := workerId (status_ svc);
                       status := status (status_ svc);
                       activeJobs := activeJobs (status_ svc);
                       totalJobsProcessed := total;
                       averageProcessingTimeMs :=
                         PrimFloat.div time (Double.of_int total);
                       lastHeartbeat := lastHeartbeat (status_ svc) |};
         activeJobs_ := activeJobs_ svc;
         totalJobsProcessed_ := total;
         totalProcessingTime_ := time |}).

(** The statements after the [try] block. *)
Definition leave (clock : Clock) (svc : RaycastWorkerServiceImpl)
    : RaycastWorkerServiceImpl :=
  let active := CInt.wrap_int (activeJobs_ svc - 1) in
  {| workerId_ := workerId_ svc;
     status_ := {| workerId := workerId (status_ svc);
                   status := if active >? 0 then "busy" else "idle";
                   activeJobs := active;
                   totalJobsProcessed := totalJobsProcessed (status_ svc);
                   averageProcessingTimeMs := averageProcessingTimeMs (status_ svc);
                   lastHeartbeat := heartbeatTimestamp clock |};
     activeJobs_ := active;
     totalJobsProcessed_ := totalJobsProcessed_ svc;
     totalProcessingTime_ := totalProcessingTime_ svc |}.

(** [ProcessRenderRequest]: the returned status, the response (the
    caller's [response] when the handler leaves it untouched) and the
    service afterwards. *)
Definition ProcessRenderRequest (libm : Libm) (clock : Clock)
    (svc : RaycastWorkerServiceImpl) (request : RenderRequest)
    (response : RenderResponse)
    : outcome (Status * RenderResponse * RaycastWorkerServiceImpl) :=
  let svc1 := enter svc in
  match try_block libm clock svc1 request with
  | Ok (response', svc2) => Ok (Status_OK, response', leave clock svc2)
  | Throw what =>
      Ok ({| error_code := INTERNAL;
             error_message := "Internal processing error" |},
          response, svc1)
  | Undefined => Undefined
  | Diverged => Diverged
  end.

Definition GetWorkerStatus (svc : RaycastWorkerServiceImpl)
    : Status * WorkerStatus :=
  (Status_OK,
   {| ws_worker_id := workerId (status_ svc);
      ws_status := status (status_ svc);
      ws_active_jobs := activeJobs (status_ svc);
      ws_total_jobs_processed := totalJobsProcessed (status_ svc);
      ws_average_processing_time_ms := averageProcessingTimeMs (status_ svc);
      ws_last_heartbeat := lastHeartbeat (status_ svc) |}).

End Worker.

(** ** The master's surroundings *)

(** What a stub call does: it returns a status with a response, or an
    exception derived from std::exception leaves it. *)
Inductive rpc_result (A : Type) : Type :=
| Returned (st : Status) (response : A)
| Raised (what : string).
Arguments Returned {A} st response.
Arguments Raised {A} what.

(** Everything the master reads from outside its own objects.  [now] is the
    reading of steady_clock and high_resolution_clock in nanoseconds; a stub
    call issued at time [t] is answered by [status_rpc]/[render_rpc] and
    takes [rpc_ns] nanoseconds.  The three [_SECONDS] fields and
    [WORKER_PORT] are the environment variables of the same names, the
    first three already through [std::atoi]. *)
Record World := {
  now : Z;
  system_ms : Z;
  connect : string -> bool;
  status_rpc : string -> Z -> rpc_result WorkerStatus;
  render_rpc : string -> Z -> RenderRequest -> rpc_result RenderResponse;
  rpc_ns : string -> Z -> Z;
  random_draw : Z -> Z -> Z -> Z;
  HEALTH_CHECK_INTERVAL_SECONDS : option Z;
  HEALTH_CHECK_TIMEOUT_SECONDS : option Z;
  REQUEST_TIMEOUT_SECONDS : option Z;
  WORKER_PORT : option string
}.

(** The world once a stub call to [endpoint] issued now has come back. *)
Definition after_rpc (endpoint : string) (w : World) : World :=
  {| now := now w + rpc_ns w endpoint (now w);
     system_ms := system_ms w;
     connect := connect w;
     status_rpc := status_rpc w;
     render_rpc := render_rpc w;
     rpc_ns := rpc_ns w;
     random_draw := random_draw w;
     HEALTH_CHECK_INTERVAL_SECONDS := HEALTH_CHECK_INTERVAL_SECONDS w;
     HEALTH_CHECK_TIMEOUT_SECONDS := HEALTH_CHECK_TIMEOUT_SECONDS w;
     REQUEST_TIMEOUT_SECONDS := REQUEST_TIMEOUT_SECONDS w;
     WORKER_PORT := WORKER_PORT w |}.

(** ** worker_pool.h, worker_pool.cpp: WorkerConnection *)

Module WorkerConnection.

Record t := {
  endpoint_ : string;
  stub_ : bool;                       (* whether stub_ holds a stub *)
  is_healthy_ : bool;
  active_jobs_ : Z;
  total_jobs_processed_ : Z;
  total_processing_time_ms_ : float;
  last_health_check_ : Z              (* steady_clock, ns *)
}.

Definition set_stub (v : bool) (c : t) : t :=
  {| endpoint_ := endpoint_ c; stub_ := v; is_healthy_ := is_healthy_ c;
     active_jobs_ := active_jobs_ c;
     total_jobs_processed_ := total_jobs_processed_ c;
     total_processing_time_ms_ := total_processing_time_ms_ c;
     last_health_check_ := last_health_check_ c |}.

Definition set_is_healthy (v : bool) (c : t) : t :=
  {| endpoint_ := endpoint_ c; stub_ := stub_ c; is_healthy_ := v;
     active_jobs_ := active_jobs_ c;
     total_jobs_processed_ := total_jobs_processed_ c;
     total_processing_time_ms_ := total_processing_time_ms_ c;
     last_health_check_ := last_health_check_ c |}.

Definition set_last_health_check (v : Z) (c : t) : t :=
  {| endpoint_ := endpoint_ c; stub_ := stub_ c; is_healthy_ := is_healthy_ c;
     active_jobs_ := active_jobs_ c;
     total_jobs_processed_ := total_jobs_processed_ c;
     total_processing_time_ms_ := total_processing_time_ms_ c;
     last_health_check_ := v |}.

Definition set_active_jobs (v : Z) (c : t) : t :=
  {| endpoint_ := endpoint_ c; stub_ := stub_ c; is_healthy_ := is_healthy_ c;
     active_jobs_ := v;
     total_jobs_processed_ := total_jobs_processed_ c;
     total_processing_time_ms_ := total_processing_time_ms_ c;
     last_health_check_ := last_health_check_ c |}.

Definition MarkUnhealthy (c : t) : t := set_is_healthy false c.

Definition Disconnect (c : t) : t := set_is_healthy false (set_stub false c).

Definition UpdateLastHealthCheck (c : t) (w : World) : t :=
  set_last_health_check (now w) c.

Definition IncrementActiveJobs (c : t) : t :=
  set_active_jobs (CInt.wrap_int (active_jobs_ c + 1)) c.

Definition DecrementActiveJobs (c : t) : t :=
  set_active_jobs (CInt.wrap_int (active_jobs_ c - 1)) c.

Definition UpdateJobStats (processing_time_ms : Z) (c : t) : t :=
  {| endpoint_ := endpoint_ c; stub_ := stub_ c; is_healthy_ := is_healthy_ c;
     active_jobs_ := active_jobs_ c;
     total_jobs_processed_ := CInt.wrap_int (total_jobs_processed_ c + 1);
     total_processing_time_ms_ :=
       PrimFloat.add (total_processing_time_ms_ c)
                     (Double.of_int processing_time_ms);
     last_health_check_ := last_health_check_ c |}.

Definition GetEndpoint (c : t) : string := endpoint_ c.
Definition GetActiveJobs (c : t) : Z := active_jobs_ c.
Definition GetTotalJobsProcessed (c : t) : Z := total_jobs_processed_ c.

Definition GetAverageProcessingTimeMs (c : t) : float :=
  let total_jobs := total_jobs_processed_ c in
  if total_jobs =? 0 then 0%float
  else PrimFloat.div (total_processing_time_ms_ c) (Double.of_int total_jobs).

(** [PerformHealthCheck]: the result, the connection and the world
    afterwards. *)
Definition PerformHealthCheck (c : t) (w : World) : bool * t * World :=
  if negb (stub_ c) then (false, set_is_healthy false c, w)
  else
    let w' := after_rpc (endpoint_ c) w in
    match status_rpc w (endpoint_ c) (now w) with
    | Returned status _ =>
        let healthy := ok status in
        (healthy,
         set_last_health_check (now w') (set_is_healthy healthy c), w')
    | Raised _ => (false, set_is_healthy false c, w')
    end.

Definition Connect (c : t) (w : World) : bool * t * World :=
  if connect w (endpoint_ c)
  then PerformHealthCheck (set_stub true c) w
  else (false, set_is_healthy false c, w).

(** The constructor. *)
Definition new (endpoint : string) (w : World) : t * World :=
  let c := {| endpoint_ := endpoint; stub_ := false; is_healthy_ := true;
              active_jobs_ := 0; total_jobs_processed_ := 0;
              total_processing_time_ms_ := 0;
              last_health_check_ := now w |} in
  let '(_, c', w') := Connect c w in (c', w').

Definition IsHealthy (c : t) (w : World) : bool * t * World :=
  let time_since_last_check :=
    Z.quot (now w - last_health_check_ c) 1000000000 in
  let intervalSeconds := default 30 (HEALTH_CHECK_INTERVAL_SECONDS w) in
  if time_since_last_check >? intervalSeconds
  then PerformHealthCheck c w
  else (is_healthy_ c, c, w).

Definition ProcessRenderRequest (c : t) (w : World) (request : RenderRequest)
    (response : RenderResponse) : Status * RenderResponse * t * World :=
  if negb (stub_ c)
  then ({| error_code := UNAVAILABLE; error_message := "Worker not connected" |},
        response, c, w)
  else
    let start_time := now w in
    let c1 := IncrementActiveJobs c in
    let w' := after_rpc (endpoint_ c) w in
    match render_rpc w (endpoint_ c) (now w) request with
    | Returned status response' =>
        let end_time := now w' in
        let duration := Z.quot (end_time - start_time) 1000000 in
        let c2 := DecrementActiveJobs (UpdateJobStats duration c1) in
        (status, response',
         if ok status then UpdateLastHealthCheck c2 w' else MarkUnhealthy c2,
         w')
    | Raised what =>
        ({| error_code := INTERNAL; error_message := "Exception: " +:+ what |},
         response, MarkUnhealthy (DecrementActiveJobs c1), w')
    end.

Definition GetWorkerStatus (c : t) (w : World) (response : WorkerStatus)
    : Status * WorkerStatus * t * World :=
  if negb (stub_ c)
  then ({| error_code := UNAVAILABLE; error_message := "Worker not connected" |},
        response, c, w)
  else
    let w' := after_rpc (endpoint_ c) w in
    match status_rpc w (endpoint_ c) (now w) with
    | Returned status response' =>
        (status, response',
         if ok status then UpdateLastHealthCheck c w' else MarkUnhealthy c,
         w')
    | Raised what =>
        ({| error_code := INTERNAL; error_message := "Exception: " +:+ what |},
         response, MarkUnhealthy c, w')
    end.

End WorkerConnection.

(** ** worker_pool.h, worker_pool.cpp: WorkerPool *)

Module WorkerPool.
Import WorkerConnection.

Record InternalWorkerInfo := {
  endpoint : string;
  worker_id : Z;
  wi_status : string;
  active_jobs : Z;
  total_jobs_processed : Z;
  average_processing_time_ms : float;
  last_heartbeat : Z
}.

Record t := {
  workers_ : list WorkerConnection.t;
  worker_service_name_ : string;
  worker_namespace_ : string;
  last_discovery_ : Z;                (* steady_clock, ns *)
  discovery_interval_ : Z             (* seconds *)
}.

Definition set_workers (ws : list WorkerConnection.t) (p : t) : t :=
  {| workers_ := ws;
     worker_service_name_ := worker_service_name_ p;
     worker_namespace_ := worker_namespace_ p;
     last_discovery_ := last_discovery_ p;
     discovery_interval_ := discovery_interval_ p |}.

Definition set_last_discovery (v : Z) (p : t) : t :=
  {| workers_ := workers_ p;
     worker_service_name_ := worker_service_name_ p;
     worker_namespace_ := worker_namespace_ p;
     last_discovery_ := v;
     discovery_interval_ := discovery_interval_ p |}.

(** The constructor, with the header's default arguments when called as
    [new "raycast-worker-service" "default"]. *)
Definition new (service_name namespace_name : string) (w : World) : t :=
  {| workers_ := [];
     worker_service_name_ := service_name;
     worker_namespace_ := namespace_name;
     last_discovery_ := now w;
     discovery_interval_ := 30 |}.

Definition GetWorkerEndpoints (p : t) (w : World) : list string :=
  [ worker_service_name_ p +:+ "." +:+ worker_namespace_ p
      +:+ ".svc.cluster.local:" +:+ default "50051" (WORKER_PORT w) ].

Definition ShouldRefreshWorkers (p : t) (w : World) : bool :=
  Z.quot (now w - last_discovery_ p) 1000000000 >=? discovery_interval_ p.

(** The endpoints of the pool's connections, in order. *)
Definition endpoints (p : t) : list string := endpoint_ <$> workers_ p.

Definition has_endpoint (e : string) (ws : list WorkerConnection.t) : bool :=
  existsb (fun c => String.eqb (GetEndpoint c) e) ws.

(** Construct a connection to [e] and keep it when it is healthy. *)
Definition try_add (e : string) (ws : list WorkerConnection.t) (w : World)
    : list WorkerConnection.t * World :=
  if has_endpoint e ws then (ws, w)
  else
    let '(worker, w1) := WorkerConnection.new e w in
    let '(healthy, worker', w2) := IsHealthy worker w1 in
    if healthy then (ws ++ [worker'], w2) else (ws, w2).

(** The "add new workers" loop over the resolved endpoints. *)
Fixpoint add_new (es : list string) (ws : list WorkerConnection.t) (w : World)
    : list WorkerConnection.t * World :=
  match es with
  | [] => (ws, w)
  | e :: es' => let '(ws', w') := try_add e ws w in add_new es' ws' w'
  end.

(** [DiscoverWorkers] once the endpoints [es] have been resolved. *)
Definition discover (es : list string) (p : t) (w : World) : t * World :=
  let kept := filter (fun c => GetEndpoint c ∈ es) (workers_ p) in
  let '(ws, w') := add_new es kept w in
  (set_last_discovery (now w') (set_workers ws p), w').

Definition DiscoverWorkers (p : t) (w : World) : t * World :=
  discover (GetWorkerEndpoints p w) p w.

Definition RefreshWorkers (p : t) (w : World) : t * World :=
  if ShouldRefreshWorkers p w then DiscoverWorkers p w else (p, w).

(** [IsHealthy] on every connection in order: the answers and the
    connections afterwards. *)
Fixpoint check_all (ws : list WorkerConnection.t) (w : World)
    : list bool * list WorkerConnection.t * World :=
  match ws with
  | [] => ([], [], w)
  | c :: ws' =>
      let '(h, c', w1) := IsHealthy c w in
      let '(hs, ws'', w2) := check_all ws' w1 in
      (h :: hs, c' :: ws'', w2)
  end.

(** Positions of the [true] answers, counted from [i]. *)
Fixpoint positions (i : nat) (hs : list bool) : list nat :=
  match hs with
  | [] => []
  | h :: hs' => if h then i :: positions (S i) hs' else positions (S i) hs'
  end.

(** A [WorkerConnection*] into [workers_] is the position of the
    connection in the vector. *)
Definition GetHealthyWorkers (p : t) (w : World) : list nat * t * World :=
  let '(hs, ws, w') := check_all (workers_ p) w in
  (positions 0 hs, set_workers ws p, w').

Definition GetAllWorkers (p : t) : list nat := seq 0 (length (workers_ p)).

Definition AddWorker (e : string) (p : t) (w : World) : t * World :=
  let '(ws, w') := try_add e (workers_ p) w in (set_workers ws p, w').

Definition RemoveWorker (e : string) (p : t) : t :=
  set_workers
    (filter (fun c => negb (String.eqb (GetEndpoint c) e) = true) (workers_ p)) p.

Fixpoint find_from (i : nat) (e : string) (ws : list WorkerConnection.t)
    : option nat :=
  match ws with
  | [] => None
  | c :: ws' => if String.eqb (GetEndpoint c) e then Some i
                else find_from (S i) e ws'
  end.

Definition FindWorker (e : string) (p : t) : option nat :=
  find_from 0 e (workers_ p).

Definition GetTotalWorkers (p : t) : Z :=
  CInt.wrap_int (Z.of_nat (length (workers_ p))).

Definition GetActiveWorkers (p : t) (w : World) : Z * t * World :=
  let '(hs, ws, w') := check_all (workers_ p) w in
  (CInt.wrap_int (Z.of_nat (length (filter (fun h => h = true) hs))),
   set_workers ws p, w').

Fixpoint worker_infos (ws : list WorkerConnection.t) (w : World)
    : list InternalWorkerInfo * list WorkerConnection.t * World :=
  match ws with
  | [] => ([], [], w)
  | c :: ws' =>
      let '(h, c', w1) := IsHealthy c w in
      let info :=
        {| endpoint := GetEndpoint c';
           worker_id := 0;
           wi_status := if h then "healthy" else "unhealthy";
           active_jobs := GetActiveJobs c';
           total_jobs_processed := GetTotalJobsProcessed c';
           average_processing_time_ms := GetAverageProcessingTimeMs c';
           last_heartbeat := system_ms w1 |} in
      let '(infos, ws'', w2) := worker_infos ws' w1 in
      (info :: infos, c' :: ws'', w2)
  end.

Definition GetWorkerInfo (p : t) (w : World)
    : list InternalWorkerInfo * t * World :=
  let '(infos, ws, w') := worker_infos (workers_ p) w in
  (infos, set_workers ws p, w').

(** [p->method()] through a [WorkerConnection*]: the connection at
    position [i]. *)
Definition deref (p : t) (i : nat) : outcome WorkerConnection.t :=
  of_option (workers_ p !! i).

Definition store (i : nat) (c : WorkerConnection.t) (p : t) : t :=
  set_workers (<[i := c]> (workers_ p)) p.

End WorkerPool.

(** ** load_balancer.h, load_balancer.cpp *)

Inductive LoadBalancingStrategy :=
| ROUND_ROBIN | LEAST_LOADED | RANDOM | WEIGHTED_ROUND_ROBIN.

Module LoadBalancer.
Import WorkerConnection.

Record t := {
  strategy_ : LoadBalancingStrategy;
  round_robin_index_ : Z;             (* std::atomic<size_t> *)
  random_state_ : Z;                  (* draws taken from the generator *)
  random_distribution_ : Z * Z
}.

(** The constructor; [ROUND_ROBIN] is the header's default strategy. *)
Definition new (strategy : LoadBalancingStrategy) : t :=
  {| strategy_ := strategy; round_robin_index_ := 0;
     random_state_ := 0; random_distribution_ := (0, 0) |}.

Definition SetStrategy (strategy : LoadBalancingStrategy) (lb : t) : t :=
  {| strategy_ := strategy; round_robin_index_ := round_robin_index_ lb;
     random_state_ := random_state_ lb;
     random_distribution_ := random_distribution_ lb |}.

Definition GetStrategy (lb : t) : LoadBalancingStrategy := strategy_ lb.

Definition set_random_distribution (d : Z * Z) (lb : t) : t :=
  {| strategy_ := strategy_ lb; round_robin_index_ := round_robin_index_ lb;
     random_state_ := random_state_ lb; random_distribution_ := d |}.

(** [round_robin_index_.fetch_add(1)]: the value before, and the balancer
    with the incremented index. *)
Definition fetch_add_index (lb : t) : Z * t :=
  (round_robin_index_ lb,
   {| strategy_ := strategy_ lb;
      round_robin_index_ := CInt.wrap_size (round_robin_index_ lb + 1);
      random_state_ := random_state_ lb;
      random_distribution_ := random_distribution_ lb |}).

(** [workers[index]] on a snapshot. *)
Definition at_index (workers : list nat) (index : Z) : outcome nat :=
  if index <? 0 then Undefined else of_option (workers !! Z.to_nat index).

(** The round-robin choice on a given snapshot. *)
Definition round_robin_pick (workers : list nat) (lb : t)
    : outcome (option nat) * t :=
  match workers with
  | [] => (Ok None, lb)
  | _ :: _ =>
      let '(i, lb') := fetch_add_index lb in
      let index := i mod Z.of_nat (length workers) in
      (Some <$> at_index workers index, lb')
  end.

Definition SelectRoundRobin (lb : t) (p : WorkerPool.t) (w : World)
    : outcome (option nat) * t * WorkerPool.t * World :=
  let '(workers, p', w') := WorkerPool.GetHealthyWorkers p w in
  let '(res, lb') := round_robin_pick workers lb in
  (res, lb', p', w').

(** [std::min_element] / [std::max_element] over positions [i ..] with
    the keys [ks]: the position of the first least (greatest) key. *)
Fixpoint min_element_from {A} (less : A -> A -> bool)
    (best : nat) (kbest : A) (i : nat) (ks : list A) : nat :=
  match ks with
  | [] => best
  | k :: ks' =>
      if less k kbest then min_element_from less i k (S i) ks'
      else min_element_from less best kbest (S i) ks'
  end.

Fixpoint max_element_from {A} (less : A -> A -> bool)
    (best : nat) (kbest : A) (i : nat) (ks : list A) : nat :=
  match ks with
  | [] => best
  | k :: ks' =>
      if less kbest k then max_element_from less i k (S i) ks'
      else max_element_from less best kbest (S i) ks'
  end.

Fixpoint derefs (p : WorkerPool.t) (workers : list nat)
    : outcome (list WorkerConnection.t) :=
  match workers with
  | [] => Ok []
  | i :: rest =>
      c ← WorkerPool.deref p i; cs ← derefs p rest; Ok (c :: cs)
  end.

Definition SelectLeastLoaded (lb : t) (p : WorkerPool.t) (w : World)
    : outcome (option nat) * t * WorkerPool.t * World :=
  let '(workers, p', w') := WorkerPool.GetHealthyWorkers p w in
  let res :=
    cs ← derefs p' workers;
    match GetActiveJobs <$> cs with
    | [] => Ok None
    | k :: ks =>
        Some <$> at_index workers
                   (Z.of_nat (min_element_from Z.ltb 0%nat k 1%nat ks))
    end in
  (res, lb, p', w').

Definition SelectRandom (lb : t) (p : WorkerPool.t) (w : World)
    : outcome (option nat) * t * WorkerPool.t * World :=
  let '(workers, p', w') := WorkerPool.GetHealthyWorkers p w in
  match workers with
  | [] => (Ok None, lb, p', w')
  | _ :: _ =>
      let '(lo, hi) := random_distribution_ lb in
      let index := random_draw w (random_state_ lb) lo hi in
      (Some <$> at_index workers index,
       {| strategy_ := strategy_ lb; round_robin_index_ := round_robin_index_ lb;
          random_state_ := random_state_ lb + 1;
          random_distribution_ := random_distribution_ lb |},
       p', w')
  end.

Definition CalculateWorkerWeight (c : WorkerConnection.t) (w : World)
    : float * WorkerConnection.t * World :=
  let active_jobs_weight :=
    PrimFloat.div 1 (PrimFloat.add 1 (Double.of_int (GetActiveJobs c))) in
  let processing_speed_weight :=
    PrimFloat.div 1
      (PrimFloat.add 1 (PrimFloat.div (GetAverageProcessingTimeMs c) 1000)) in
  let '(h, c', w') := IsHealthy c w in
  let health_weight := if h then 1%float else 0%float in
  (PrimFloat.add
     (PrimFloat.add (PrimFloat.mul active_jobs_weight 0.5)
                    (PrimFloat.mul processing_speed_weight 0x1.3333333333333p-2))
     (PrimFloat.mul health_weight 0x1.999999999999ap-3),
   c', w').

(** The loop filling [weights]. *)
Fixpoint weigh (workers : list nat) (p : WorkerPool.t) (w : World)
    : outcome (list float) * WorkerPool.t * World :=
  match workers with
  | [] => (Ok [], p, w)
  | i :: rest =>
      match WorkerPool.deref p i with
      | Ok c =>
          let '(k, c', w1) := CalculateWorkerWeight c w in
          let '(res, p2, w2) := weigh rest (WorkerPool.store i c' p) w1 in
          (ks ← res; Ok (k :: ks), p2, w2)
      | Throw what => (Throw what, p, w)
      | Undefined => (Undefined, p, w)
      | Diverged => (Diverged, p, w)
      end
  end.

Definition SelectWeightedRoundRobin (lb : t) (p : WorkerPool.t) (w : World)
    : outcome (option nat) * t * WorkerPool.t * World :=
  let '(workers, p1, w1) := WorkerPool.GetHealthyWorkers p w in
  match workers with
  | [] => (Ok None, lb, p1, w1)
  | _ :: _ =>
      let '(res, p2, w2) := weigh workers p1 w1 in
      (ks ← res;
       match ks with
       | [] => Undefined
       | k :: ks' =>
           Some <$> at_index workers
                      (Z.of_nat (max_element_from PrimFloat.ltb 0%nat k 1%nat ks'))
       end,
       lb, p2, w2)
  end.

(** [GetNextWorker]: [Ok None] is the null pointer. *)
Definition GetNextWorker (lb : t) (p : WorkerPool.t) (w : World)
    : outcome (option nat) * t * WorkerPool.t * World :=
  let '(workers, p1, w1) := WorkerPool.GetHealthyWorkers p w in
  match workers with
  | [] => (Ok None, lb, p1, w1)
  | _ :: _ =>
      let lb1 :=
        set_random_distribution
          (0, CInt.wrap_size (Z.of_nat (length workers) - 1)) lb in
      match strategy_ lb1 with
      | ROUND_ROBIN => SelectRoundRobin lb1 p1 w1
      | LEAST_LOADED => SelectLeastLoaded lb1 p1 w1
      | RANDOM => SelectRandom lb1 p1 w1
      | WEIGHTED_ROUND_ROBIN => SelectWeightedRoundRobin lb1 p1 w1
      end
  end.

Definition GetWorkerForRequest (request_id : string)
    (lb : t) (p : WorkerPool.t) (w : World) :=
  GetNextWorker lb p w.

Definition GetAllWorkers (p : WorkerPool.t) (w : World) :=
  WorkerPool.GetHealthyWorkers p w.

Definition GetAvailableWorkerCount (p : WorkerPool.t) (w : World) :=
  WorkerPool.GetActiveWorkers p w.

End LoadBalancer.

(** ** master_server.h and the master service implementation *)

Record RaycastRequest := {
  mq_request_id : string;
  mq_client_id : string;
  mq_player : Player;
  mq_screen_width : Z;
  mq_screen_height : Z;
  mq_fov : float;
  mq_start_column : Z;
  mq_end_column : Z;
  mq_map : list Z;
  mq_map_width : Z;
  mq_map_height : Z;
  mq_timestamp : Z
}.

Record RaycastResponse := {
  mr_request_id : string;
  mr_client_id : string;
  mr_worker_id : Z;
  mr_timestamp : Z;
  mr_processing_time_ms : Z;
  mr_results : list InternalRaycastResult;
  mr_success : bool;
  mr_error_message : string;
  mr_worker_endpoint : string
}.

Record MasterStatus := {
  total_workers : Z;
  active_workers : Z;
  total_requests_processed : Z;
  average_response_time_ms : float;
  ms_timestamp : Z;
  workers : list WorkerPool.InternalWorkerInfo
}.

(** A message as the RPC layer hands it to a handler. *)
Definition empty_RenderResponse : RenderResponse :=
  {| rr_request_id := ""; rr_player_id := ""; rr_worker_id := 0;
     rr_timestamp := 0; rr_processing_time_ms := 0; rr_results := [] |}.

Definition empty_RaycastResponse : RaycastResponse :=
  {| mr_request_id := ""; mr_client_id := ""; mr_worker_id := 0;
     mr_timestamp := 0; mr_processing_time_ms := 0; mr_results := [];
     mr_success := false; mr_error_message := ""; mr_worker_endpoint := "" |}.

Definition empty_MasterStatus : MasterStatus :=
  {| total_workers := 0; active_workers := 0; total_requests_processed := 0;
     average_response_time_ms := 0; ms_timestamp := 0; workers := [] |}.

Module MasterServiceImpl.

Record t := {
  worker_pool_ : WorkerPool.t;
  load_balancer_ : LoadBalancer.t;
  total_requests_processed_ : Z;       (* std::atomic<int> *)
  total_response_time_ms_ : float      (* std::atomic<double> *)
}.

Definition set_success (v : bool) (m : RaycastResponse) : RaycastResponse :=
  {| mr_request_id := mr_request_id m; mr_client_id := mr_client_id m;
     mr_worker_id := mr_worker_id m; mr_timestamp := mr_timestamp m;
     mr_processing_time_ms := mr_processing_time_ms m;
     mr_results := mr_results m; mr_success := v;
     mr_error_message := mr_error_message m;
     mr_worker_endpoint := mr_worker_endpoint m |}.

Definition set_error_message (v : string) (m : RaycastResponse) : RaycastResponse :=
  {| mr_request_id := mr_request_id m; mr_client_id := mr_client_id m;
     mr_worker_id := mr_worker_id m; mr_timestamp := mr_timestamp m;
     mr_processing_time_ms := mr_processing_time_ms m;
     mr_results := mr_results m; mr_success := mr_success m;
     mr_error_message := v;
     mr_worker_endpoint := mr_worker_endpoint m |}.

Definition set_worker_endpoint (v : string) (m : RaycastResponse) : RaycastResponse :=
  {| mr_request_id := mr_request_id m; mr_client_id := mr_client_id m;
     mr_worker_id := mr_worker_id m; mr_timestamp := mr_timestamp m;
     mr_processing_time_ms := mr_processing_time_ms m;
     mr_results := mr_results m; mr_success := mr_success m;
     mr_error_message := mr_error_message m;
     mr_worker_endpoint := v |}.

(** The constructor: a default pool, a round-robin balancer, and one
    discovery. *)
Definition new (w : World) : t * World :=
  let '(p, w') :=
    WorkerPool.DiscoverWorkers
      (WorkerPool.new "raycast-worker-service" "default" w) w in
  ({| worker_pool_ := p;
      load_balancer_ := LoadBalancer.new ROUND_ROBIN;
      total_requests_processed_ := 0;
      total_response_time_ms_ := 0 |}, w').

Definition ConvertRequest (master_request : RaycastRequest) : RenderRequest :=
  {| request_id := mq_request_id master_request;
     player_id_ := mq_client_id master_request;
     player_ := {| x := x (mq_player master_request);
                   y := y (mq_player master_request);
                   angle := angle (mq_player master_request);
                   pitch := pitch (mq_player master_request);
                   id := id (mq_player master_request);
                   p_timestamp := p_timestamp (mq_player master_request) |};
     screen_width := mq_screen_width master_request;
     screen_height := mq_screen_height master_request;
     fov_ := mq_fov master_request;
     start_column := mq_start_column master_request;
     end_column := mq_end_column master_request;
     map_ := mq_map master_request;
     map_width := mq_map_width master_request;
     map_height := mq_map_height master_request;
     timestamp_ := mq_timestamp master_request |}.

Definition ConvertResponse (worker_response : RenderResponse)
    (master_response : RaycastResponse) : RaycastResponse :=
  {| mr_request_id := rr_request_id worker_response;
     mr_client_id := rr_player_id worker_response;
     mr_worker_id := rr_worker_id worker_response;
     mr_timestamp := rr_timestamp worker_response;
     mr_processing_time_ms := rr_processing_time_ms worker_response;
     mr_results := mr_results master_response ++ rr_results worker_response;
     mr_success := mr_success master_response;
     mr_error_message := mr_error_message master_response;
     mr_worker_endpoint := mr_worker_endpoint master_response |}.

Definition UpdateStats (response_time_ms : Z) (m : t) : t :=
  {| worker_pool_ := worker_pool_ m;
     load_balancer_ := load_balancer_ m;
     total_requests_processed_ :=
       CInt.wrap_int (total_requests_processed_ m + 1);
     total_response_time_ms_ :=
       PrimFloat.add (total_response_time_ms_ m)
                     (Double.of_int response_time_ms) |}.

Definition with_pool (p : WorkerPool.t) (lb : LoadBalancer.t) (m : t) : t :=
  {| worker_pool_ := p; load_balancer_ := lb;
     total_requests_processed_ := total_requests_processed_ m;
     total_response_time_ms_ := total_response_time_ms_ m |}.

(** What [ProcessRaycastRequest] did with the chosen worker. *)
Inductive dispatch := NotDispatched | Dispatched (worker : nat).

(** The [catch] clause of [ProcessRaycastRequest]. *)
Definition caught (what : string) (response : RaycastResponse)
    : Status * RaycastResponse * dispatch :=
  ({| error_code := INTERNAL; error_message := "Internal server error" |},
   set_error_message ("Internal error: " +:+ what) (set_success false response),
   NotDispatched).

(** [ProcessRaycastRequest]: the returned status, the response, whether a
    worker was called, and the service and the world afterwards. *)
Definition ProcessRaycastRequest (m : t) (w : World)
    (request : RaycastRequest) (response : RaycastResponse)
    : outcome (Status * RaycastResponse * dispatch) * t * World :=
  let start_time := now w in
  let '(p1, w1) := WorkerPool.RefreshWorkers (worker_pool_ m) w in
  let '(chosen, lb2, p2, w2) :=
    LoadBalancer.GetNextWorker (load_balancer_ m) p1 w1 in
  let m2 := with_pool p2 lb2 m in
  match chosen with
  | Ok None =>
      (Ok ({| error_code := UNAVAILABLE;
              error_message := "No workers available" |},
           set_error_message "No workers available" (set_success false response),
           NotDispatched),
       m2, w2)
  | Ok (Some worker) =>
      match WorkerPool.deref p2 worker with
      | Ok c =>
          let worker_request := ConvertRequest request in
          let '(status, worker_response, c', w3) :=
            WorkerConnection.ProcessRenderRequest c w2 worker_request
              empty_RenderResponse in
          let m3 := with_pool (WorkerPool.store worker c' p2) lb2 m in
          if ok status then
            let response' :=
              set_success true
                (set_worker_endpoint (WorkerConnection.GetEndpoint c')
                   (ConvertResponse worker_response response)) in
            let end_time := now w3 in
            let duration := Z.quot (end_time - start_time) 1000000 in
            (Ok (status, response', Dispatched worker),
             UpdateStats duration m3, w3)
          else
            (Ok (status,
                 set_error_message (error_message status)
                   (set_success false response),
                 Dispatched worker),
             m3, w3)
      | Throw what => (Ok (caught what response), m2, w2)
      | Undefined => (Undefined, m2, w2)
      | Diverged => (Diverged, m2, w2)
      end
  | Throw what => (Ok (caught what response), m2, w2)
  | Undefined => (Undefined, m2, w2)
  | Diverged => (Diverged, m2, w2)
  end.

Definition GetMasterStatus (m : t) (w : World) (response : MasterStatus)
    : Status * MasterStatus * t * World :=
  let '(p1, w1) := WorkerPool.RefreshWorkers (worker_pool_ m) w in
  let '(worker_info, p2, w2) := WorkerPool.GetWorkerInfo p1 w1 in
  let total := WorkerPool.GetTotalWorkers p2 in
  let '(active, p3, w3) := WorkerPool.GetActiveWorkers p2 w2 in
  (Status_OK,
   {| total_workers := total;
      active_workers := active;
      total_requests_processed := total_requests_processed_ m;
      average_response_time_ms :=
        if total_requests_processed_ m >? 0
        then PrimFloat.div (total_response_time_ms_ m)
                           (Double.of_int (total_requests_processed_ m))
        else 0%float;
      ms_timestamp := system_ms w3;
      workers := workers response ++ worker_info |},
   with_pool p3 (load_balancer_ m) m, w3).

End MasterServiceImpl.

(** * Vocabulary of the properties, and sample inputs *)

(** Every cell inside the [W] x [H] grid can be read. *)
Definition cells_present (map : list (list Z)) (W H : Z) : Prop :=
  forall x y, 0 <= x < W -> 0 <= y < H ->
    is_Some (RaycastEngine.map_at map y x).

(** A map with [H] rows of [W] cells each. *)
Definition grid (map : list (list Z)) (W H : Z) : Prop :=
  length map = Z.to_nat H /\ Forall (fun row => length row = Z.to_nat W) map.

(** Cells left to cross, in the directions [sX] and [sY], before the march
    leaves the [W] x [H] grid from the cell [(mX, mY)]. *)
Definition cells_remaining (W H sX sY mX mY : Z) : Z :=
  (if sX =? 1 then W - mX else mX + 1) + (if sY =? 1 then H - mY else mY + 1).

(** The two copies of the active-job counter agree and hold an [int]. *)
Definition worker_consistent (svc : Worker.RaycastWorkerServiceImpl) : Prop :=
  Worker.activeJobs (Worker.status_ svc) = Worker.activeJobs_ svc /\
  CInt.in_int (Worker.activeJobs_ svc).

(** A method of the connection at position [i], called through a pointer
    taken from the pool: the connection is updated in place. *)
Definition call_at
    (method : WorkerConnection.t -> World -> bool * WorkerConnection.t * World)
    (i : nat) (p : WorkerPool.t) (w : World) : WorkerPool.t * World :=
  match WorkerPool.workers_ p !! i with
  | Some c => let '(_, c', w') := method c w in (WorkerPool.store i c' p, w')
  | None => (p, w)
  end.

(** [n] consecutive calls of [SelectRoundRobin], each on the state the
    previous one left: the workers selected, in order. *)
Fixpoint select_round_robin_calls (n : nat) (lb : LoadBalancer.t)
    (p : WorkerPool.t) (w : World) : list (outcome (option nat)) :=
  match n with
  | O => []
  | S n' =>
      let '(res, lb', p', w') := LoadBalancer.SelectRoundRobin lb p w in
      res :: select_round_robin_calls n' lb' p' w'
  end.

(** "[workers] stays the healthy snapshot": from every state that satisfies
    [stays], [GetHealthyWorkers] returns [workers] and leaves a state that
    satisfies [stays] again. *)
Definition snapshot_stays (workers : list nat)
    (stays : WorkerPool.t -> World -> Prop) : Prop :=
  forall p w, stays p w ->
    exists p' w',
      WorkerPool.GetHealthyWorkers p w = (workers, p', w') /\ stays p' w'.

(** The border cells of the [W] x [H] grid are walls. *)
Definition walled (map : list (list Z)) (W H : Z) : Prop :=
  forall x y, 0 <= x < W -> 0 <= y < H ->
    x = 0 \/ x = W - 1 \/ y = 0 \/ y = H - 1 ->
    RaycastEngine.map_at map y x = Some 1.

(** The same, as a check that runs over the grid. *)
Definition walledb (map : list (list Z)) (W H : Z) : bool :=
  forallb (fun y =>
    forallb (fun x =>
      if (x =? 0) || (x =? W - 1) || (y =? 0) || (y =? H - 1)
      then match RaycastEngine.map_at map y x with
           | Some cell => cell =? 1
           | None => false
           end
      else true) (seqZ 0 W)) (seqZ 0 H).

(** A column result whose colour channels are bytes, whose wall type is a
    remainder modulo 6 and whose pixel bounds are [int]s. *)
Definition in_range_result (res : InternalRaycastResult) : Prop :=
  0 <= r res <= 255 /\ 0 <= g res <= 255 /\ 0 <= b res <= 255 /\
  -6 < wallType res < 6 /\
  CInt.in_int (wallTop res) /\ CInt.in_int (wallBottom res).

Module Sample.

(** The double nearest to pi. *)
Definition PI : float := 0x1.921fb54442d18p+1%float.

(** The values glibc's [cos] and [sin] take at the two angles the samples
    use, [0] and [PI]: cos 0 = 1, sin 0 = 0, cos PI = -1 and
    sin PI = 1.2246467991473532e-16.  No sample calls them elsewhere. *)
Definition libm : Libm :=
  {| cos := fun a => if PrimFloat.eqb a 0 then 1%float
                     else if PrimFloat.eqb a PI then (-1)%float
                     else PrimFloat.nan;
     sin := fun a => if PrimFloat.eqb a 0 then 0%float
                     else if PrimFloat.eqb a PI then 0x1.1a62633145c07p-53%float
                     else PrimFloat.nan |}.

(** The 16 x 16 map of the local game (Map.cpp), walled on every side. *)
Definition mapData : list (list Z) :=
  [ [1;1;1;1;1;1;1;1;1;1;1;1;1;1;1;1];
    [1;0;0;0;0;0;0;0;0;0;0;0;0;0;0;1];
    [1;0;0;0;0;0;0;0;0;0;0;0;0;0;0;1];
    [1;0;0;1;1;1;0;0;0;0;1;1;1;0;0;1];
    [1;0;0;0;0;1;0;0;0;0;1;0;0;0;0;1];
    [1;0;0;0;0;1;0;0;0;0;1;0;0;0;0;1];
    [1;0;0;0;0;0;0;0;0;0;0;0;0;0;0;1];
    [1;0;0;0;0;0;0;1;1;0;0;0;0;0;0;1];
    [1;0;0;0;0;0;0;1;1;0;0;0;0;0;0;1];
    [1;0;0;0;0;0;0;0;0;0;0;0;0;0;0;1];
    [1;0;0;1;0;0;0;0;0;0;0;0;1;0;0;1];
    [1;0;0;1;0;0;0;0;0;0;0;0;1;0;0;1];
    [1;0;0;0;0;0;0;0;0;0;0;0;0;0;0;1];
    [1;0;0;0;0;0;0;0;0;0;0;0;0;0;0;1];
    [1;0;0;0;0;0;0;0;0;0;0;0;0;0;0;1];
    [1;1;1;1;1;1;1;1;1;1;1;1;1;1;1;1] ].

(** A 2 x 2 map without walls. *)
Definition open_map : list (list Z) := [ [0; 0]; [0; 0] ].

(** The player of Player.cpp: at (2, 2), looking along +x. *)
Definition player0 : InternalPlayer :=
  {| player_x := 2; player_y := 2; player_angle := 0; player_pitch := 0;
     player_id := "p1"; player_timestamp := 0 |}.

(** Columns 0 .. 7 of an 8-column screen on [mapData]. *)
Definition job : InternalRenderRequest :=
  {| requestId := "r1"; playerId := "p1"; player := player0;
     screenWidth := 8; screenHeight := 768; fov := 0;
     startColumn := 0; endColumn := 8;
     map := mapData; mapWidth := 16; mapHeight := 16; timestamp := 0 |}.

(** A wire request whose column range runs backwards (5 down to 0), on
    the 2 x 2 map without walls. *)
Definition backwards_request : RenderRequest :=
  {| request_id := "r2"; player_id_ := "p1";
     player_ := {| x := 0.5; y := 0.5; angle := 0; pitch := 0;
                   id := "p1"; p_timestamp := 0 |};
     screen_width := 8; screen_height := 768; fov_ := 0;
     start_column := 5; end_column := 0;
     map_ := [0; 0; 0; 0]; map_width := 2; map_height := 2;
     timestamp_ := 0 |}.

(** Clock readings of a call that takes 3 ms. *)
Definition clock : Worker.Clock :=
  {| Worker.startTime := 1000000; Worker.responseTimestamp := 1700000000000;
     Worker.endTime := 4000000; Worker.heartbeatTimestamp := 1700000000003 |}.

Definition idle_status : WorkerStatus :=
  {| ws_worker_id := 1; ws_status := "idle"; ws_active_jobs := 0;
     ws_total_jobs_processed := 0; ws_average_processing_time_ms := 0;
     ws_last_heartbeat := 0 |}.

(** A world at time [t] (ns) with no environment variable set, in which a
    stub call takes 1 ms; [reach] tells whether a channel can be created
    and [probe] is the answer to every status call. *)
Definition world (reach : bool) (probe : rpc_result WorkerStatus) (t : Z)
    : World :=
  {| now := t; system_ms := 1700000000000;
     connect := fun _ => reach;
     status_rpc := fun _ _ => probe;
     render_rpc := fun _ _ _ => Returned Status_OK empty_RenderResponse;
     rpc_ns := fun _ _ => 1000000;
     random_draw := fun _ lo _ => lo;
     HEALTH_CHECK_INTERVAL_SECONDS := None;
     HEALTH_CHECK_TIMEOUT_SECONDS := None;
     REQUEST_TIMEOUT_SECONDS := None;
     WORKER_PORT := None |}.

(** Every worker answers its status call with OK. *)
Definition all_up : Z -> World := world true (Returned Status_OK idle_status).

(** Every status call comes back with UNAVAILABLE. *)
Definition all_down : Z -> World :=
  world true
    (Returned {| error_code := UNAVAILABLE;
                 error_message := "failed to connect to all addresses" |}
              idle_status).

(** Every status call raises. *)
Definition raising : Z -> World := world true (Raised "std::bad_alloc").

(** No channel can be created. *)
Definition unreachable : Z -> World :=
  world false (Returned Status_OK idle_status).

Definition raycast_request : RaycastRequest :=
  {| mq_request_id := "r1"; mq_client_id := "c1";
     mq_player := {| x := 2; y := 2; angle := 0; pitch := 0;
                     id := "p1"; p_timestamp := 0 |};
     mq_screen_width := 8; mq_screen_height := 768; mq_fov := 0;
     mq_start_column := 0; mq_end_column := 8;
     mq_map := concat mapData; mq_map_width := 16; mq_map_height := 16;
     mq_timestamp := 0 |}.

(** A pool of three connections made while every worker is up. *)
Definition three_workers : WorkerPool.t :=
  let p0 := WorkerPool.new "raycast-worker-service" "default" (all_up 0) in
  let '(p1, w1) := WorkerPool.AddWorker "worker-a:50051" p0 (all_up 0) in
  let '(p2, w2) := WorkerPool.AddWorker "worker-b:50051" p1 w1 in
  let '(p3, _) := WorkerPool.AddWorker "worker-c:50051" p2 w2 in
  p3.

(** A balancer whose index has reached the largest [size_t]. *)
Definition last_index : LoadBalancer.t :=
  {| LoadBalancer.strategy_ := ROUND_ROBIN;
     LoadBalancer.round_robin_index_ := 2 ^ 64 - 1;
     LoadBalancer.random_state_ := 0;
     LoadBalancer.random_distribution_ := (0, 0) |}.

(** The master started while every status call fails: discovery adds no
    worker. *)
Definition lonely_master : MasterServiceImpl.t :=
  (MasterServiceImpl.new (all_down 0)).1.

(** The master started while every worker is up, after two requests
    answered in 3 ms and 4 ms. *)
Definition busy_master : MasterServiceImpl.t :=
  MasterServiceImpl.UpdateStats 4
    (MasterServiceImpl.UpdateStats 3 (MasterServiceImpl.new (all_up 0)).1).

(** A job for no column at all (columns 4 .. 4), with no map rows. *)
Definition empty_range_job : InternalRenderRequest :=
  {| requestId := "r3"; playerId := "p1"; player := player0;
     screenWidth := 8; screenHeight := 768; fov := 0;
     startColumn := 4; endColumn := 4;
     map := []; mapWidth := 16; mapHeight := 16; timestamp := 0 |}.

(** The wire form of [job]: the same columns, the map flattened row by row. *)
Definition wire_job : RenderRequest :=
  {| request_id := "r1"; player_id_ := "p1";
     player_ := {| x := 2; y := 2; angle := 0; pitch := 0;
                   id := "p1"; p_timestamp := 0 |};
     screen_width := 8; screen_height := 768; fov_ := 0;
     start_column := 0; end_column := 8;
     map_ := concat mapData; map_width := 16; map_height := 16;
     timestamp_ := 0 |}.

(** The worker after one request that failed with an exception. *)
Definition leaky_worker : Worker.RaycastWorkerServiceImpl :=
  Worker.enter (Worker.new 1 0).

(** A connection made at time 0 while every worker is up. *)
Definition connection_a : WorkerConnection.t :=
  (WorkerConnection.new "worker-a:50051" (all_up 0)).1.

End Sample.

(** * Properties *)

(** ** Machine arithmetic *)

Lemma wrap_int_range (z : Z) : CInt.in_int (CInt.wrap_int z).
Proof.
  unfold CInt.in_int, CInt.wrap_int, CInt.INT_MIN, CInt.INT_MAX.
  pose proof (Z.mod_pos_bound (z + 2 ^ 31) (2 ^ 32) ltac:(lia)). lia.
Qed.

Lemma wrap_int_id (z : Z) : CInt.in_int z -> CInt.wrap_int z = z.
Proof.
  unfold CInt.in_int, CInt.wrap_int, CInt.INT_MIN, CInt.INT_MAX. intros Hz.
  rewrite Z.mod_small; lia.
Qed.

(** A step of one cell from a non-negative [int] either stays an [int] or
    wraps to a negative value. *)
Lemma wrap_int_step (m s : Z) :
  0 <= m -> CInt.in_int m -> s = 1 \/ s = -1 ->
  0 <= CInt.wrap_int (m + s) -> CInt.wrap_int (m + s) = m + s.
Proof.
  intros Hm Hin Hs Hw.
  destruct (Z.eq_dec (m + s) (2 ^ 31)) as [E|E].
  - rewrite E in Hw. vm_compute in Hw. contradiction.
  - apply wrap_int_id. unfold CInt.in_int, CInt.INT_MIN, CInt.INT_MAX in *. lia.
Qed.

Lemma to_int_range (d : float) : CInt.in_int (Double.to_int d).
Proof.
  unfold Double.to_int, CInt.in_int.
  destruct (Double.trunc d) as [z|]; [|vm_compute; split; discriminate].
  destruct (_ && _) eqn:E; [|vm_compute; split; discriminate].
  apply andb_true_iff in E as [E1 E2]. lia.
Qed.

Lemma wrap_uint8_range (z : Z) : 0 <= CInt.wrap_uint8 z <= 255.
Proof.
  unfold CInt.wrap_uint8. pose proof (Z.mod_pos_bound z 256 ltac:(lia)). lia.
Qed.

(** ** The DDA march *)

Lemma grid_cells_present map W H : grid map W H -> cells_present map W H.
Proof.
  intros [Hlen Hrows] x y Hx Hy. unfold RaycastEngine.map_at.
  destruct (Z.ltb_spec y 0); [lia|]. destruct (Z.ltb_spec x 0); [lia|]. simpl.
  destruct (map !! Z.to_nat y) as [row|] eqn:Erow.
  - apply lookup_lt_is_Some.
    rewrite Forall_forall in Hrows.
    rewrite (Hrows row); [lia|].
    eapply list_elem_of_lookup_2; eauto.
  - apply lookup_ge_None in Erow. lia.
Qed.

Section DDA_facts.
Variables (map : list (list Z)) (W H : Z).
Variables (dX dY : float) (sX sY : Z).
Hypothesis HsX : sX = 1 \/ sX = -1.
Hypothesis HsY : sY = 1 \/ sY = -1.

Local Abbreviation dda := (RaycastEngine.dda map W H dX dY sX sY).

Local Abbreviation remaining := (cells_remaining W H sX sY).

Lemma dda_not_Throw fuel : forall sdX sdY mX mY what,
  dda fuel sdX sdY mX mY <> Throw what.
Proof using Type.
  induction fuel as [|fuel IH]; intros; simpl; [discriminate|].
  repeat (case_match; try discriminate); apply IH.
Qed.

Lemma dda_inside fuel : forall sdX sdY mX mY,
  0 <= mX < W -> 0 <= mY < H -> CInt.in_int mX -> CInt.in_int mY ->
  remaining mX mY <= Z.of_nat fuel ->
  dda fuel sdX sdY mX mY <> Diverged.
Proof using HsX HsY.
  unfold cells_remaining.
  induction fuel as [|fuel IH]; intros sdX sdY mX mY HX HY IX IY Hrem.
  { exfalso. destruct HsX as [-> | ->], HsY as [-> | ->]; simpl in Hrem; lia. }
  simpl.
  destruct (PrimFloat.ltb sdX sdY); cbn [RaycastEngine.mapX RaycastEngine.mapY
    RaycastEngine.sideDistX RaycastEngine.sideDistY].
  - destruct (_ || _) eqn:Eb; [discriminate|].
    repeat (apply orb_false_iff in Eb as [Eb ?]).
    destruct (RaycastEngine.map_at _ _ _) as [cell|]; [|discriminate].
    destruct (cell =? 1); [discriminate|].
    assert (Hw : CInt.wrap_int (mX + sX) = mX + sX)
      by (apply wrap_int_step; [lia | assumption | assumption | lia]).
    apply IH; try lia; try apply wrap_int_range; try assumption.
    rewrite Hw. destruct HsX as [-> | ->], HsY as [-> | ->]; simpl in *; lia.
  - destruct (_ || _) eqn:Eb; [discriminate|].
    repeat (apply orb_false_iff in Eb as [Eb ?]).
    destruct (RaycastEngine.map_at _ _ _) as [cell|]; [|discriminate].
    destruct (cell =? 1); [discriminate|].
    assert (Hw : CInt.wrap_int (mY + sY) = mY + sY)
      by (apply wrap_int_step; [lia | assumption | assumption | lia]).
    apply IH; try lia; try apply wrap_int_range; try assumption.
    rewrite Hw. destruct HsX as [-> | ->], HsY as [-> | ->]; simpl in *; lia.
Qed.

(** From any starting cell the loop is left within
    [1 + mapWidth + mapHeight] iterations. *)
Lemma dda_terminates sdX sdY mX mY :
  CInt.in_int mX -> CInt.in_int mY ->
  dda (S (Z.to_nat W + Z.to_nat H)) sdX sdY mX mY <> Diverged.
Proof using HsX HsY.
  intros IX IY. cbn [RaycastEngine.dda].
  destruct (PrimFloat.ltb sdX sdY); cbn [RaycastEngine.mapX RaycastEngine.mapY
    RaycastEngine.sideDistX RaycastEngine.sideDistY].
  - destruct (_ || _) eqn:Eb; [discriminate|].
    repeat (apply orb_false_iff in Eb as [Eb ?]).
    destruct (RaycastEngine.map_at _ _ _) as [cell|]; [|discriminate].
    destruct (cell =? 1); [discriminate|].
    apply dda_inside; try lia; try apply wrap_int_range; try assumption.
    unfold cells_remaining.
    destruct HsX as [-> | ->], HsY as [-> | ->]; simpl in *; lia.
  - destruct (_ || _) eqn:Eb; [discriminate|].
    repeat (apply orb_false_iff in Eb as [Eb ?]).
    destruct (RaycastEngine.map_at _ _ _) as [cell|]; [|discriminate].
    destruct (cell =? 1); [discriminate|].
    apply dda_inside; try lia; try apply wrap_int_range; try assumption.
    unfold cells_remaining.
    destruct HsX as [-> | ->], HsY as [-> | ->]; simpl in *; lia.
Qed.

(** With every cell of the grid present, no read leaves the map. *)
Lemma dda_not_Undefined fuel : forall sdX sdY mX mY,
  cells_present map W H -> dda fuel sdX sdY mX mY <> Undefined.
Proof using Type.
  induction fuel as [|fuel IH]; intros sdX sdY mX mY Hmap; simpl;
    [discriminate|].
  destruct (PrimFloat.ltb sdX sdY); cbn [RaycastEngine.mapX RaycastEngine.mapY
    RaycastEngine.sideDistX RaycastEngine.sideDistY];
    (destruct (_ || _) eqn:Eb; [discriminate|];
     repeat (apply orb_false_iff in Eb as [Eb ?]);
     match goal with
     | |- context [RaycastEngine.map_at map ?y ?x] =>
         destruct (Hmap x y ltac:(lia) ltac:(lia)) as [cell ->]
     end;
     destruct (cell =? 1); [discriminate | by apply IH]).
Qed.

(** More fuel than needed changes nothing. *)
Lemma dda_fuel_mono fuel : forall fuel' sdX sdY mX mY st,
  dda fuel sdX sdY mX mY = Ok st -> (fuel <= fuel')%nat ->
  dda fuel' sdX sdY mX mY = Ok st.
Proof using Type.
  induction fuel as [|fuel IH]; intros fuel' sdX sdY mX mY st Hst Hle;
    [discriminate|].
  destruct fuel' as [|fuel']; [lia|]. simpl in *.
  destruct (PrimFloat.ltb sdX sdY); cbn [RaycastEngine.mapX RaycastEngine.mapY
    RaycastEngine.sideDistX RaycastEngine.sideDistY] in *;
    (destruct (_ || _); [assumption|];
     destruct (RaycastEngine.map_at _ _ _) as [cell|]; [|discriminate];
     destruct (cell =? 1); [assumption|];
     apply IH; [assumption | lia]).
Qed.

End DDA_facts.

(** ** castRay *)

Ltac split_steps :=
  repeat match goal with
         | |- context [if PrimFloat.ltb ?a ?b then _ else _] =>
             destruct (PrimFloat.ltb a b)
         end.

(** [castRay] leaves its loop on every input: the loop bound of the model
    is never reached. *)
Lemma castRay_fuel_enough libm map W H a px py pp :
  RaycastEngine.castRay libm map W H a px py pp <> Diverged.
Proof.
  unfold RaycastEngine.castRay, RaycastEngine.castRay_fuel, RaycastEngine.dda_bound.
  split_steps;
    match goal with
    | |- context [RaycastEngine.dda ?m ?w ?h ?dx ?dy ?sx ?sy ?f ?a1 ?a2 ?a3 ?a4] =>
        pose proof (dda_terminates m w h dx dy sx sy ltac:(lia) ltac:(lia)
                      a1 a2 a3 a4 (to_int_range _) (to_int_range _)) as Hd;
        destruct (RaycastEngine.dda m w h dx dy sx sy f a1 a2 a3 a4)
    end; simpl; try discriminate; try contradiction;
    destruct (_ =? 0); discriminate.
Qed.

(** On a map whose cells are all present, [castRay] returns a hit. *)
Lemma castRay_Ok libm map W H a px py pp :
  cells_present map W H ->
  exists hit, RaycastEngine.castRay libm map W H a px py pp = Ok hit.
Proof.
  intros Hmap.
  pose proof (castRay_fuel_enough libm map W H a px py pp) as Hfuel.
  revert Hfuel.
  unfold RaycastEngine.castRay, RaycastEngine.castRay_fuel, RaycastEngine.dda_bound.
  split_steps;
    match goal with
    | |- context [RaycastEngine.dda ?m ?w ?h ?dx ?dy ?sx ?sy ?f ?a1 ?a2 ?a3 ?a4] =>
        pose proof (dda_not_Undefined m w h dx dy sx sy f a1 a2 a3 a4 Hmap) as Hu;
        pose proof (dda_not_Throw m w h dx dy sx sy f a1 a2 a3 a4) as Ht;
        destruct (RaycastEngine.dda m w h dx dy sx sy f a1 a2 a3 a4) as [st|what| |]
    end; simpl; intros Hfuel;
    try contradiction; try (exfalso; by eapply Ht);
    destruct (_ =? 0); eauto.
Qed.

(** ** getWallColor *)

Lemma getWallColor_in_table (wallType intensity : Z) :
  0 <= wallType < 6 ->
  exists c0 c1 c2,
    RaycastEngine.baseColors !! Z.to_nat wallType = Some (c0, c1, c2) /\
    RaycastEngine.getWallColor wallType intensity =
      Ok (CInt.wrap_uint8 (CInt.int_div (c0 * intensity) 255),
          CInt.wrap_uint8 (CInt.int_div (c1 * intensity) 255),
          CInt.wrap_uint8 (CInt.int_div (c2 * intensity) 255)).
Proof.
  intros Hwt.
  assert (wallType = 0 \/ wallType = 1 \/ wallType = 2 \/ wallType = 3
          \/ wallType = 4 \/ wallType = 5) as Hcases by lia.
  destruct Hcases as [-> | [-> | [-> | [-> | [-> | ->]]]]];
    do 3 eexists; (split; [reflexivity | reflexivity]).
Qed.

Lemma getWallColor_outside (wallType intensity : Z) :
  ~ (0 <= wallType < 6) ->
  RaycastEngine.getWallColor wallType intensity =
    Ok (intensity, intensity, intensity).
Proof.
  intros Hwt. unfold RaycastEngine.getWallColor.
  destruct (_ && _) eqn:E; [|reflexivity].
  apply andb_true_iff in E as [E1 E2]. lia.
Qed.

Lemma getWallColor_Ok (wallType intensity : Z) :
  exists rgb, RaycastEngine.getWallColor wallType intensity = Ok rgb.
Proof.
  destruct (decide (0 <= wallType < 6)) as [Hin|Hout].
  - destruct (getWallColor_in_table wallType intensity Hin)
      as (c0 & c1 & c2 & _ & ->). eauto.
  - rewrite getWallColor_outside by assumption. eauto.
Qed.

(** ** renderColumns *)

Lemma renderColumn_Ok libm request x :
  cells_present (map request) (mapWidth request) (mapHeight request) ->
  exists res, RaycastEngine.renderColumn libm request x = Ok res /\ column res = x.
Proof.
  intros Hmap. unfold RaycastEngine.renderColumn.
  match goal with
  | |- context [RaycastEngine.castRay ?l ?m ?w ?h ?a ?px ?py ?pp] =>
      destruct (castRay_Ok l m w h a px py pp Hmap) as [hit ->]
  end.
  simpl.
  match goal with
  | |- context [RaycastEngine.getWallColor ?t ?i] =>
      destruct (getWallColor_Ok t i) as [[[cr cg] cb] ->]
  end.
  simpl. eauto.
Qed.

Lemma renderLoop_Ok libm request n : forall x results,
  cells_present (map request) (mapWidth request) (mapHeight request) ->
  exists added,
    RaycastEngine.renderLoop libm request n x results = Ok (results ++ added) /\
    length added = n /\
    column <$> added = seqZ x (Z.of_nat n).
Proof.
  induction n as [|n IH]; intros x results Hmap.
  - exists []. simpl. rewrite app_nil_r. auto.
  - cbn [RaycastEngine.renderLoop].
    destruct (renderColumn_Ok libm request x Hmap) as (res & -> & Hcol).
    simpl.
    destruct (IH (x + 1) (results ++ [res]) Hmap) as (added & -> & Hlen & Hcols).
    exists (res :: added). split; [by rewrite <- app_assoc|].
    split; [simpl; by rewrite Hlen|].
    rewrite fmap_cons, Hcol, Hcols, Nat2Z.inj_succ.
    rewrite (seqZ_cons x) by lia. f_equal. f_equal; lia.
Qed.

(** C1.  For every render job with 0 <= startColumn < endColumn <=
    screenWidth (an [int]) on a map whose cells are all present,
    [renderColumns] returns exactly endColumn - startColumn results, and the
    [column] fields are startColumn, startColumn + 1, ... in this order. *)
Theorem renderColumns_covers_range libm request :
  0 <= startColumn request < endColumn request ->
  endColumn request <= screenWidth request ->
  screenWidth request <= CInt.INT_MAX ->
  cells_present (map request) (mapWidth request) (mapHeight request) ->
  exists results,
    RaycastEngine.renderColumns libm request = Ok results /\
    Z.of_nat (length results) = endColumn request - startColumn request /\
    column <$> results
      = seqZ (startColumn request) (endColumn request - startColumn request) /\
    (forall i res, results !! i = Some res ->
       column res = startColumn request + Z.of_nat i).
Proof.
  intros Hse Hew Hw Hmap. unfold RaycastEngine.renderColumns.
  rewrite wrap_int_id
    by (unfold CInt.in_int, CInt.INT_MIN, CInt.INT_MAX in *; lia).
  destruct (Z.ltb_spec (endColumn request - startColumn request) 0); [lia|].
  destruct (renderLoop_Ok libm request
              (Z.to_nat (endColumn request - startColumn request))
              (startColumn request) [] Hmap) as (results & -> & Hlen & Hcols).
  rewrite Z2Nat.id in Hcols by lia.
  exists results. simpl. repeat split; [lia | assumption |].
  intros i res Hi.
  assert (Hc : (column <$> results) !! i = Some (column res))
    by (by rewrite list_lookup_fmap, Hi).
  rewrite Hcols in Hc. apply lookup_seqZ in Hc. lia.
Qed.

Lemma renderColumns_covers_range_witness :
  exists results,
    RaycastEngine.renderColumns Sample.libm Sample.job = Ok results /\
    Z.of_nat (length results) = 8 /\
    column <$> results = seqZ 0 8 /\
    (forall i res, results !! i = Some res -> column res = 0 + Z.of_nat i).
Proof.
  apply (renderColumns_covers_range Sample.libm Sample.job).
  - simpl. lia.
  - simpl. lia.
  - vm_compute. discriminate.
  - apply grid_cells_present. split; [reflexivity|].
    repeat constructor.
Defined.

(** ** The wall type *)

(** The remainder of the C++ [%] keeps the sign of the sum of the cell
    coordinates: the wall type of a hit lies strictly between -6 and 6. *)
Lemma castRay_wallType_bound libm map W H a px py pp hit :
  RaycastEngine.castRay libm map W H a px py pp = Ok hit ->
  -6 < RaycastEngine.hit_wallType hit < 6.
Proof.
  unfold RaycastEngine.castRay, RaycastEngine.castRay_fuel.
  split_steps;
    (destruct (RaycastEngine.dda _ _ _ _ _ _ _ _ _ _ _ _) as [st| | |];
     simpl; try discriminate;
     destruct (_ =? 0); intros [= <-]; simpl; unfold CInt.int_rem;
     match goal with
     | |- context [Z.rem ?s 6] =>
         pose proof (Z.rem_bound_abs s 6 ltac:(lia)); lia
     end).
Qed.

(** C2.  On the 2 x 2 map without walls, a ray cast from (0.5, 0.5) at the
    angle pi leaves the map through its negative-x side: the march stops in
    the cell (-1, 0) and [castRay] reports the wall type (-1 + 0) % 6 = -1,
    which is outside [0, 6). *)
Theorem castRay_wallType_negative :
  RaycastEngine.hit_wallType <$>
    RaycastEngine.castRay Sample.libm Sample.open_map 2 2 Sample.PI 0.5 0.5 0
  = Ok (-1).
Proof. vm_compute. reflexivity. Qed.

(** ** calculateIntensity *)

Lemma calculateIntensity_floor (distance : float) :
  50 <= RaycastEngine.calculateIntensity distance <= 255.
Proof.
  unfold RaycastEngine.calculateIntensity, Double.to_uint8.
  match goal with |- context [CInt.wrap_uint8 ?z] =>
    pose proof (wrap_uint8_range z) end.
  lia.
Qed.

(** When the conversion is defined, the intensity is the integer part of
    255 (1 - distance / 800), raised to 50. *)
Lemma calculateIntensity_when_defined (distance : float) :
  RaycastEngine.calculateIntensity_defined distance = true ->
  exists z,
    Double.trunc (PrimFloat.mul 255
      (PrimFloat.sub 1 (PrimFloat.div distance RaycastEngine.MAX_DISTANCE))) = Some z /\
    0 <= z <= 255 /\
    RaycastEngine.calculateIntensity distance = Z.max z 50.
Proof.
  unfold RaycastEngine.calculateIntensity_defined, RaycastEngine.calculateIntensity,
    Double.to_uint8_defined, Double.to_uint8, Double.to_int.
  destruct (Double.trunc _) as [z|]; [|discriminate].
  intros E. apply andb_true_iff in E as [E1 E2].
  exists z. split; [reflexivity|]. split; [lia|].
  destruct (_ && _) eqn:E3.
  - unfold CInt.wrap_uint8. rewrite Z.mod_small by lia. reflexivity.
  - apply andb_false_iff in E3. unfold CInt.INT_MIN, CInt.INT_MAX in E3. lia.
Qed.

(** C4.  At the distance 900 the double 255 * (1 - 900/800) is -31.875; its
    conversion to uint8_t is not defined by the language, and the x86-64
    build yields the low byte of -31, which is 225.  The intensity at 900 is
    therefore 225, above the intensity 50 at the distance 800 and different
    from max(50, -31.875) = 50. *)
Theorem calculateIntensity_beyond_MAX_DISTANCE :
  RaycastEngine.calculateIntensity 800 = 50 /\
  RaycastEngine.calculateIntensity 900 = 225 /\
  RaycastEngine.calculateIntensity_defined 900 = false /\
  Double.trunc
    (PrimFloat.mul 255 (PrimFloat.sub 1 (PrimFloat.div 900 RaycastEngine.MAX_DISTANCE)))
  = Some (-31).
Proof. vm_compute. repeat split; reflexivity. Qed.

(** C10.  [getWallColor] returns a colour for every integer wall type: it
    never reads outside the table.  Outside [0, 6) the colour is the grey
    (intensity, intensity, intensity); inside, it is the table row scaled by
    intensity / 255. *)
Theorem getWallColor_total (wallType intensity : Z) :
  (exists rgb, RaycastEngine.getWallColor wallType intensity = Ok rgb) /\
  (~ (0 <= wallType < 6) ->
     RaycastEngine.getWallColor wallType intensity
       = Ok (intensity, intensity, intensity)) /\
  (0 <= wallType < 6 ->
     exists c0 c1 c2,
       RaycastEngine.baseColors !! Z.to_nat wallType = Some (c0, c1, c2) /\
       RaycastEngine.getWallColor wallType intensity =
         Ok (CInt.wrap_uint8 (CInt.int_div (c0 * intensity) 255),
             CInt.wrap_uint8 (CInt.int_div (c1 * intensity) 255),
             CInt.wrap_uint8 (CInt.int_div (c2 * intensity) 255))).
Proof.
  split; [apply getWallColor_Ok|].
  split; [apply getWallColor_outside | apply getWallColor_in_table].
Qed.

Lemma getWallColor_total_witness :
  RaycastEngine.getWallColor (-1) 200 = Ok (200, 200, 200) /\
  RaycastEngine.getWallColor 7 200 = Ok (200, 200, 200).
Proof.
  split.
  - apply (proj1 (proj2 (getWallColor_total (-1) 200))). lia.
  - apply (proj1 (proj2 (getWallColor_total 7 200))). lia.
Defined.

(** ** The worker service *)

Lemma worker_new_consistent workerId nowMs :
  worker_consistent (Worker.new workerId nowMs).
Proof. split; [reflexivity | vm_compute; split; discriminate]. Qed.

Lemma worker_ProcessRenderRequest_consistent libm clock svc request response
    status response' svc' :
  Worker.ProcessRenderRequest libm clock svc request response
    = Ok (status, response', svc') ->
  worker_consistent svc'.
Proof.
  unfold Worker.ProcessRenderRequest.
  destruct (Worker.try_block _ _ _ _) as [[resp svc2]|what| |] eqn:E;
    intros [= <- <- <-]; (split; [reflexivity | apply wrap_int_range]).
Qed.

(** C9.  When the [try] block of the worker's [ProcessRenderRequest] throws,
    the call returns INTERNAL and leaves the increment made on entry in
    place: [GetWorkerStatus] then reports the active-job counter
    incremented (one greater than before the call, short of [INT_MAX]) and
    the status string "busy". *)
Theorem failed_render_leaks_active_job libm clock svc request response what :
  Worker.try_block libm clock (Worker.enter svc) request = Throw what ->
  exists status svc',
    Worker.ProcessRenderRequest libm clock svc request response
      = Ok (status, response, svc') /\
    error_code status = INTERNAL /\
    Worker.activeJobs_ svc' = CInt.wrap_int (Worker.activeJobs_ svc + 1) /\
    ws_active_jobs (Worker.GetWorkerStatus svc').2
      = CInt.wrap_int (Worker.activeJobs_ svc + 1) /\
    ws_status (Worker.GetWorkerStatus svc').2 = "busy" /\
    (worker_consistent svc -> Worker.activeJobs_ svc < CInt.INT_MAX ->
       ws_active_jobs (Worker.GetWorkerStatus svc').2
         = ws_active_jobs (Worker.GetWorkerStatus svc).2 + 1).
Proof.
  intros Hthrow. unfold Worker.ProcessRenderRequest. rewrite Hthrow.
  eexists _, _. split; [reflexivity|]. simpl.
  repeat split.
  intros [Heq Hin] Hmax. rewrite Heq. apply wrap_int_id.
  unfold CInt.in_int, CInt.INT_MIN, CInt.INT_MAX in *. lia.
Qed.

Lemma failed_render_leaks_active_job_witness :
  exists status svc',
    Worker.ProcessRenderRequest Sample.libm Sample.clock (Worker.new 1 0)
        Sample.backwards_request empty_RenderResponse
      = Ok (status, empty_RenderResponse, svc') /\
    error_code status = INTERNAL /\
    Worker.activeJobs_ svc' = CInt.wrap_int (Worker.activeJobs_ (Worker.new 1 0) + 1) /\
    ws_active_jobs (Worker.GetWorkerStatus svc').2
      = CInt.wrap_int (Worker.activeJobs_ (Worker.new 1 0) + 1) /\
    ws_status (Worker.GetWorkerStatus svc').2 = "busy" /\
    (worker_consistent (Worker.new 1 0) ->
     Worker.activeJobs_ (Worker.new 1 0) < CInt.INT_MAX ->
       ws_active_jobs (Worker.GetWorkerStatus svc').2
         = ws_active_jobs (Worker.GetWorkerStatus (Worker.new 1 0)).2 + 1).
Proof.
  apply (failed_render_leaks_active_job Sample.libm Sample.clock (Worker.new 1 0)
           Sample.backwards_request empty_RenderResponse "vector::reserve").
  reflexivity.
Defined.

(** A request that is served leaves the counter as it found it. *)
Lemma served_render_restores_active_jobs libm clock svc request response
    response' svc2 :
  Worker.try_block libm clock (Worker.enter svc) request = Ok (response', svc2) ->
  CInt.in_int (Worker.activeJobs_ svc) ->
  Worker.activeJobs_ svc < CInt.INT_MAX ->
  exists svc',
    Worker.ProcessRenderRequest libm clock svc request response
      = Ok (Status_OK, response', svc') /\
    Worker.activeJobs_ svc' = Worker.activeJobs_ svc.
Proof.
  intros Htry Hin Hmax. unfold Worker.ProcessRenderRequest. rewrite Htry.
  eexists. split; [reflexivity|].
  unfold Worker.try_block in Htry.
  destruct (Worker.convert_request request) as [ir| | |]; simpl in Htry;
    try discriminate.
  destruct (RaycastEngine.renderColumns libm ir) as [rs| | |]; simpl in Htry;
    try discriminate.
  injection Htry as <- <-. simpl.
  unfold CInt.in_int, CInt.INT_MIN, CInt.INT_MAX in *.
  rewrite (wrap_int_id (Worker.activeJobs_ svc + 1))
    by (unfold CInt.in_int, CInt.INT_MIN, CInt.INT_MAX; lia).
  replace (Worker.activeJobs_ svc + 1 - 1) with (Worker.activeJobs_ svc) by lia.
  apply wrap_int_id. unfold CInt.in_int, CInt.INT_MIN, CInt.INT_MAX. lia.
Qed.

(** ** WorkerConnection: health checks *)

Section HealthCheck.
Import WorkerConnection.

(** A health check never touches the endpoint, the stub or the job
    counters of the connection. *)
Lemma PerformHealthCheck_frame c w :
  let c' := (PerformHealthCheck c w).1.2 in
  endpoint_ c' = endpoint_ c /\ stub_ c' = stub_ c /\
  active_jobs_ c' = active_jobs_ c /\
  total_jobs_processed_ c' = total_jobs_processed_ c /\
  total_processing_time_ms_ c' = total_processing_time_ms_ c.
Proof.
  unfold PerformHealthCheck.
  destruct (stub_ c) eqn:Es; simpl; [|by rewrite Es].
  destruct (status_rpc w (endpoint_ c) (now w)); simpl; by rewrite Es.
Qed.

Lemma IsHealthy_frame c w :
  let c' := (IsHealthy c w).1.2 in
  endpoint_ c' = endpoint_ c /\ stub_ c' = stub_ c /\
  active_jobs_ c' = active_jobs_ c /\
  total_jobs_processed_ c' = total_jobs_processed_ c /\
  total_processing_time_ms_ c' = total_processing_time_ms_ c.
Proof.
  unfold IsHealthy. destruct (_ >? _); [apply PerformHealthCheck_frame|].
  simpl. auto.
Qed.

(** The result of a health check is the health flag it stores. *)
Lemma PerformHealthCheck_result c w :
  is_healthy_ (PerformHealthCheck c w).1.2 = (PerformHealthCheck c w).1.1.
Proof.
  unfold PerformHealthCheck. destruct (stub_ c); simpl; [|reflexivity].
  destruct (status_rpc w (endpoint_ c) (now w)); reflexivity.
Qed.

Lemma IsHealthy_result c w :
  is_healthy_ (IsHealthy c w).1.2 = (IsHealthy c w).1.1.
Proof.
  unfold IsHealthy. destruct (_ >? _); [apply PerformHealthCheck_result|].
  reflexivity.
Qed.

End HealthCheck.

(** C5 as stated fails.  A connection built while no channel can be created
    has no stub; a health check made five seconds later leaves its
    timestamp at the construction time 0.  A connection whose status call
    raises keeps its old timestamp as well. *)
Lemma PerformHealthCheck_stale_timestamp :
  let c := (WorkerConnection.new "worker-a:50051" (Sample.unreachable 0)).1 in
  let w := Sample.unreachable 5000000000 in
  let d := (WorkerConnection.new "worker-a:50051" (Sample.all_up 0)).1 in
  let v := Sample.raising 5000000000 in
  (WorkerConnection.stub_ c = false /\
   WorkerConnection.last_health_check_ (WorkerConnection.PerformHealthCheck c w).1.2 = 0 /\
   now (WorkerConnection.PerformHealthCheck c w).2 = 5000000000) /\
  (WorkerConnection.stub_ d = true /\
   WorkerConnection.last_health_check_ (WorkerConnection.PerformHealthCheck d v).1.2
     = 1000000 /\
   now (WorkerConnection.PerformHealthCheck d v).2 = 5001000000).
Proof. vm_compute. repeat split; reflexivity. Qed.

(** C5, amended.  [PerformHealthCheck] stores its result in the health flag
    in every case: the status's [ok()] when the status call returns, and
    [false] when there is no stub or the call raises.  It sets the
    timestamp to the clock reading taken after the call exactly when the
    call returns (with an OK or a non-OK status); without a stub or after an
    exception the timestamp keeps its value. *)
Theorem PerformHealthCheck_flag_and_timestamp c w res c' w' :
  WorkerConnection.PerformHealthCheck c w = (res, c', w') ->
  WorkerConnection.is_healthy_ c' = res /\
  (WorkerConnection.stub_ c = false ->
     res = false /\ w' = w /\
     WorkerConnection.last_health_check_ c' = WorkerConnection.last_health_check_ c) /\
  (WorkerConnection.stub_ c = true ->
     forall st response,
       status_rpc w (WorkerConnection.endpoint_ c) (now w) = Returned st response ->
       res = ok st /\ WorkerConnection.last_health_check_ c' = now w') /\
  (WorkerConnection.stub_ c = true ->
     forall what,
       status_rpc w (WorkerConnection.endpoint_ c) (now w) = Raised what ->
       res = false /\
       WorkerConnection.last_health_check_ c' = WorkerConnection.last_health_check_ c).
Proof.
  unfold WorkerConnection.PerformHealthCheck.
  destruct (WorkerConnection.stub_ c) eqn:Es; simpl.
  - destruct (status_rpc w (WorkerConnection.endpoint_ c) (now w)) as [st r|what];
      intros [= <- <- <-]; simpl; repeat split; try discriminate;
      intros; simplify_eq; auto.
  - intros [= <- <- <-]. simpl. repeat split; discriminate.
Qed.

Lemma PerformHealthCheck_flag_and_timestamp_witness :
  let c := (WorkerConnection.new "worker-a:50051" (Sample.all_up 0)).1 in
  let w := Sample.all_down 40000000000 in
  let c' := (WorkerConnection.PerformHealthCheck c w).1.2 in
  WorkerConnection.is_healthy_ c' = false /\
  WorkerConnection.last_health_check_ c' = 40001000000.
Proof.
  pose proof (PerformHealthCheck_flag_and_timestamp
                (WorkerConnection.new "worker-a:50051" (Sample.all_up 0)).1
                (Sample.all_down 40000000000) _ _ _ eq_refl) as (Hflag & _ & Hret & _).
  specialize (Hret eq_refl _ _ eq_refl) as [Hres Hts].
  split; [exact Hflag | exact Hts].
Defined.

(** ** WorkerPool: membership *)

Section Membership.
Import WorkerConnection WorkerPool.

Lemma IsHealthy_endpoint c w : endpoint_ (IsHealthy c w).1.2 = endpoint_ c.
Proof. apply IsHealthy_frame. Qed.

Lemma check_all_endpoints ws : forall w,
  endpoint_ <$> (check_all ws w).1.2 = endpoint_ <$> ws.
Proof.
  induction ws as [|c ws IH]; intros w; [reflexivity|]. cbn [check_all].
  pose proof (IsHealthy_endpoint c w) as Hc.
  destruct (IsHealthy c w) as [[h c'] w1].
  specialize (IH w1). destruct (check_all ws w1) as [[hs ws'] w2].
  cbn [fst snd] in *. by rewrite !fmap_cons, Hc, IH.
Qed.

Lemma worker_infos_endpoints ws : forall w,
  endpoint_ <$> (worker_infos ws w).1.2 = endpoint_ <$> ws.
Proof.
  induction ws as [|c ws IH]; intros w; [reflexivity|]. cbn [worker_infos].
  pose proof (IsHealthy_endpoint c w) as Hc.
  destruct (IsHealthy c w) as [[h c'] w1].
  specialize (IH w1). destruct (worker_infos ws w1) as [[infos ws'] w2].
  cbn [fst snd] in *. by rewrite !fmap_cons, Hc, IH.
Qed.

Lemma new_endpoint e w : endpoint_ (WorkerConnection.new e w).1 = e.
Proof.
  unfold WorkerConnection.new, Connect. destruct (connect w _); simpl.
  - match goal with |- context [PerformHealthCheck ?c ?v] =>
      pose proof (PerformHealthCheck_frame c v) as (He & _);
      destruct (PerformHealthCheck c v) as [[res c'] w'] end.
    simpl in *. exact He.
  - reflexivity.
Qed.

(** Adding never removes: the endpoints afterwards are the endpoints
    before, followed by [e] when a connection was added. *)
Lemma try_add_endpoints e ws w :
  endpoint_ <$> (try_add e ws w).1 = endpoint_ <$> ws \/
  endpoint_ <$> (try_add e ws w).1 = (endpoint_ <$> ws) ++ [e].
Proof.
  unfold try_add. destruct (has_endpoint e ws); [by left|].
  pose proof (new_endpoint e w) as Hn.
  destruct (WorkerConnection.new e w) as [worker w1].
  pose proof (IsHealthy_endpoint worker w1) as Hh.
  destruct (IsHealthy worker w1) as [[healthy worker'] w2].
  destruct healthy; simpl in *; [right | by left].
  rewrite fmap_app. simpl. by rewrite Hh, Hn.
Qed.

Lemma add_new_endpoints es : forall ws w,
  exists added,
    endpoint_ <$> (add_new es ws w).1 = (endpoint_ <$> ws) ++ added /\
    forall e, e ∈ added -> e ∈ es.
Proof.
  induction es as [|e es IH]; intros ws w; simpl.
  - exists []. split; [by rewrite app_nil_r | by intros e He].
  - pose proof (try_add_endpoints e ws w) as Ht.
    destruct (try_add e ws w) as [ws' w']. simpl in Ht.
    destruct (IH ws' w') as (added & Hadd & Hsub).
    destruct Ht as [Ht | Ht]; rewrite Ht in Hadd.
    + exists added. split; [exact Hadd|]. intros x Hx. right. by apply Hsub.
    + exists (e :: added). split; [by rewrite Hadd, <- app_assoc|].
      intros x Hx. apply elem_of_cons in Hx as [-> | Hx];
        [left | right; by apply Hsub].
Qed.

(** Discovery keeps a connection exactly when its endpoint is among the
    resolved endpoints. *)
Lemma discover_keeps es p w e :
  e ∈ endpoints p -> (e ∈ endpoints (discover es p w).1 <-> e ∈ es).
Proof.
  intros He. unfold discover, endpoints in *.
  destruct (add_new_endpoints es
              (filter (fun c => GetEndpoint c ∈ es) (workers_ p)) w)
    as (added & Hadd & Hsub).
  destruct (add_new es _ w) as [ws w']. simpl in *. rewrite Hadd.
  rewrite elem_of_app, list_elem_of_fmap. split.
  - intros [(c & -> & Hc) | Hin]; [|by apply Hsub].
    by apply list_elem_of_filter in Hc as [Hc _].
  - intros Hes. left.
    apply list_elem_of_fmap in He as (c & -> & Hc).
    exists c. split; [reflexivity|]. by apply list_elem_of_filter.
Qed.

Lemma RemoveWorker_endpoints e p e' :
  e' ∈ endpoints (RemoveWorker e p) <-> e' ∈ endpoints p /\ e' <> e.
Proof.
  unfold RemoveWorker, endpoints, GetEndpoint. simpl.
  rewrite !list_elem_of_fmap. split.
  - intros (c & -> & Hc). apply list_elem_of_filter in Hc as [Hne Hc].
    split; [eauto|]. intros Heq.
    apply negb_true_iff in Hne. apply String.eqb_neq in Hne. contradiction.
  - intros [(c & -> & Hc) Hne]. exists c. split; [reflexivity|].
    apply list_elem_of_filter. split; [|assumption].
    apply negb_true_iff. by apply String.eqb_neq.
Qed.

Lemma AddWorker_endpoints e p w e' :
  e' ∈ endpoints p -> e' ∈ endpoints (AddWorker e p w).1.
Proof.
  unfold AddWorker, endpoints.
  pose proof (try_add_endpoints e (workers_ p) w) as Ht.
  destruct (try_add e (workers_ p) w) as [ws w']. simpl in *.
  destruct Ht as [-> | ->]; [done|]. intros He. apply elem_of_app. by left.
Qed.

(** A method that keeps the endpoint, called through a pointer, keeps the
    pool's endpoints and touches no other connection. *)
Lemma call_at_membership method i p w :
  (forall c v, endpoint_ (method c v).1.2 = endpoint_ c) ->
  let p' := (call_at method i p w).1 in
  endpoints p' = endpoints p /\
  length (workers_ p') = length (workers_ p) /\
  (forall j, j <> i -> workers_ p' !! j = workers_ p !! j) /\
  (forall c, workers_ p !! i = Some c ->
     workers_ p' !! i = Some (method c w).1.2).
Proof.
  intros Hm. unfold call_at, endpoints.
  destruct (workers_ p !! i) as [c|] eqn:Ec.
  - specialize (Hm c w). destruct (method c w) as [[res c'] w'] eqn:Em.
    simpl in *.
    split.
    { rewrite list_fmap_insert, Hm. apply list_insert_id.
      by rewrite list_lookup_fmap, Ec. }
    split; [apply length_insert|].
    split; [intros j Hj; by apply list_lookup_insert_ne|].
    intros ? [= <-]. rewrite Em. apply list_lookup_insert_eq.
    by eapply lookup_lt_Some.
  - simpl. repeat split; auto. intros ? [=].
Qed.

End Membership.

(** C6.  A health check, however it is triggered, leaves the membership of
    the pool as it is: [PerformHealthCheck] or [IsHealthy] on the connection
    at any position, and the scans [GetHealthyWorkers], [GetActiveWorkers]
    and [GetWorkerInfo], keep the list of endpoints; the probed connection
    keeps its endpoint, stub and job counters, and no other connection is
    touched.  A member leaves the pool only when discovery does not find its
    endpoint among the resolved ones, or through [RemoveWorker] of its
    endpoint; [AddWorker] removes nobody. *)
Theorem health_check_keeps_membership p w :
  (forall i method,
     method = WorkerConnection.PerformHealthCheck \/
     method = WorkerConnection.IsHealthy ->
     let p' := (call_at method i p w).1 in
     WorkerPool.endpoints p' = WorkerPool.endpoints p /\
     length (WorkerPool.workers_ p') = length (WorkerPool.workers_ p) /\
     (forall j, j <> i ->
        WorkerPool.workers_ p' !! j = WorkerPool.workers_ p !! j) /\
     (forall c c', WorkerPool.workers_ p !! i = Some c ->
        WorkerPool.workers_ p' !! i = Some c' ->
        WorkerConnection.endpoint_ c' = WorkerConnection.endpoint_ c /\
        WorkerConnection.stub_ c' = WorkerConnection.stub_ c /\
        WorkerConnection.active_jobs_ c' = WorkerConnection.active_jobs_ c /\
        WorkerConnection.total_jobs_processed_ c'
          = WorkerConnection.total_jobs_processed_ c /\
        WorkerConnection.total_processing_time_ms_ c'
          = WorkerConnection.total_processing_time_ms_ c)) /\
  WorkerPool.endpoints (WorkerPool.GetHealthyWorkers p w).1.2
    = WorkerPool.endpoints p /\
  WorkerPool.endpoints (WorkerPool.GetActiveWorkers p w).1.2
    = WorkerPool.endpoints p /\
  WorkerPool.endpoints (WorkerPool.GetWorkerInfo p w).1.2
    = WorkerPool.endpoints p /\
  (forall es e, e ∈ WorkerPool.endpoints p ->
     (e ∈ WorkerPool.endpoints (WorkerPool.discover es p w).1 <-> e ∈ es)) /\
  (forall e e', e' ∈ WorkerPool.endpoints (WorkerPool.RemoveWorker e p)
     <-> e' ∈ WorkerPool.endpoints p /\ e' <> e) /\
  (forall e e', e' ∈ WorkerPool.endpoints p ->
     e' ∈ WorkerPool.endpoints (WorkerPool.AddWorker e p w).1).
Proof.
  split.
  { intros i method Hmethod. cbv zeta.
    assert (Hframe : forall c v,
      WorkerConnection.endpoint_ (method c v).1.2 = WorkerConnection.endpoint_ c /\
      WorkerConnection.stub_ (method c v).1.2 = WorkerConnection.stub_ c /\
      WorkerConnection.active_jobs_ (method c v).1.2
        = WorkerConnection.active_jobs_ c /\
      WorkerConnection.total_jobs_processed_ (method c v).1.2
        = WorkerConnection.total_jobs_processed_ c /\
      WorkerConnection.total_processing_time_ms_ (method c v).1.2
        = WorkerConnection.total_processing_time_ms_ c).
    { intros c v. destruct Hmethod as [-> | ->];
        [apply PerformHealthCheck_frame | apply IsHealthy_frame]. }
    destruct (call_at_membership method i p w (fun c v => proj1 (Hframe c v)))
      as (He & Hl & Hother & Hsame).
    split; [exact He|]. split; [exact Hl|]. split; [exact Hother|].
    intros c c' Hc Hc'. rewrite (Hsame c Hc) in Hc'.
    injection Hc' as <-. apply Hframe. }
  split.
  { unfold WorkerPool.GetHealthyWorkers, WorkerPool.endpoints.
    pose proof (check_all_endpoints (WorkerPool.workers_ p) w) as H.
    destruct (WorkerPool.check_all _ w) as [[hs ws] w']. exact H. }
  split.
  { unfold WorkerPool.GetActiveWorkers, WorkerPool.endpoints.
    pose proof (check_all_endpoints (WorkerPool.workers_ p) w) as H.
    destruct (WorkerPool.check_all _ w) as [[hs ws] w']. exact H. }
  split.
  { unfold WorkerPool.GetWorkerInfo, WorkerPool.endpoints.
    pose proof (worker_infos_endpoints (WorkerPool.workers_ p) w) as H.
    destruct (WorkerPool.worker_infos _ w) as [[infos ws] w']. exact H. }
  split; [intros es e; apply discover_keeps|].
  split; [intros e e'; apply RemoveWorker_endpoints|].
  intros e e'; apply AddWorker_endpoints.
Qed.

Lemma health_check_keeps_membership_witness :
  let p' := (call_at WorkerConnection.PerformHealthCheck 1 Sample.three_workers
               (Sample.all_down 40000000000)).1 in
  WorkerPool.endpoints p' = WorkerPool.endpoints Sample.three_workers /\
  length (WorkerPool.workers_ p') = length (WorkerPool.workers_ Sample.three_workers) /\
  (forall j, j <> 1%nat ->
     WorkerPool.workers_ p' !! j = WorkerPool.workers_ Sample.three_workers !! j) /\
  (forall c c', WorkerPool.workers_ Sample.three_workers !! 1%nat = Some c ->
     WorkerPool.workers_ p' !! 1%nat = Some c' ->
     WorkerConnection.endpoint_ c' = WorkerConnection.endpoint_ c /\
     WorkerConnection.stub_ c' = WorkerConnection.stub_ c /\
     WorkerConnection.active_jobs_ c' = WorkerConnection.active_jobs_ c /\
     WorkerConnection.total_jobs_processed_ c'
       = WorkerConnection.total_jobs_processed_ c /\
     WorkerConnection.total_processing_time_ms_ c'
       = WorkerConnection.total_processing_time_ms_ c).
Proof.
  exact (proj1 (health_check_keeps_membership Sample.three_workers
                  (Sample.all_down 40000000000))
           1%nat WorkerConnection.PerformHealthCheck (or_introl eq_refl)).
Defined.

(** A failed probe of the second of three connections marks it unhealthy
    and leaves all three members in the pool. *)
Example failed_probe_keeps_three_members :
  let p' := (call_at WorkerConnection.PerformHealthCheck 1 Sample.three_workers
               (Sample.all_down 40000000000)).1 in
  WorkerPool.endpoints p' = ["worker-a:50051"; "worker-b:50051"; "worker-c:50051"] /\
  WorkerConnection.is_healthy_ <$> WorkerPool.workers_ p' = [true; false; true].
Proof. vm_compute. split; reflexivity. Qed.

(** ** The master's status report *)

(** C8.  [GetMasterStatus] reports the request counter, and as average
    response time the summed response time divided by that counter; the
    average is 0 when the counter is 0. *)
Theorem GetMasterStatus_average m w response :
  let report := (MasterServiceImpl.GetMasterStatus m w response).1.1.2 in
  total_requests_processed report = MasterServiceImpl.total_requests_processed_ m /\
  (MasterServiceImpl.total_requests_processed_ m = 0 ->
     average_response_time_ms report = 0%float) /\
  (0 < MasterServiceImpl.total_requests_processed_ m ->
     average_response_time_ms report =
       PrimFloat.div (MasterServiceImpl.total_response_time_ms_ m)
         (Double.of_int (MasterServiceImpl.total_requests_processed_ m))).
Proof.
  unfold MasterServiceImpl.GetMasterStatus.
  destruct (WorkerPool.RefreshWorkers _ w) as [p1 w1].
  destruct (WorkerPool.GetWorkerInfo p1 w1) as [[infos p2] w2].
  destruct (WorkerPool.GetActiveWorkers p2 w2) as [[active p3] w3].
  simpl. split; [reflexivity|]. split.
  - intros ->. reflexivity.
  - intros Hpos. destruct (Z.gtb_spec (MasterServiceImpl.total_requests_processed_ m) 0);
      [reflexivity | lia].
Qed.

(** Once the [int] counter has wrapped to a negative value the reported
    average is 0 as well. *)
Lemma GetMasterStatus_average_wrapped m w response :
  MasterServiceImpl.total_requests_processed_ m < 0 ->
  average_response_time_ms (MasterServiceImpl.GetMasterStatus m w response).1.1.2
    = 0%float.
Proof.
  unfold MasterServiceImpl.GetMasterStatus.
  destruct (WorkerPool.RefreshWorkers _ w) as [p1 w1].
  destruct (WorkerPool.GetWorkerInfo p1 w1) as [[infos p2] w2].
  destruct (WorkerPool.GetActiveWorkers p2 w2) as [[active p3] w3].
  simpl. intros Hneg.
  destruct (Z.gtb_spec (MasterServiceImpl.total_requests_processed_ m) 0);
    [lia | reflexivity].
Qed.

Lemma GetMasterStatus_average_witness :
  average_response_time_ms
    (MasterServiceImpl.GetMasterStatus Sample.lonely_master (Sample.all_down 2000000000)
       empty_MasterStatus).1.1.2 = 0%float /\
  average_response_time_ms
    (MasterServiceImpl.GetMasterStatus Sample.busy_master (Sample.all_up 2000000000)
       empty_MasterStatus).1.1.2 = 3.5%float.
Proof.
  split.
  - apply (proj1 (proj2 (GetMasterStatus_average Sample.lonely_master
                           (Sample.all_down 2000000000) empty_MasterStatus))).
    reflexivity.
  - apply (proj2 (proj2 (GetMasterStatus_average Sample.busy_master
                           (Sample.all_up 2000000000) empty_MasterStatus))).
    reflexivity.
Defined.

(** ** The master without workers *)

(** An empty healthy snapshot makes the balancer return nobody, whatever
    the strategy. *)
Lemma GetNextWorker_empty lb p w p' w' :
  WorkerPool.GetHealthyWorkers p w = ([], p', w') ->
  LoadBalancer.GetNextWorker lb p w = (Ok None, lb, p', w').
Proof. intros H. unfold LoadBalancer.GetNextWorker. by rewrite H. Qed.

(** C3.  When the balancer returns nobody, [ProcessRaycastRequest] returns
    UNAVAILABLE "No workers available" with success = false and the same
    error message in the response.  No worker is called, and the service
    and the world are left as the single balancer call left them: nothing
    is queued or tried again, and the request statistics are unchanged. *)
Theorem no_worker_fails_at_once m w request response lb2 p2 w2 :
  LoadBalancer.GetNextWorker (MasterServiceImpl.load_balancer_ m)
    (WorkerPool.RefreshWorkers (MasterServiceImpl.worker_pool_ m) w).1
    (WorkerPool.RefreshWorkers (MasterServiceImpl.worker_pool_ m) w).2
    = (Ok None, lb2, p2, w2) ->
  exists status response' m',
    MasterServiceImpl.ProcessRaycastRequest m w request response
      = (Ok (status, response', MasterServiceImpl.NotDispatched), m', w2) /\
    status = {| error_code := UNAVAILABLE; error_message := "No workers available" |} /\
    mr_success response' = false /\
    mr_error_message response' = "No workers available" /\
    mr_results response' = mr_results response /\
    m' = MasterServiceImpl.with_pool p2 lb2 m /\
    MasterServiceImpl.total_requests_processed_ m'
      = MasterServiceImpl.total_requests_processed_ m /\
    MasterServiceImpl.total_response_time_ms_ m'
      = MasterServiceImpl.total_response_time_ms_ m.
Proof.
  intros Hnone. unfold MasterServiceImpl.ProcessRaycastRequest.
  destruct (WorkerPool.RefreshWorkers _ w) as [p1 w1]. simpl in Hnone.
  rewrite Hnone. eexists _, _, _. split; [reflexivity|].
  repeat split.
Qed.

Lemma no_worker_fails_at_once_witness :
  exists status response' m',
    MasterServiceImpl.ProcessRaycastRequest Sample.lonely_master
        (Sample.all_down 2000000000) Sample.raycast_request empty_RaycastResponse
      = (Ok (status, response', MasterServiceImpl.NotDispatched), m',
         Sample.all_down 2000000000) /\
    status = {| error_code := UNAVAILABLE; error_message := "No workers available" |} /\
    mr_success response' = false /\
    mr_error_message response' = "No workers available" /\
    mr_results response' = mr_results empty_RaycastResponse /\
    m' = MasterServiceImpl.with_pool
           (MasterServiceImpl.worker_pool_ Sample.lonely_master)
           (MasterServiceImpl.load_balancer_ Sample.lonely_master)
           Sample.lonely_master /\
    MasterServiceImpl.total_requests_processed_ m'
      = MasterServiceImpl.total_requests_processed_ Sample.lonely_master /\
    MasterServiceImpl.total_response_time_ms_ m'
      = MasterServiceImpl.total_response_time_ms_ Sample.lonely_master.
Proof.
  apply (no_worker_fails_at_once Sample.lonely_master (Sample.all_down 2000000000)
           Sample.raycast_request empty_RaycastResponse).
  reflexivity.
Defined.

(** ** Round robin *)

Section RoundRobin.
Import LoadBalancer.

Lemma positions_bound hs : forall i x, x ∈ WorkerPool.positions i hs -> (i <= x)%nat.
Proof.
  induction hs as [|h hs IH]; intros i x Hx; simpl in Hx.
  - by apply elem_of_nil in Hx.
  - destruct h.
    + apply elem_of_cons in Hx as [-> | Hx]; [lia|]. apply IH in Hx. lia.
    + apply IH in Hx. lia.
Qed.

(** A snapshot names every healthy connection once. *)
Lemma positions_NoDup hs : forall i, NoDup (WorkerPool.positions i hs).
Proof.
  induction hs as [|h hs IH]; intros i; simpl; [constructor|].
  destruct h; [|apply IH]. constructor; [|apply IH].
  intros Hi. apply positions_bound in Hi. lia.
Qed.

Lemma GetHealthyWorkers_NoDup p w : NoDup (WorkerPool.GetHealthyWorkers p w).1.1.
Proof.
  unfold WorkerPool.GetHealthyWorkers.
  destruct (WorkerPool.check_all _ w) as [[hs ws] w']. apply positions_NoDup.
Qed.

Variables (workers : list nat) (stays : WorkerPool.t -> World -> Prop).
Hypothesis Hstays : snapshot_stays workers stays.
Hypothesis Hworkers : workers <> [].

Local Abbreviation N := (Z.of_nat (length workers)).

Lemma N_pos : 0 < N.
Proof using Hworkers.
  clear Hstays. destruct workers; [done | simpl; lia].
Qed.

(** One call: the worker at [index mod N], and the index incremented
    modulo 2^64. *)
Lemma SelectRoundRobin_stays lb p w :
  stays p w ->
  exists p' w',
    SelectRoundRobin lb p w =
      (Some <$> at_index workers (round_robin_index_ lb mod N),
       (fetch_add_index lb).2, p', w') /\
    stays p' w'.
Proof using Hstays Hworkers.
  intros Hpw. destruct (Hstays p w Hpw) as (p' & w' & Hsnap & Hpw').
  exists p', w'. split; [|assumption].
  unfold SelectRoundRobin. rewrite Hsnap. unfold round_robin_pick.
  destruct workers; [done | reflexivity].
Qed.

Lemma select_calls_length n : forall lb p w,
  stays p w -> length (select_round_robin_calls n lb p w) = n.
Proof using Hstays Hworkers.
  induction n as [|n IH]; intros lb p w Hpw; [reflexivity|].
  cbn [select_round_robin_calls].
  destruct (SelectRoundRobin_stays lb p w Hpw) as (p' & w' & -> & Hpw').
  simpl. by rewrite IH.
Qed.

(** The [k]-th of [n] consecutive calls reads the index [k] steps on. *)
Lemma select_calls_lookup n : forall lb p w k,
  stays p w ->
  0 <= round_robin_index_ lb < CInt.SIZE_MOD -> (k < n)%nat ->
  select_round_robin_calls n lb p w !! k =
    Some (Some <$> at_index workers
            (((round_robin_index_ lb + Z.of_nat k) mod CInt.SIZE_MOD) mod N)).
Proof using Hstays Hworkers.
  induction n as [|n IH]; intros lb p w k Hpw Hidx Hk; [lia|].
  cbn [select_round_robin_calls].
  destruct (SelectRoundRobin_stays lb p w Hpw) as (p' & w' & -> & Hpw').
  rewrite lookup_cons. destruct k as [|k].
  - rewrite Nat2Z.inj_0, Z.add_0_r, (Z.mod_small _ CInt.SIZE_MOD) by assumption.
    reflexivity.
  - assert (Hnext : 0 <= round_robin_index_ (fetch_add_index lb).2 < CInt.SIZE_MOD)
      by (apply Z.mod_pos_bound; by vm_compute).
    rewrite (IH _ p' w' k Hpw' Hnext) by lia.
    assert (E : (round_robin_index_ (fetch_add_index lb).2 + Z.of_nat k)
                  mod CInt.SIZE_MOD
                = (round_robin_index_ lb + Z.of_nat (S k)) mod CInt.SIZE_MOD).
    { cbn [fetch_add_index snd round_robin_index_]. unfold CInt.wrap_size.
      rewrite Zplus_mod_idemp_l. f_equal. lia. }
    by rewrite E.
Qed.

Lemma at_index_in_range (i : Z) :
  0 <= i < N ->
  exists x, workers !! Z.to_nat i = Some x /\ at_index workers i = Ok x.
Proof using Type.
  intros Hi. unfold at_index. destruct (Z.ltb_spec i 0); [lia|].
  destruct (workers !! Z.to_nat i) as [x|] eqn:E; [eauto|].
  apply lookup_ge_None in E. lia.
Qed.

(** Without a wrap of the index during the [N] calls, or with [N]
    dividing 2^64, the calls return the snapshot rotated by
    [index mod N]. *)
Lemma select_calls_rotate lb p w :
  stays p w ->
  0 <= round_robin_index_ lb < CInt.SIZE_MOD ->
  round_robin_index_ lb + N <= CInt.SIZE_MOD \/ (N | CInt.SIZE_MOD) ->
  select_round_robin_calls (length workers) lb p w =
    (fun i => Ok (Some i)) <$>
      rotate (Z.to_nat (round_robin_index_ lb mod N)) workers.
Proof using Hstays Hworkers.
  intros Hpw Hidx Hwrap. pose proof N_pos as HN.
  apply list_eq. intros k.
  destruct (decide (k < length workers)%nat) as [Hk|Hk].
  - rewrite select_calls_lookup by assumption.
    rewrite list_lookup_fmap, lookup_rotate_r by assumption.
    assert (Hmod : ((round_robin_index_ lb + Z.of_nat k) mod CInt.SIZE_MOD) mod N
                   = (round_robin_index_ lb + Z.of_nat k) mod N).
    { destruct Hwrap as [Hfit | Hdiv].
      - rewrite (Z.mod_small _ CInt.SIZE_MOD) by lia. reflexivity.
      - by apply Z.mod_mod_divide. }
    rewrite Hmod.
    destruct (at_index_in_range ((round_robin_index_ lb + Z.of_nat k) mod N))
      as (x & Hx & ->); [apply Z.mod_pos_bound; lia|].
    unfold rotate_nat_add.
    rewrite Z2Nat.id by (apply Z.mod_pos_bound; lia).
    rewrite Zplus_mod_idemp_l, Hx. reflexivity.
  - rewrite !lookup_ge_None_2; [reflexivity | |].
    + rewrite length_fmap, length_rotate. lia.
    + rewrite select_calls_length by assumption. lia.
Qed.

End RoundRobin.

Lemma rotate_Permutation {A} (n : nat) (l : list A) : rotate n l ≡ₚ l.
Proof. unfold rotate. by rewrite Permutation_app_comm, take_drop. Qed.

(** C7 as stated fails.  With three healthy workers and the index at the
    largest [size_t], three consecutive calls pick the positions 0, 0 and 1:
    the index wraps from 2^64 - 1 (a multiple of 3) to 0, worker 0 is
    picked twice and worker 2 not at all.  The pool and the world are the
    same before and after every call. *)
Lemma round_robin_repeats_at_wrap :
  WorkerPool.GetHealthyWorkers Sample.three_workers (Sample.all_up 2000000000)
    = ([0; 1; 2]%nat, Sample.three_workers, Sample.all_up 2000000000) /\
  select_round_robin_calls 3 Sample.last_index Sample.three_workers
      (Sample.all_up 2000000000)
    = [Ok (Some 0%nat); Ok (Some 0%nat); Ok (Some 1%nat)].
Proof. vm_compute. split; reflexivity. Qed.

(** C7, amended.  While [workers], of length N > 0, stays the healthy
    snapshot, N consecutive calls of [SelectRoundRobin] select each of the
    N workers exactly once (the calls return the snapshot, rotated by
    index mod N) for every starting index that does not wrap around 2^64
    during the calls, and for every starting index when N divides 2^64. *)
Theorem round_robin_visits_each_once workers stays lb p w :
  snapshot_stays workers stays -> stays p w ->
  workers <> [] ->
  0 <= LoadBalancer.round_robin_index_ lb < CInt.SIZE_MOD ->
  LoadBalancer.round_robin_index_ lb + Z.of_nat (length workers) <= CInt.SIZE_MOD
    \/ (Z.of_nat (length workers) | CInt.SIZE_MOD) ->
  NoDup workers /\
  select_round_robin_calls (length workers) lb p w
    ≡ₚ (fun i => Ok (Some i)) <$> workers /\
  select_round_robin_calls (length workers) lb p w
    = (fun i => Ok (Some i)) <$>
        rotate (Z.to_nat (LoadBalancer.round_robin_index_ lb
                            mod Z.of_nat (length workers))) workers.
Proof.
  intros Hstays Hpw Hne Hidx Hwrap.
  pose proof (select_calls_rotate workers stays Hstays Hne lb p w Hpw Hidx Hwrap)
    as Hrot.
  split.
  { destruct (Hstays p w Hpw) as (p' & w' & Hsnap & _).
    pose proof (GetHealthyWorkers_NoDup p w) as Hnd. by rewrite Hsnap in Hnd. }
  split; [|exact Hrot].
  rewrite Hrot. apply fmap_Permutation, rotate_Permutation.
Qed.

Lemma round_robin_visits_each_once_witness :
  NoDup [0; 1; 2]%nat /\
  select_round_robin_calls 3 (LoadBalancer.new ROUND_ROBIN) Sample.three_workers
      (Sample.all_up 2000000000)
    ≡ₚ (fun i => Ok (Some i)) <$> [0; 1; 2]%nat /\
  select_round_robin_calls 3 (LoadBalancer.new ROUND_ROBIN) Sample.three_workers
      (Sample.all_up 2000000000)
    = (fun i => Ok (Some i)) <$> rotate (Z.to_nat (0 mod 3)) [0; 1; 2]%nat.
Proof.
  apply (round_robin_visits_each_once [0; 1; 2]%nat
           (fun p w => p = Sample.three_workers /\ w = Sample.all_up 2000000000)
           (LoadBalancer.new ROUND_ROBIN)
           Sample.three_workers (Sample.all_up 2000000000)).
  - intros p w [-> ->]. eexists _, _. split; [reflexivity | split; reflexivity].
  - split; reflexivity.
  - discriminate.
  - vm_compute. split; [discriminate | reflexivity].
  - left. vm_compute. discriminate.
Defined.

(** ** The worker's request conversion *)

Lemma convert_row_length request y n : forall x row out,
  Worker.convert_row request y n x row = Ok out ->
  length out = (length row + n)%nat.
Proof.
  induction n as [|n IH]; intros x row out; simpl.
  - intros [= <-]. lia.
  - destruct (Worker.wire_map_at request _) as [cell| | |]; simpl; try discriminate.
    intros Hrow. apply IH in Hrow. rewrite length_app in Hrow. simpl in Hrow. lia.
Qed.

Lemma convert_map_rows request n : forall y acc out,
  Worker.convert_map request n y acc = Ok out ->
  Forall (fun row => length row = Z.to_nat (map_width request)) acc ->
  length out = (length acc + n)%nat /\
  Forall (fun row => length row = Z.to_nat (map_width request)) out.
Proof.
  induction n as [|n IH]; intros y acc out; simpl.
  - intros [= <-] Hacc. split; [lia | assumption].
  - destruct (Worker.convert_row request y _ 0 []) as [row| | |] eqn:Erow;
      simpl; try discriminate.
    intros Hmap Hacc. apply convert_row_length in Erow. simpl in Erow.
    apply IH in Hmap as [Hlen Hrows].
    + rewrite length_app in Hlen. simpl in Hlen. split; [lia | assumption].
    + apply Forall_app. split; [assumption|]. by repeat constructor.
Qed.

(** Whenever the worker's conversion succeeds, the map it hands to
    [renderColumns] has [mapHeight] rows of [mapWidth] cells. *)
Lemma convert_request_grid request ir :
  Worker.convert_request request = Ok ir ->
  grid (map ir) (mapWidth ir) (mapHeight ir).
Proof.
  unfold Worker.convert_request.
  destruct (Worker.convert_map request _ 0 []) as [m| | |] eqn:Em; simpl;
    try discriminate.
  intros [= <-]. simpl.
  apply convert_map_rows in Em as [Hlen Hrows]; [|constructor].
  split; assumption.
Qed.

(** The worker serving columns 0 .. 7 of the walled 16 x 16 map from (2, 2):
    eight results, in column order, each hitting the east wall in cell
    (15, 2) at distance 13. *)
Example worker_serves_sample_job :
  let request :=
    {| request_id := "r1"; player_id_ := "p1";
       player_ := {| x := 2; y := 2; angle := 0; pitch := 0;
                     id := "p1"; p_timestamp := 0 |};
       screen_width := 8; screen_height := 768; fov_ := 0;
       start_column := 0; end_column := 8;
       map_ := concat Sample.mapData; map_width := 16; map_height := 16;
       timestamp_ := 0 |} in
  match Worker.ProcessRenderRequest Sample.libm Sample.clock (Worker.new 1 0)
          request empty_RenderResponse with
  | Ok (status, response, svc) =>
      status = Status_OK /\
      column <$> rr_results response = [0; 1; 2; 3; 4; 5; 6; 7] /\
      wallType <$> rr_results response = [5; 5; 5; 5; 5; 5; 5; 5] /\
      distance <$> rr_results response = replicate 8 13%float /\
      rr_processing_time_ms response = 3 /\
      Worker.activeJobs_ svc = 0 /\
      Worker.status (Worker.status_ svc) = "idle"
  | _ => False
  end.
Proof. vm_compute. repeat split; reflexivity. Qed.

(** Two requests with a backwards column range in a row: both fail with
    INTERNAL and the worker reports two active jobs, "busy", with no request
    in flight. *)
Example two_failed_requests_leak_two_jobs :
  match Worker.ProcessRenderRequest Sample.libm Sample.clock (Worker.new 1 0)
          Sample.backwards_request empty_RenderResponse with
  | Ok (status1, _, svc1) =>
      match Worker.ProcessRenderRequest Sample.libm Sample.clock svc1
              Sample.backwards_request empty_RenderResponse with
      | Ok (status2, _, svc2) =>
          error_code status1 = INTERNAL /\ error_code status2 = INTERNAL /\
          ws_active_jobs (Worker.GetWorkerStatus svc2).2 = 2 /\
          ws_status (Worker.GetWorkerStatus svc2).2 = "busy"
      | _ => False
      end
  | _ => False
  end.
Proof. vm_compute. repeat split; reflexivity. Qed.

(** ** The master with workers *)

(** With three healthy workers the first request goes to the worker at
    position 0, succeeds, and is counted; the round-robin index moves on. *)
Example master_dispatches_to_first_worker :
  let m := {| MasterServiceImpl.worker_pool_ := Sample.three_workers;
              MasterServiceImpl.load_balancer_ := LoadBalancer.new ROUND_ROBIN;
              MasterServiceImpl.total_requests_processed_ := 0;
              MasterServiceImpl.total_response_time_ms_ := 0 |} in
  match MasterServiceImpl.ProcessRaycastRequest m (Sample.all_up 2000000000)
          Sample.raycast_request empty_RaycastResponse with
  | (Ok (status, response, served), m', w') =>
      status = Status_OK /\
      served = MasterServiceImpl.Dispatched 0 /\
      mr_success response = true /\
      mr_worker_endpoint response = "worker-a:50051" /\
      MasterServiceImpl.total_requests_processed_ m' = 1 /\
      MasterServiceImpl.total_response_time_ms_ m' = 1%float /\
      LoadBalancer.round_robin_index_ (MasterServiceImpl.load_balancer_ m') = 1 /\
      WorkerPool.endpoints (MasterServiceImpl.worker_pool_ m')
        = WorkerPool.endpoints Sample.three_workers
  | _ => False
  end.
Proof. vm_compute. repeat split; reflexivity. Qed.

(** * Further properties of the engine *)

Lemma walledb_walled map W H : walledb map W H = true -> walled map W H.
Proof.
  unfold walledb, walled. intros Hb x y Hx Hy Hborder.
  rewrite forallb_forall in Hb.
  assert (Hy' : In y (seqZ 0 H))
    by (apply list_elem_of_In, elem_of_seqZ; lia).
  specialize (Hb y Hy'). rewrite forallb_forall in Hb.
  assert (Hx' : In x (seqZ 0 W))
    by (apply list_elem_of_In, elem_of_seqZ; lia).
  specialize (Hb x Hx').
  destruct (_ || _) eqn:E.
  - destruct (RaycastEngine.map_at map y x) as [cell|]; [|discriminate].
    apply Z.eqb_eq in Hb. by subst.
  - repeat (apply orb_false_iff in E as [E ?]). lia.
Qed.

Section DDA_walled.
Variables (map : list (list Z)) (W H : Z).
Variables (dX dY : float) (sX sY : Z).
Hypothesis HsX : sX = 1 \/ sX = -1.
Hypothesis HsY : sY = 1 \/ sY = -1.
Hypothesis Hcells : cells_present map W H.
Hypothesis Hwalled : walled map W H.
Hypothesis Hsize : W + H <= 2 ^ 31.

(** Started strictly inside a walled grid, the march stops on a wall cell
    of the grid. *)
Lemma dda_walled fuel : forall sdX sdY mX mY st,
  0 < mX < W - 1 -> 0 < mY < H - 1 ->
  RaycastEngine.dda map W H dX dY sX sY fuel sdX sdY mX mY = Ok st ->
  0 <= RaycastEngine.mapX st < W /\ 0 <= RaycastEngine.mapY st < H /\
  RaycastEngine.map_at map (RaycastEngine.mapY st) (RaycastEngine.mapX st) = Some 1.
Proof using HsX HsY Hcells Hwalled Hsize.
  induction fuel as [|fuel IH]; intros sdX sdY mX mY st HX HY; [discriminate|].
  cbn [RaycastEngine.dda].
  assert (HwX : CInt.wrap_int (mX + sX) = mX + sX).
  { apply wrap_int_id. unfold CInt.in_int, CInt.INT_MIN, CInt.INT_MAX.
    destruct HsX as [-> | ->]; lia. }
  assert (HwY : CInt.wrap_int (mY + sY) = mY + sY).
  { apply wrap_int_id. unfold CInt.in_int, CInt.INT_MIN, CInt.INT_MAX.
    destruct HsY as [-> | ->]; lia. }
  destruct (PrimFloat.ltb sdX sdY); cbn [RaycastEngine.mapX RaycastEngine.mapY
    RaycastEngine.sideDistX RaycastEngine.sideDistY].
  - rewrite HwX.
    assert (Hin : 0 <= mX + sX < W) by (destruct HsX as [-> | ->]; lia).
    destruct (_ || _) eqn:Eb.
    { apply orb_true_iff in Eb as [Eb|Eb]; [|lia].
      apply orb_true_iff in Eb as [Eb|Eb]; [|lia].
      apply orb_true_iff in Eb as [Eb|Eb]; lia. }
    destruct (Hcells (mX + sX) mY Hin ltac:(lia)) as [cell Hcell]. rewrite Hcell.
    destruct (Z.eqb_spec cell 1) as [-> | Hne].
    + intros [= <-]. cbn [RaycastEngine.mapX RaycastEngine.mapY].
      repeat split; try lia. exact Hcell.
    + apply IH; [|lia].
      destruct (decide (mX + sX = 0 \/ mX + sX = W - 1)) as [Hb|Hb]; [|lia].
      rewrite (Hwalled (mX + sX) mY Hin ltac:(lia)) in Hcell
        by (destruct Hb; auto).
      congruence.
  - rewrite HwY.
    assert (Hin : 0 <= mY + sY < H) by (destruct HsY as [-> | ->]; lia).
    destruct (_ || _) eqn:Eb.
    { apply orb_true_iff in Eb as [Eb|Eb]; [|lia].
      apply orb_true_iff in Eb as [Eb|Eb]; [|lia].
      apply orb_true_iff in Eb as [Eb|Eb]; lia. }
    destruct (Hcells mX (mY + sY) ltac:(lia) Hin) as [cell Hcell]. rewrite Hcell.
    destruct (Z.eqb_spec cell 1) as [-> | Hne].
    + intros [= <-]. cbn [RaycastEngine.mapX RaycastEngine.mapY].
      repeat split; try lia. exact Hcell.
    + apply IH; [lia|].
      destruct (decide (mY + sY = 0 \/ mY + sY = H - 1)) as [Hb|Hb]; [|lia].
      rewrite (Hwalled mX (mY + sY) ltac:(lia) Hin) in Hcell
        by (destruct Hb; auto).
      congruence.
Qed.

End DDA_walled.

(** A result other than [Diverged] is the result for every larger bound. *)
Lemma dda_fuel_stable map W H dX dY sX sY fuel :
  forall fuel' sdX sdY mX mY,
    RaycastEngine.dda map W H dX dY sX sY fuel sdX sdY mX mY <> Diverged ->
    (fuel <= fuel')%nat ->
    RaycastEngine.dda map W H dX dY sX sY fuel' sdX sdY mX mY
      = RaycastEngine.dda map W H dX dY sX sY fuel sdX sdY mX mY.
Proof.
  induction fuel as [|fuel IH]; intros fuel' sdX sdY mX mY Hnd Hle;
    [by destruct Hnd|].
  destruct fuel' as [|fuel']; [lia|]. simpl in *.
  destruct (PrimFloat.ltb sdX sdY); cbn [RaycastEngine.mapX RaycastEngine.mapY
    RaycastEngine.sideDistX RaycastEngine.sideDistY] in *;
    (destruct (_ || _); [reflexivity|];
     destruct (RaycastEngine.map_at _ _ _) as [cell|]; [|reflexivity];
     destruct (cell =? 1); [reflexivity|];
     apply IH; [assumption | lia]).
Qed.

(** X1.  The [while (true)] loop of [castRay] always ends: it is left within
    1 + mapWidth + mapHeight iterations for every angle, position, pitch and
    map (also when a direction component is 0 or NaN, or the player stands
    outside the map), and iterating longer changes nothing. *)
Theorem castRay_loop_bound libm map W H a px py pp :
  RaycastEngine.castRay libm map W H a px py pp <> Diverged /\
  forall fuel, (RaycastEngine.dda_bound W H <= fuel)%nat ->
    RaycastEngine.castRay_fuel libm map W H fuel a px py pp
      = RaycastEngine.castRay libm map W H a px py pp.
Proof.
  split; [apply castRay_fuel_enough|].
  intros fuel Hfuel.
  unfold RaycastEngine.castRay, RaycastEngine.castRay_fuel, RaycastEngine.dda_bound in *.
  split_steps;
    match goal with
    | |- context [RaycastEngine.dda ?m ?w ?h ?dx ?dy ?sx ?sy fuel ?a1 ?a2 ?a3 ?a4] =>
        rewrite (dda_fuel_stable m w h dx dy sx sy _ fuel a1 a2 a3 a4
                   (dda_terminates m w h dx dy sx sy ltac:(lia) ltac:(lia)
                      a1 a2 a3 a4 (to_int_range _) (to_int_range _)) Hfuel)
    end; reflexivity.
Qed.

Lemma castRay_loop_bound_witness :
  RaycastEngine.castRay_fuel Sample.libm Sample.mapData 16 16 100 0 2 2 0
    = RaycastEngine.castRay Sample.libm Sample.mapData 16 16 0 2 2 0.
Proof.
  apply (proj2 (castRay_loop_bound Sample.libm Sample.mapData 16 16 0 2 2 0) 100%nat).
  vm_compute. lia.
Defined.

(** X2.  On a map whose border cells are walls, a ray cast from a cell
    strictly inside the map ends on a cell of the map, and its wall type
    lies in [0, 6). *)
Theorem castRay_walled_wallType libm map W H a px py pp :
  cells_present map W H -> walled map W H -> W + H <= 2 ^ 31 ->
  0 < Double.to_int px < W - 1 -> 0 < Double.to_int py < H - 1 ->
  exists hit,
    RaycastEngine.castRay libm map W H a px py pp = Ok hit /\
    0 <= RaycastEngine.hit_wallType hit < 6.
Proof.
  intros Hcells Hwalled Hsize HX HY.
  destruct (castRay_Ok libm map W H a px py pp Hcells) as [hit Hhit].
  exists hit. split; [assumption|]. revert Hhit.
  unfold RaycastEngine.castRay, RaycastEngine.castRay_fuel.
  split_steps;
    match goal with
    | |- context [RaycastEngine.dda ?m ?w ?h ?dx ?dy ?sx ?sy ?f ?a1 ?a2 ?a3 ?a4] =>
        pose proof (dda_walled m w h dx dy sx sy ltac:(lia) ltac:(lia)
                      Hcells Hwalled Hsize f a1 a2 a3 a4) as Hd;
        destruct (RaycastEngine.dda m w h dx dy sx sy f a1 a2 a3 a4) as [st| | |]
    end; simpl; try discriminate;
    (destruct (Hd st HX HY eq_refl) as (Hx & Hy & _);
     destruct (_ =? 0); intros [= <-]; simpl; unfold CInt.int_rem;
     rewrite wrap_int_id
       by (unfold CInt.in_int, CInt.INT_MIN, CInt.INT_MAX; lia);
     match goal with
     | |- context [Z.rem ?s 6] =>
         pose proof (Z.rem_bound_pos s 6 ltac:(lia) ltac:(lia)); lia
     end).
Qed.

Lemma castRay_walled_wallType_witness :
  exists hit,
    RaycastEngine.castRay Sample.libm Sample.mapData 16 16 Sample.PI 2 2 0 = Ok hit /\
    0 <= RaycastEngine.hit_wallType hit < 6.
Proof.
  apply (castRay_walled_wallType Sample.libm Sample.mapData 16 16 Sample.PI 2 2 0).
  - apply grid_cells_present. split; [reflexivity | repeat constructor].
  - apply walledb_walled. vm_compute. reflexivity.
  - vm_compute. discriminate.
  - vm_compute. split; reflexivity.
  - vm_compute. split; reflexivity.
Defined.

(** X3.  A job whose column range is empty gets an empty result, whatever
    its map; a job whose range runs backwards makes [renderColumns] throw
    from [reserve] before any column is rendered. *)
Theorem renderColumns_degenerate_ranges libm request :
  CInt.in_int (endColumn request - startColumn request) ->
  (endColumn request = startColumn request ->
     RaycastEngine.renderColumns libm request = Ok []) /\
  (endColumn request < startColumn request ->
     RaycastEngine.renderColumns libm request = Throw "vector::reserve").
Proof.
  intros Hin. unfold RaycastEngine.renderColumns. rewrite wrap_int_id by assumption.
  split; intros Hrange.
  - rewrite Hrange, Z.sub_diag. reflexivity.
  - destruct (Z.ltb_spec (endColumn request - startColumn request) 0);
      [reflexivity | lia].
Qed.

Lemma renderColumns_degenerate_ranges_witness :
  RaycastEngine.renderColumns Sample.libm Sample.empty_range_job = Ok [].
Proof.
  refine (proj1 (renderColumns_degenerate_ranges Sample.libm
                   Sample.empty_range_job _) _).
  - vm_compute. split; discriminate.
  - reflexivity.
Defined.

Lemma getWallColor_bytes (wallType intensity : Z) rgb :
  0 <= intensity <= 255 ->
  RaycastEngine.getWallColor wallType intensity = Ok rgb ->
  (0 <= rgb.1.1 <= intensity) /\ (0 <= rgb.1.2 <= intensity) /\
  (0 <= rgb.2 <= intensity).
Proof.
  intros Hi. destruct (decide (0 <= wallType < 6)) as [Hin|Hout].
  - assert (wallType = 0 \/ wallType = 1 \/ wallType = 2 \/ wallType = 3
            \/ wallType = 4 \/ wallType = 5) as Hcases by lia.
    assert (Hq : forall c, 0 <= c <= 255 ->
              0 <= CInt.wrap_uint8 (CInt.int_div (c * intensity) 255) <= intensity).
    { intros c Hc. unfold CInt.int_div, CInt.wrap_uint8.
      assert (0 <= c * intensity ÷ 255 <= intensity).
      { split; [apply Z.quot_pos; nia|].
        apply Z.quot_le_upper_bound; nia. }
      rewrite Z.mod_small; lia. }
    destruct Hcases as [-> | [-> | [-> | [-> | [-> | ->]]]]];
      intros [= <-]; cbn [fst snd]; repeat split; apply Hq; lia.
  - rewrite getWallColor_outside by assumption. intros [= <-]. simpl. lia.
Qed.

(** X4.  The colour [getWallColor] returns is never brighter than the
    intensity: for an intensity in [0, 255], each of r, g and b lies between
    0 and the intensity; at full intensity a wall type of the table gets
    exactly its base colour. *)
Theorem getWallColor_scales (wallType intensity : Z) :
  (0 <= intensity <= 255 ->
     exists r g b,
       RaycastEngine.getWallColor wallType intensity = Ok (r, g, b) /\
       0 <= r <= intensity /\ 0 <= g <= intensity /\ 0 <= b <= intensity) /\
  (0 <= wallType < 6 ->
     RaycastEngine.getWallColor wallType 255
       = of_option (RaycastEngine.baseColors !! Z.to_nat wallType)).
Proof.
  split.
  - intros Hi. destruct (getWallColor_Ok wallType intensity) as [[[r g] b] Hrgb].
    exists r, g, b. split; [assumption|].
    apply (getWallColor_bytes wallType intensity (r, g, b) Hi Hrgb).
  - intros Hwt.
    assert (wallType = 0 \/ wallType = 1 \/ wallType = 2 \/ wallType = 3
            \/ wallType = 4 \/ wallType = 5) as Hcases by lia.
    destruct Hcases as [-> | [-> | [-> | [-> | [-> | ->]]]]]; reflexivity.
Qed.

Lemma getWallColor_scales_witness :
  (exists r g b,
     RaycastEngine.getWallColor 3 128 = Ok (r, g, b) /\
     0 <= r <= 128 /\ 0 <= g <= 128 /\ 0 <= b <= 128) /\
  RaycastEngine.getWallColor 3 255
    = of_option (RaycastEngine.baseColors !! Z.to_nat 3).
Proof.
  split.
  - apply (proj1 (getWallColor_scales 3 128)). lia.
  - apply (proj2 (getWallColor_scales 3 255)). lia.
Defined.

Lemma int_div_2_range (z : Z) : CInt.in_int z -> CInt.in_int (CInt.int_div z 2).
Proof.
  unfold CInt.in_int, CInt.int_div, CInt.INT_MIN, CInt.INT_MAX. intros Hz.
  pose proof (Z.quot_rem' z 2) as Hq.
  pose proof (Z.rem_bound_abs z 2 ltac:(lia)) as Hr. lia.
Qed.

Lemma renderColumn_bytes libm request x res :
  RaycastEngine.renderColumn libm request x = Ok res ->
  column res = x /\
  0 <= r res <= 255 /\ 0 <= g res <= 255 /\ 0 <= b res <= 255 /\
  -6 < wallType res < 6 /\
  CInt.in_int (wallTop res) /\ CInt.in_int (wallBottom res).
Proof.
  unfold RaycastEngine.renderColumn.
  destruct (RaycastEngine.castRay _ _ _ _ _ _ _ _) as [hit| | |] eqn:Ehit;
    try discriminate.
  cbn [mbind outcome_bind obind].
  pose proof (calculateIntensity_floor (RaycastEngine.hit_distance hit)) as Hint.
  destruct (RaycastEngine.getWallColor _ _) as [[[cr cg] cb]| | |] eqn:Ergb;
    try discriminate.
  cbn [mbind outcome_bind obind]. intros [= <-].
  cbn [column r g b wallType wallTop wallBottom].
  apply getWallColor_bytes in Ergb; [|lia]. cbn [fst snd] in Ergb.
  apply castRay_wallType_bound in Ehit.
  split; [reflexivity|].
  split; [lia|]. split; [lia|]. split; [lia|]. split; [lia|].
  split; [apply int_div_2_range, wrap_int_range | apply wrap_int_range].
Qed.

Lemma renderLoop_in_range libm request n : forall x acc results,
  RaycastEngine.renderLoop libm request n x acc = Ok results ->
  Forall in_range_result acc -> Forall in_range_result results.
Proof.
  induction n as [|n IH]; intros x acc results; cbn [RaycastEngine.renderLoop].
  - by intros [= <-].
  - destruct (RaycastEngine.renderColumn libm request x) as [res| | |] eqn:Eres;
      try discriminate.
    cbn [mbind outcome_bind obind]. intros Hloop Hacc.
    apply (IH _ _ _ Hloop). apply Forall_app. split; [assumption|].
    constructor; [|constructor]. apply renderColumn_bytes in Eres. apply Eres.
Qed.

(** X5.  Whatever the job, every column result [renderColumns] returns has
    its r, g and b in [0, 255], a wall type strictly between -6 and 6, and
    pixel bounds that are [int]s, also for a distance of 0, a negative
    distance or NaN. *)
Theorem renderColumns_results_in_range libm request results :
  RaycastEngine.renderColumns libm request = Ok results ->
  Forall in_range_result results.
Proof.
  unfold RaycastEngine.renderColumns. destruct (_ <? 0); [discriminate|].
  intros Hloop. apply (renderLoop_in_range _ _ _ _ _ _ Hloop). constructor.
Qed.

Lemma renderColumns_results_in_range_witness :
  match RaycastEngine.renderColumns Sample.libm Sample.job with
  | Ok results => Forall in_range_result results
  | _ => False
  end.
Proof.
  destruct (RaycastEngine.renderColumns Sample.libm Sample.job) as [results| | |] eqn:E.
  - exact (renderColumns_results_in_range Sample.libm Sample.job results E).
  - vm_compute in E. discriminate.
  - vm_compute in E. discriminate.
  - vm_compute in E. discriminate.
Defined.

(** * Further properties of the worker service *)

(** Reading a grid through its row-major flattening. *)
Lemma concat_lookup_grid (g : list (list Z)) (Wn : nat) :
  Forall (fun row => length row = Wn) g ->
  forall yn xn row, g !! yn = Some row -> (xn < Wn)%nat ->
    concat g !! (yn * Wn + xn)%nat = row !! xn.
Proof.
  induction 1 as [|r0 g Hr0 Hg IH]; intros yn xn row Hrow Hx; [done|].
  destruct yn as [|yn]; simpl in *.
  - injection Hrow as ->. apply lookup_app_l. lia.
  - rewrite lookup_app_r by lia.
    replace (Wn + yn * Wn + xn - length r0)%nat with (yn * Wn + xn)%nat by lia.
    by apply IH.
Qed.

Section ConvertMap.
Variables (request : RenderRequest) (g : list (list Z)) (Wn Hn : nat).
Hypothesis Hwidth : map_width request = Z.of_nat Wn.
Hypothesis Hflat : map_ request = concat g.
Hypothesis Hrows : Forall (fun row => length row = Wn) g.
Hypothesis Hlen : length g = Hn.
Hypothesis Hsize : Z.of_nat Wn * Z.of_nat Hn <= CInt.INT_MAX.

Lemma wire_map_at_cell yn xn row :
  g !! yn = Some row -> (xn < Wn)%nat ->
  Worker.wire_map_at request
    (CInt.wrap_int (CInt.wrap_int (Z.of_nat yn * map_width request) + Z.of_nat xn))
  = of_option (row !! xn).
Proof using Hwidth Hflat Hrows Hlen Hsize.
  intros Hrow Hx. apply lookup_lt_Some in Hrow as Hy. rewrite Hlen in Hy.
  rewrite Hwidth.
  assert (Hb : Z.of_nat yn * Z.of_nat Wn + Z.of_nat Wn <= Z.of_nat Wn * Z.of_nat Hn)
    by nia.
  unfold CInt.INT_MAX in Hsize.
  rewrite (wrap_int_id (Z.of_nat yn * Z.of_nat Wn))
    by (unfold CInt.in_int, CInt.INT_MIN, CInt.INT_MAX; nia).
  rewrite wrap_int_id by (unfold CInt.in_int, CInt.INT_MIN, CInt.INT_MAX; nia).
  unfold Worker.wire_map_at.
  destruct (Z.ltb_spec (Z.of_nat yn * Z.of_nat Wn + Z.of_nat xn) 0); [nia|].
  rewrite Hflat.
  replace (Z.to_nat (Z.of_nat yn * Z.of_nat Wn + Z.of_nat xn))
    with (yn * Wn + xn)%nat by nia.
  by rewrite (concat_lookup_grid g Wn Hrows yn xn row Hrow Hx).
Qed.

Lemma convert_row_reads yn row : g !! yn = Some row ->
  forall n xn acc, (xn + n <= Wn)%nat ->
    Worker.convert_row request (Z.of_nat yn) n (Z.of_nat xn) acc
      = Ok (acc ++ take n (drop xn row)).
Proof using Hwidth Hflat Hrows Hlen Hsize.
  intros Hrow. induction n as [|n IH]; intros xn acc Hx; cbn [Worker.convert_row].
  - by rewrite take_0, app_nil_r.
  - rewrite (wire_map_at_cell yn xn row Hrow) by lia.
    assert (Hlr : length row = Wn).
    { rewrite Forall_forall in Hrows. apply Hrows.
      by eapply list_elem_of_lookup_2. }
    destruct (row !! xn) as [cell|] eqn:Ecell;
      [|apply lookup_ge_None in Ecell; lia].
    cbn [of_option mbind outcome_bind obind].
    replace (Z.of_nat xn + 1) with (Z.of_nat (S xn)) by lia.
    rewrite IH by lia.
    rewrite (drop_S row cell xn Ecell). cbn [take].
    by rewrite <- app_assoc.
Qed.

Lemma convert_map_reads : forall n yn acc, (yn + n <= Hn)%nat ->
  Worker.convert_map request n (Z.of_nat yn) acc
    = Ok (acc ++ take n (drop yn g)).
Proof using Hwidth Hflat Hrows Hlen Hsize.
  induction n as [|n IH]; intros yn acc Hy; cbn [Worker.convert_map].
  - by rewrite take_0, app_nil_r.
  - destruct (g !! yn) as [row|] eqn:Erow;
      [|apply lookup_ge_None in Erow; lia].
    rewrite Hwidth, Nat2Z.id.
    pose proof (convert_row_reads yn row Erow Wn 0%nat [] ltac:(lia)) as Hr.
    rewrite Nat2Z.inj_0 in Hr. rewrite Hr. clear Hr.
    assert (Hlr : length row = Wn).
    { rewrite Forall_forall in Hrows. apply Hrows.
      by eapply list_elem_of_lookup_2. }
    rewrite drop_0, firstn_all2 by lia.
    cbn [mbind outcome_bind obind app].
    replace (Z.of_nat yn + 1) with (Z.of_nat (S yn)) by lia.
    rewrite IH by lia.
    rewrite (drop_S g row yn Erow). cbn [take].
    by rewrite <- app_assoc.
Qed.

End ConvertMap.

(** X6.  The worker rebuilds the map grid from its row-major flattening:
    when the request carries the concatenated rows of a grid of
    map_height rows and map_width columns (with map_width * map_height an
    [int]), the conversion succeeds, the internal request holds exactly that
    grid, and the job parameters are copied unchanged. *)
Theorem convert_request_rebuilds_grid request g :
  0 <= map_width request -> 0 <= map_height request ->
  map_width request * map_height request <= CInt.INT_MAX ->
  grid g (map_width request) (map_height request) ->
  map_ request = concat g ->
  exists ir,
    Worker.convert_request request = Ok ir /\
    map ir = g /\
    mapWidth ir = map_width request /\ mapHeight ir = map_height request /\
    startColumn ir = start_column request /\ endColumn ir = end_column request /\
    screenWidth ir = screen_width request /\ fov ir = fov_ request /\
    player_x (player ir) = x (player_ request) /\
    player_y (player ir) = y (player_ request) /\
    player_angle (player ir) = angle (player_ request) /\
    player_pitch (player ir) = pitch (player_ request).
Proof.
  intros HW HH Hsize [Hlen Hrows] Hflat.
  pose proof (convert_map_reads request g (Z.to_nat (map_width request))
                (Z.to_nat (map_height request))
                ltac:(by rewrite Z2Nat.id) Hflat Hrows Hlen
                ltac:(rewrite !Z2Nat.id by assumption; assumption)
                (Z.to_nat (map_height request)) 0%nat [] ltac:(lia)) as Hmap.
  rewrite Nat2Z.inj_0, drop_0 in Hmap.
  rewrite firstn_all2 in Hmap by lia. cbn [app] in Hmap.
  unfold Worker.convert_request. rewrite Hmap.
  eexists. split; [reflexivity|]. cbn. repeat split.
Qed.

Lemma convert_request_rebuilds_grid_witness :
  exists ir,
    Worker.convert_request Sample.wire_job = Ok ir /\
    map ir = Sample.mapData /\
    mapWidth ir = 16 /\ mapHeight ir = 16 /\
    startColumn ir = 0 /\ endColumn ir = 8 /\
    screenWidth ir = 8 /\ fov ir = 0%float /\
    player_x (player ir) = 2%float /\ player_y (player ir) = 2%float /\
    player_angle (player ir) = 0%float /\ player_pitch (player ir) = 0%float.
Proof.
  apply (convert_request_rebuilds_grid Sample.wire_job Sample.mapData).
  - vm_compute. discriminate.
  - vm_compute. discriminate.
  - vm_compute. discriminate.
  - split; [reflexivity | repeat constructor].
  - reflexivity.
Defined.

(** X7.  A request the worker serves is answered OK with the engine's
    results, the echoed request and player ids, the worker's id and the
    elapsed milliseconds; it counts as one more processed job, and the
    active-job counter is back at its value before the call, with the
    status "idle" exactly when that value is not positive. *)
Theorem served_render_accounting libm clock svc request ir results :
  Worker.convert_request request = Ok ir ->
  RaycastEngine.renderColumns libm ir = Ok results ->
  worker_consistent svc -> Worker.activeJobs_ svc < CInt.INT_MAX ->
  exists response svc',
    Worker.ProcessRenderRequest libm clock svc request empty_RenderResponse
      = Ok (Status_OK, response, svc') /\
    rr_results response = results /\
    rr_request_id response = request_id request /\
    rr_player_id response = player_id_ request /\
    rr_worker_id response = Worker.workerId_ svc /\
    rr_processing_time_ms response
      = Z.quot (Worker.endTime clock - Worker.startTime clock) 1000000 /\
    Worker.activeJobs_ svc' = Worker.activeJobs_ svc /\
    Worker.totalJobsProcessed_ svc'
      = CInt.wrap_int (Worker.totalJobsProcessed_ svc + 1) /\
    ws_active_jobs (Worker.GetWorkerStatus svc').2 = Worker.activeJobs_ svc /\
    ws_total_jobs_processed (Worker.GetWorkerStatus svc').2
      = CInt.wrap_int (Worker.totalJobsProcessed_ svc + 1) /\
    ws_status (Worker.GetWorkerStatus svc').2
      = (if Worker.activeJobs_ svc >? 0 then "busy" else "idle") /\
    ws_last_heartbeat (Worker.GetWorkerStatus svc').2
      = Worker.heartbeatTimestamp clock.
Proof.
  intros Hconv Hrender [Hsame Hin] Hmax.
  unfold Worker.ProcessRenderRequest, Worker.try_block.
  rewrite Hconv. cbn [mbind outcome_bind obind]. rewrite Hrender.
  cbn [mbind outcome_bind obind].
  assert (Hback : CInt.wrap_int (CInt.wrap_int (Worker.activeJobs_ svc + 1) - 1)
                  = Worker.activeJobs_ svc).
  { unfold CInt.in_int, CInt.INT_MIN, CInt.INT_MAX in *.
    rewrite (wrap_int_id (Worker.activeJobs_ svc + 1))
      by (unfold CInt.in_int, CInt.INT_MIN, CInt.INT_MAX; lia).
    replace (Worker.activeJobs_ svc + 1 - 1) with (Worker.activeJobs_ svc) by lia.
    apply wrap_int_id. unfold CInt.in_int, CInt.INT_MIN, CInt.INT_MAX. lia. }
  eexists _, _. split; [reflexivity|].
  cbn [Worker.leave Worker.enter Worker.GetWorkerStatus snd
       Worker.activeJobs_ Worker.totalJobsProcessed_ Worker.status_
       Worker.workerId_ Worker.activeJobs Worker.totalJobsProcessed Worker.status
       Worker.lastHeartbeat rr_results rr_request_id rr_player_id rr_worker_id
       rr_processing_time_ms ws_active_jobs ws_total_jobs_processed ws_status
       ws_last_heartbeat].
  rewrite Hback.
  assert (Hids : requestId ir = request_id request /\ playerId ir = player_id_ request).
  { unfold Worker.convert_request in Hconv.
    destruct (Worker.convert_map _ _ _ _); try discriminate.
    cbn [mbind outcome_bind obind] in Hconv. injection Hconv as <-. by split. }
  destruct Hids as [-> ->]. repeat split.
Qed.

Lemma served_render_accounting_witness :
  match Worker.convert_request Sample.wire_job with
  | Ok ir =>
      match RaycastEngine.renderColumns Sample.libm ir with
      | Ok results =>
          exists response svc',
            Worker.ProcessRenderRequest Sample.libm Sample.clock (Worker.new 1 0)
                Sample.wire_job empty_RenderResponse
              = Ok (Status_OK, response, svc') /\
            rr_results response = results /\
            rr_processing_time_ms response = 3 /\
            Worker.activeJobs_ svc' = 0 /\
            ws_total_jobs_processed (Worker.GetWorkerStatus svc').2 = 1 /\
            ws_status (Worker.GetWorkerStatus svc').2 = "idle"
      | _ => False
      end
  | _ => False
  end.
Proof.
  destruct (Worker.convert_request Sample.wire_job) as [ir| | |] eqn:Econv;
    try (vm_compute in Econv; discriminate).
  destruct (RaycastEngine.renderColumns Sample.libm ir) as [results| | |] eqn:Er;
    try (vm_compute in Econv; injection Econv as <-; vm_compute in Er; discriminate).
  destruct (served_render_accounting Sample.libm Sample.clock (Worker.new 1 0)
              Sample.wire_job ir results Econv Er
              (worker_new_consistent 1 0) ltac:(vm_compute; reflexivity))
    as (response & svc' & Hcall & Hres & _ & _ & _ & Hms & Hact & _ & _ & Htot & Hst & _).
  exists response, svc'. repeat split; assumption.
Defined.

(** X8.  A leaked active job is never given back: once the counter is
    positive with no request in flight, every later call, served or failed,
    leaves it positive and the worker reporting "busy". *)
Theorem leaked_job_keeps_worker_busy libm clock svc request response
    status response' svc' :
  0 < Worker.activeJobs_ svc < CInt.INT_MAX ->
  Worker.ProcessRenderRequest libm clock svc request response
    = Ok (status, response', svc') ->
  0 < Worker.activeJobs_ svc' /\
  ws_status (Worker.GetWorkerStatus svc').2 = "busy" /\
  0 < ws_active_jobs (Worker.GetWorkerStatus svc').2.
Proof.
  intros Hpos. unfold Worker.ProcessRenderRequest.
  assert (Hup : CInt.wrap_int (Worker.activeJobs_ svc + 1) = Worker.activeJobs_ svc + 1).
  { apply wrap_int_id. unfold CInt.in_int, CInt.INT_MIN, CInt.INT_MAX in *. lia. }
  destruct (Worker.try_block _ _ _ _) as [[resp svc2]|what| |] eqn:Etry;
    intros [= <- <- <-].
  - unfold Worker.try_block in Etry.
    destruct (Worker.convert_request request) as [ir| | |]; try discriminate.
    cbn [mbind outcome_bind obind] in Etry.
    destruct (RaycastEngine.renderColumns libm ir) as [rs| | |]; try discriminate.
    cbn [mbind outcome_bind obind] in Etry. injection Etry as <- <-.
    cbn [Worker.leave Worker.enter Worker.GetWorkerStatus snd
         Worker.activeJobs_ Worker.status_ Worker.activeJobs Worker.status
         ws_active_jobs ws_status].
    rewrite Hup.
    replace (Worker.activeJobs_ svc + 1 - 1) with (Worker.activeJobs_ svc) by lia.
    rewrite wrap_int_id
      by (unfold CInt.in_int, CInt.INT_MIN, CInt.INT_MAX in *; lia).
    destruct (Z.gtb_spec (Worker.activeJobs_ svc) 0); [|lia].
    repeat split; lia.
  - cbn [Worker.enter Worker.GetWorkerStatus snd
         Worker.activeJobs_ Worker.status_ Worker.activeJobs Worker.status
         ws_active_jobs ws_status].
    rewrite Hup. repeat split; lia.
Qed.

Lemma leaked_job_keeps_worker_busy_witness :
  match Worker.ProcessRenderRequest Sample.libm Sample.clock Sample.leaky_worker
          Sample.wire_job empty_RenderResponse with
  | Ok (status, response', svc') =>
      0 < Worker.activeJobs_ svc' /\
      ws_status (Worker.GetWorkerStatus svc').2 = "busy" /\
      0 < ws_active_jobs (Worker.GetWorkerStatus svc').2
  | _ => False
  end.
Proof.
  destruct (Worker.ProcessRenderRequest Sample.libm Sample.clock Sample.leaky_worker
              Sample.wire_job empty_RenderResponse)
    as [[[status response'] svc']| | |] eqn:E;
    try (vm_compute in E; discriminate).
  apply (leaked_job_keeps_worker_busy Sample.libm Sample.clock Sample.leaky_worker
           Sample.wire_job empty_RenderResponse status response' svc');
    [vm_compute; split; reflexivity | exact E].
Defined.

(** * Further properties of the master's connections *)

(** Whole seconds elapsed stay within [n] exactly while fewer than [n + 1]
    seconds have passed. *)
Lemma elapsed_seconds_le (d n : Z) :
  0 <= d -> 0 <= n -> (Z.quot d 1000000000 <= n <-> d < (n + 1) * 1000000000).
Proof.
  intros Hd Hn. rewrite Z.quot_div_nonneg by lia.
  pose proof (Z.div_mod d 1000000000 ltac:(lia)) as Hdm.
  pose proof (Z.mod_pos_bound d 1000000000 ltac:(lia)) as Hm.
  split; intros H; nia.
Qed.

(** X9.  After a health check whose status call returned, [IsHealthy]
    answers from the cache, without a stub call, for as long as fewer than
    interval + 1 seconds have passed since the check (31 s with the default
    interval of 30 s): it returns the check's result and leaves the
    connection and the world alone, even if the worker's state has changed
    in the meantime. *)
Theorem IsHealthy_cached_after_probe c w st response v :
  WorkerConnection.stub_ c = true ->
  status_rpc w (WorkerConnection.endpoint_ c) (now w) = Returned st response ->
  0 <= default 30 (HEALTH_CHECK_INTERVAL_SECONDS v) ->
  now (WorkerConnection.PerformHealthCheck c w).2 <= now v ->
  now v < now (WorkerConnection.PerformHealthCheck c w).2
          + (default 30 (HEALTH_CHECK_INTERVAL_SECONDS v) + 1) * 1000000000 ->
  WorkerConnection.IsHealthy (WorkerConnection.PerformHealthCheck c w).1.2 v
    = (ok st, (WorkerConnection.PerformHealthCheck c w).1.2, v).
Proof.
  intros Hstub Hrpc Hint Hafter Hbefore.
  unfold WorkerConnection.PerformHealthCheck in *. rewrite Hstub, Hrpc in *.
  cbn [negb fst snd] in *.
  unfold WorkerConnection.IsHealthy.
  cbn [WorkerConnection.last_health_check_ WorkerConnection.set_last_health_check
       WorkerConnection.set_is_healthy WorkerConnection.is_healthy_].
  destruct (Z.gtb_spec
              (Z.quot (now v - now (after_rpc (WorkerConnection.endpoint_ c) w))
                      1000000000)
              (default 30 (HEALTH_CHECK_INTERVAL_SECONDS v))) as [Hgt|Hle];
    [|reflexivity].
  exfalso.
  pose proof (proj2 (elapsed_seconds_le
                (now v - now (after_rpc (WorkerConnection.endpoint_ c) w))
                (default 30 (HEALTH_CHECK_INTERVAL_SECONDS v))
                ltac:(lia) Hint) ltac:(lia)).
  lia.
Qed.

Lemma IsHealthy_cached_after_probe_witness :
  WorkerConnection.IsHealthy
    (WorkerConnection.PerformHealthCheck Sample.connection_a
       (Sample.all_down 40000000000)).1.2
    (Sample.all_up 70900000000)
  = (false,
     (WorkerConnection.PerformHealthCheck Sample.connection_a
        (Sample.all_down 40000000000)).1.2,
     Sample.all_up 70900000000).
Proof.
  exact (IsHealthy_cached_after_probe Sample.connection_a
           (Sample.all_down 40000000000)
           {| error_code := UNAVAILABLE;
              error_message := "failed to connect to all addresses" |}
           Sample.idle_status (Sample.all_up 70900000000)
           eq_refl eq_refl
           ltac:(vm_compute; discriminate) ltac:(vm_compute; discriminate)
           ltac:(vm_compute; reflexivity)).
Defined.

(** X10.  A disconnected connection stays down by itself: [IsHealthy] and
    [PerformHealthCheck] answer false without a stub call and leave the
    connection as [Disconnect] left it, at any time, and a render request
    is refused with UNAVAILABLE "Worker not connected" without touching the
    counters or the response. *)
Theorem disconnected_stays_down c w request response :
  WorkerConnection.PerformHealthCheck (WorkerConnection.Disconnect c) w
    = (false, WorkerConnection.Disconnect c, w) /\
  WorkerConnection.IsHealthy (WorkerConnection.Disconnect c) w
    = (false, WorkerConnection.Disconnect c, w) /\
  WorkerConnection.ProcessRenderRequest (WorkerConnection.Disconnect c) w
      request response
    = ({| error_code := UNAVAILABLE; error_message := "Worker not connected" |},
       response, WorkerConnection.Disconnect c, w).
Proof.
  assert (Hp : WorkerConnection.PerformHealthCheck (WorkerConnection.Disconnect c) w
               = (false, WorkerConnection.Disconnect c, w)) by reflexivity.
  split; [exact Hp|]. split; [|reflexivity].
  unfold WorkerConnection.IsHealthy. destruct (_ >? _); [exact Hp | reflexivity].
Qed.

(** X11.  The master-side [ProcessRenderRequest] of a connection gives the
    active-job counter back in every outcome.  When the stub call returns,
    its status and response are handed on and the call is counted as a
    processed job, whether the status is OK or not; an OK status refreshes
    the timestamp and leaves the health flag as it was, any other status
    clears the flag.  When the stub call raises, the result is INTERNAL
    "Exception: ..." with the caller's response, the flag is cleared and
    nothing is counted. *)
Theorem connection_request_accounting c w request response :
  WorkerConnection.stub_ c = true ->
  CInt.in_int (WorkerConnection.active_jobs_ c) ->
  WorkerConnection.active_jobs_ c < CInt.INT_MAX ->
  let status := (WorkerConnection.ProcessRenderRequest c w request response).1.1.1 in
  let response' := (WorkerConnection.ProcessRenderRequest c w request response).1.1.2 in
  let c' := (WorkerConnection.ProcessRenderRequest c w request response).1.2 in
  let w' := (WorkerConnection.ProcessRenderRequest c w request response).2 in
  WorkerConnection.active_jobs_ c' = WorkerConnection.active_jobs_ c /\
  WorkerConnection.endpoint_ c' = WorkerConnection.endpoint_ c /\
  WorkerConnection.stub_ c' = true /\
  (forall st r,
     render_rpc w (WorkerConnection.endpoint_ c) (now w) request = Returned st r ->
     status = st /\ response' = r /\
     WorkerConnection.total_jobs_processed_ c'
       = CInt.wrap_int (WorkerConnection.total_jobs_processed_ c + 1) /\
     (ok st = true ->
        WorkerConnection.last_health_check_ c' = now w' /\
        WorkerConnection.is_healthy_ c' = WorkerConnection.is_healthy_ c) /\
     (ok st = false ->
        WorkerConnection.is_healthy_ c' = false /\
        WorkerConnection.last_health_check_ c'
          = WorkerConnection.last_health_check_ c)) /\
  (forall what,
     render_rpc w (WorkerConnection.endpoint_ c) (now w) request = Raised what ->
     status = {| error_code := INTERNAL; error_message := "Exception: " +:+ what |} /\
     response' = response /\
     WorkerConnection.is_healthy_ c' = false /\
     WorkerConnection.total_jobs_processed_ c'
       = WorkerConnection.total_jobs_processed_ c /\
     WorkerConnection.last_health_check_ c'
       = WorkerConnection.last_health_check_ c).
Proof.
  intros Hstub Hin Hmax.
  assert (Hback : CInt.wrap_int (CInt.wrap_int (WorkerConnection.active_jobs_ c + 1) - 1)
                  = WorkerConnection.active_jobs_ c).
  { unfold CInt.in_int, CInt.INT_MIN, CInt.INT_MAX in *.
    rewrite (wrap_int_id (WorkerConnection.active_jobs_ c + 1))
      by (unfold CInt.in_int, CInt.INT_MIN, CInt.INT_MAX; lia).
    replace (WorkerConnection.active_jobs_ c + 1 - 1)
      with (WorkerConnection.active_jobs_ c) by lia.
    apply wrap_int_id. unfold CInt.in_int, CInt.INT_MIN, CInt.INT_MAX. lia. }
  unfold WorkerConnection.ProcessRenderRequest. rewrite Hstub. cbn [negb].
  destruct (render_rpc w (WorkerConnection.endpoint_ c) (now w) request)
    as [st r|what]; cbn [fst snd].
  - destruct (ok st) eqn:Eok; cbn; rewrite Hback, Hstub;
      (split; [reflexivity|]); (split; [reflexivity|]); (split; [reflexivity|]);
      (split; [|intros ? [=]]);
      intros ? ? [= <- <-]; rewrite Eok;
      repeat split; try reflexivity; try discriminate.
  - cbn. rewrite Hback, Hstub.
    (split; [reflexivity|]); (split; [reflexivity|]); (split; [reflexivity|]).
    split; [intros ? ? [=]|]. intros ? [= <-]. repeat split.
Qed.

Lemma connection_request_accounting_witness :
  let c := Sample.connection_a in
  let w := Sample.all_up 2000000000 in
  let c' := (WorkerConnection.ProcessRenderRequest c w
               (MasterServiceImpl.ConvertRequest Sample.raycast_request)
               empty_RenderResponse).1.2 in
  WorkerConnection.active_jobs_ c' = WorkerConnection.active_jobs_ c /\
  WorkerConnection.endpoint_ c' = WorkerConnection.endpoint_ c /\
  WorkerConnection.stub_ c' = true.
Proof.
  pose proof (connection_request_accounting Sample.connection_a
                (Sample.all_up 2000000000)
                (MasterServiceImpl.ConvertRequest Sample.raycast_request)
                empty_RenderResponse eq_refl
                ltac:(vm_compute; split; discriminate)
                ltac:(vm_compute; reflexivity)) as (H1 & H2 & H3 & _).
  exact (conj H1 (conj H2 H3)).
Defined.

(** * Further properties of the worker pool *)

Section Snapshot.
Import WorkerConnection WorkerPool.

Lemma check_all_flags ws : forall w,
  (check_all ws w).1.1 = is_healthy_ <$> (check_all ws w).1.2 /\
  length (check_all ws w).1.2 = length ws.
Proof.
  induction ws as [|c ws IH]; intros w; [done|]. cbn [check_all].
  pose proof (IsHealthy_result c w) as Hc.
  destruct (IsHealthy c w) as [[h c'] w1].
  specialize (IH w1). destruct (check_all ws w1) as [[hs ws'] w2].
  cbn [fst snd] in *. destruct IH as [-> Hlen].
  rewrite fmap_cons, Hc. split; [reflexivity | simpl; by rewrite Hlen].
Qed.

Lemma elem_of_positions hs : forall k i,
  i ∈ positions k hs <-> (k <= i)%nat /\ hs !! (i - k)%nat = Some true.
Proof.
  induction hs as [|h hs IH]; intros k i; cbn [positions].
  - split; [intros Hi; by apply elem_of_nil in Hi | intros [_ Hi]; done].
  - assert (Hstep : (S k <= i)%nat ->
              (h :: hs) !! (i - k)%nat = hs !! (i - S k)%nat).
    { intros Hi. replace (i - k)%nat with (S (i - S k)) by lia. reflexivity. }
    destruct h.
    + rewrite elem_of_cons, IH. split.
      * intros [-> | [Hi Hl]].
        -- split; [lia|]. by rewrite Nat.sub_diag.
        -- split; [lia|]. by rewrite Hstep.
      * intros [Hi Hl]. destruct (decide (i = k)) as [-> | Hne]; [by left|].
        right. split; [lia|]. by rewrite <- Hstep by lia.
    + rewrite IH. split.
      * intros [Hi Hl]. split; [lia|]. by rewrite Hstep.
      * intros [Hi Hl]. destruct (decide (i = k)) as [-> | Hne].
        -- rewrite Nat.sub_diag in Hl. discriminate.
        -- split; [lia|]. by rewrite <- Hstep by lia.
Qed.

Lemma positions_ascending hs : forall k ia ib a b,
  positions k hs !! ia = Some a -> positions k hs !! ib = Some b ->
  (ia < ib)%nat -> (a < b)%nat.
Proof.
  induction hs as [|h hs IH]; intros k ia ib a b; cbn [positions]; [done|].
  destruct h; [|apply IH].
  destruct ib as [|ib]; [lia|]. destruct ia as [|ia]; cbn.
  - intros [= <-] Hb _. apply list_elem_of_lookup_2, positions_bound in Hb. lia.
  - intros Ha Hb Hlt. eapply IH; eauto. lia.
Qed.

Lemma positions_length hs : forall k,
  length (positions k hs) = length (filter (fun h => h = true) hs).
Proof.
  induction hs as [|h hs IH]; intros k; [done|]. cbn [positions].
  destruct h.
  - rewrite filter_cons_True by done. simpl. by rewrite IH.
  - rewrite filter_cons_False by done. apply IH.
Qed.

End Snapshot.

(** X12.  The healthy snapshot is exact: [GetHealthyWorkers] returns, in
    ascending order and without repetition, the positions of precisely those
    connections whose health flag is true once every connection has been
    asked; the pool keeps its size, and [GetActiveWorkers] from the same
    state counts the same connections. *)
Theorem GetHealthyWorkers_exact p w :
  let workers := (WorkerPool.GetHealthyWorkers p w).1.1 in
  let p' := (WorkerPool.GetHealthyWorkers p w).1.2 in
  length (WorkerPool.workers_ p') = length (WorkerPool.workers_ p) /\
  (forall i, i ∈ workers <->
     exists c, WorkerPool.workers_ p' !! i = Some c /\
               WorkerConnection.is_healthy_ c = true) /\
  (forall ia ib a b, workers !! ia = Some a -> workers !! ib = Some b ->
     (ia < ib)%nat -> (a < b)%nat) /\
  (WorkerPool.GetActiveWorkers p w).1.1
    = CInt.wrap_int (Z.of_nat (length workers)).
Proof.
  unfold WorkerPool.GetHealthyWorkers, WorkerPool.GetActiveWorkers.
  pose proof (check_all_flags (WorkerPool.workers_ p) w) as [Hflags Hlen].
  destruct (WorkerPool.check_all (WorkerPool.workers_ p) w) as [[hs ws] w'].
  cbn [fst snd WorkerPool.set_workers WorkerPool.workers_] in *.
  split; [exact Hlen|]. split; [|split].
  - intros i. rewrite elem_of_positions, Nat.sub_0_r, Hflags, list_lookup_fmap.
    split.
    + intros [_ Hi]. destruct (ws !! i) as [c|]; [|discriminate].
      exists c. split; [reflexivity|]. by injection Hi.
    + intros (c & -> & Hc). split; [lia|]. cbn. by rewrite Hc.
  - apply positions_ascending.
  - by rewrite positions_length.
Qed.

Lemma GetHealthyWorkers_exact_witness :
  let p := (call_at WorkerConnection.PerformHealthCheck 1 Sample.three_workers
              (Sample.all_down 40000000000)).1 in
  (WorkerPool.GetHealthyWorkers p (Sample.all_up 41000000000)).1.1 = [0; 2]%nat /\
  (WorkerPool.GetActiveWorkers p (Sample.all_up 41000000000)).1.1
    = CInt.wrap_int
        (Z.of_nat (length (WorkerPool.GetHealthyWorkers p
                             (Sample.all_up 41000000000)).1.1)).
Proof.
  split; [vm_compute; reflexivity|].
  exact (proj2 (proj2 (proj2 (GetHealthyWorkers_exact _ _)))).
Defined.

Section PoolMembers.
Import WorkerConnection WorkerPool.

Lemma has_endpoint_spec e ws :
  has_endpoint e ws = true <-> e ∈ endpoint_ <$> ws.
Proof.
  unfold has_endpoint, GetEndpoint. rewrite existsb_exists, list_elem_of_fmap.
  split.
  - intros (c & Hc & He). apply String.eqb_eq in He. exists c.
    split; [done | by apply list_elem_of_In].
  - intros (c & -> & Hc). exists c.
    split; [by apply list_elem_of_In | apply String.eqb_refl].
Qed.

Lemma set_workers_id p : set_workers (workers_ p) p = p.
Proof. by destruct p. Qed.

(** What one "add" does: nothing when the endpoint is present, and
    otherwise nothing or one healthy connection to the endpoint appended. *)
Lemma try_add_cases e ws w :
  (e ∈ endpoint_ <$> ws /\ try_add e ws w = (ws, w)) \/
  ((e ∉ endpoint_ <$> ws) /\
   ((try_add e ws w).1 = ws \/
    exists c, (try_add e ws w).1 = ws ++ [c] /\
              endpoint_ c = e /\ is_healthy_ c = true)).
Proof.
  unfold try_add. destruct (has_endpoint e ws) eqn:Eh.
  - left. split; [by apply has_endpoint_spec | reflexivity].
  - right. split.
    { intros Hin. apply has_endpoint_spec in Hin. congruence. }
    pose proof (new_endpoint e w) as Hn.
    destruct (WorkerConnection.new e w) as [worker w1].
    pose proof (IsHealthy_endpoint worker w1) as He.
    pose proof (IsHealthy_result worker w1) as Hr.
    destruct (IsHealthy worker w1) as [[healthy worker'] w2].
    cbn [fst snd] in *. destruct healthy; [right | by left].
    exists worker'. split; [reflexivity|]. split; [congruence | assumption].
Qed.

Lemma try_add_NoDup e ws w :
  NoDup (endpoint_ <$> ws) -> NoDup (endpoint_ <$> (try_add e ws w).1).
Proof.
  intros Hnd.
  destruct (try_add_cases e ws w) as [[_ ->] | [Hnew [-> | (c & -> & Hc & _)]]];
    try assumption.
  rewrite fmap_app. apply NoDup_app. split; [assumption|].
  split; [|apply NoDup_singleton].
  intros x Hx Hx'. apply list_elem_of_singleton in Hx'.
  apply Hnew. rewrite <- Hc, <- Hx'. exact Hx.
Qed.

Lemma add_new_cases es : forall ws w,
  exists added,
    (add_new es ws w).1 = ws ++ added /\
    Forall (fun c => endpoint_ c ∈ es /\ is_healthy_ c = true) added /\
    (NoDup (endpoint_ <$> ws) -> NoDup (endpoint_ <$> (ws ++ added))).
Proof.
  induction es as [|e es IH]; intros ws w; cbn [add_new].
  - exists []. rewrite app_nil_r. by repeat split.
  - pose proof (try_add_cases e ws w) as Hc.
    pose proof (try_add_NoDup e ws w) as Hnd.
    destruct (try_add e ws w) as [ws' w']. cbn [fst] in *.
    destruct (IH ws' w') as (added & Hadd & Hall & Hnd').
    assert (Hall' : Forall (fun c => endpoint_ c ∈ e :: es /\ is_healthy_ c = true)
                      added).
    { eapply Forall_impl; [exact Hall|]. intros c [? ?]. split; [by right | done]. }
    destruct Hc as [[_ [= ->]] | [_ [-> | (c & -> & Hce & Hch)]]].
    + exists added. auto.
    + exists added. auto.
    + exists (c :: added). rewrite Hadd, <- app_assoc. split; [reflexivity|].
      split.
      * constructor; [|assumption]. split; [rewrite Hce; by left | assumption].
      * intros H. specialize (Hnd' (Hnd H)). by rewrite <- app_assoc in Hnd'.
Qed.

Lemma filter_endpoints_NoDup (P : WorkerConnection.t -> Prop)
    `{forall c, Decision (P c)} ws :
  NoDup (endpoint_ <$> ws) -> NoDup (endpoint_ <$> filter P ws).
Proof.
  intros Hnd. eapply sublist_NoDup; [exact Hnd|].
  apply fmap_sublist, sublist_filter.
Qed.

(** The members after discovery: the old ones whose endpoint was resolved,
    then healthy connections to resolved endpoints. *)
Lemma discover_cases es p w :
  exists added,
    workers_ (discover es p w).1
      = filter (fun c => GetEndpoint c ∈ es) (workers_ p) ++ added /\
    Forall (fun c => endpoint_ c ∈ es /\ is_healthy_ c = true) added /\
    (NoDup (endpoints p) -> NoDup (endpoints (discover es p w).1)) /\
    last_discovery_ (discover es p w).1 = now (discover es p w).2.
Proof.
  unfold discover, endpoints.
  destruct (add_new_cases es (filter (fun c => GetEndpoint c ∈ es) (workers_ p)) w)
    as (added & Hadd & Hall & Hnd).
  destruct (add_new es _ w) as [ws w']. cbn [fst snd] in *.
  exists added. cbn. split; [exact Hadd|]. split; [exact Hall|].
  split; [|reflexivity].
  intros H. rewrite Hadd. apply Hnd. by apply filter_endpoints_NoDup.
Qed.

End PoolMembers.

(** X13.  [AddWorker] is idempotent: for an endpoint that already has a
    connection it changes neither the pool nor the world (no connection is
    made, no probe sent), so adding the same endpoint twice leaves one
    connection.  It keeps the endpoints of the pool distinct, and a
    connection it appends is one to the given endpoint with its health flag
    set. *)
Theorem AddWorker_idempotent e p w :
  (e ∈ WorkerPool.endpoints p -> WorkerPool.AddWorker e p w = (p, w)) /\
  (forall v, e ∈ WorkerPool.endpoints (WorkerPool.AddWorker e p w).1 ->
     WorkerPool.AddWorker e (WorkerPool.AddWorker e p w).1 v
       = ((WorkerPool.AddWorker e p w).1, v)) /\
  (NoDup (WorkerPool.endpoints p) ->
     NoDup (WorkerPool.endpoints (WorkerPool.AddWorker e p w).1)) /\
  (forall c, c ∈ WorkerPool.workers_ (WorkerPool.AddWorker e p w).1 ->
     c ∈ WorkerPool.workers_ p \/
     (WorkerConnection.endpoint_ c = e /\ WorkerConnection.is_healthy_ c = true)).
Proof.
  assert (Hsame : forall q v, e ∈ WorkerPool.endpoints q ->
                    WorkerPool.AddWorker e q v = (q, v)).
  { intros q v Hin. unfold WorkerPool.AddWorker, WorkerPool.endpoints in *.
    destruct (try_add_cases e (WorkerPool.workers_ q) v) as [[_ ->] | [Hout _]];
      [by rewrite set_workers_id | contradiction]. }
  split; [apply Hsame|]. split; [intros v; apply Hsame|].
  unfold WorkerPool.AddWorker, WorkerPool.endpoints.
  pose proof (try_add_NoDup e (WorkerPool.workers_ p) w) as Hnd.
  pose proof (try_add_cases e (WorkerPool.workers_ p) w) as Hc.
  destruct (WorkerPool.try_add e (WorkerPool.workers_ p) w) as [ws w'].
  cbn [fst WorkerPool.set_workers WorkerPool.workers_] in *.
  split; [exact Hnd|]. intros c Hin.
  destruct Hc as [[_ [= ->]] | [_ [-> | (c' & -> & Hce & Hch)]]]; try by left.
  apply elem_of_app in Hin as [Hin | Hin]; [by left|].
  apply list_elem_of_singleton in Hin as ->. by right.
Qed.

Lemma AddWorker_idempotent_witness :
  WorkerPool.AddWorker "worker-b:50051" Sample.three_workers
      (Sample.all_down 2000000000)
    = (Sample.three_workers, Sample.all_down 2000000000).
Proof.
  apply (proj1 (AddWorker_idempotent "worker-b:50051" Sample.three_workers
                  (Sample.all_down 2000000000))).
  vm_compute. right. left.
Defined.

Section Find.
Import WorkerConnection WorkerPool.

Lemma find_from_None e ws : forall k,
  find_from k e ws = None <-> e ∉ endpoint_ <$> ws.
Proof.
  induction ws as [|c ws IH]; intros k; cbn [find_from].
  - split; [intros _ Hin; by apply elem_of_nil in Hin | done].
  - rewrite fmap_cons, not_elem_of_cons. unfold GetEndpoint.
    destruct (String.eqb_spec (endpoint_ c) e) as [Heq | Hne].
    + split; [discriminate | intros [Hne _]; congruence].
    + rewrite IH. split; [intros H; split; [congruence | done] | by intros [_ H]].
Qed.

Lemma find_from_Some e ws : forall k i,
  find_from k e ws = Some i ->
  (k <= i)%nat /\
  exists c, ws !! (i - k)%nat = Some c /\ endpoint_ c = e /\
    forall j c', (j < i - k)%nat -> ws !! j = Some c' -> endpoint_ c' <> e.
Proof.
  induction ws as [|c ws IH]; intros k i; cbn [find_from]; [discriminate|].
  unfold GetEndpoint.
  destruct (String.eqb_spec (endpoint_ c) e) as [Heq | Hne].
  - intros [= <-]. split; [lia|]. rewrite Nat.sub_diag. exists c.
    split; [reflexivity|]. split; [assumption|]. intros j c' Hj. lia.
  - intros Hfind. apply IH in Hfind as (Hk & c0 & Hc0 & He & Hfirst).
    split; [lia|]. exists c0.
    replace (i - k)%nat with (S (i - S k)) by lia. split; [exact Hc0|].
    split; [assumption|].
    intros [|j] c' Hj; cbn; [by intros [= <-] | intros Hl].
    eapply Hfirst; [|exact Hl]. lia.
Qed.

End Find.

Lemma filter_keeps_all {A} (P : A -> Prop) `{forall x, Decision (P x)} (l : list A) :
  Forall P l -> filter P l = l.
Proof.
  induction 1 as [|x l Hx Hl IH]; [reflexivity|].
  by rewrite filter_cons_True, IH.
Qed.

(** X14.  [FindWorker] returns the first connection with the given
    endpoint, and nothing exactly when no connection has it.
    [RemoveWorker] removes every connection with the endpoint and no other:
    afterwards [FindWorker] finds nothing, removing again changes nothing,
    and removing an endpoint that is not in the pool changes nothing. *)
Theorem FindWorker_RemoveWorker e p :
  (WorkerPool.FindWorker e p = None <-> e ∉ WorkerPool.endpoints p) /\
  (forall i, WorkerPool.FindWorker e p = Some i ->
     exists c, WorkerPool.workers_ p !! i = Some c /\
       WorkerConnection.endpoint_ c = e /\
       forall j c', (j < i)%nat -> WorkerPool.workers_ p !! j = Some c' ->
         WorkerConnection.endpoint_ c' <> e) /\
  WorkerPool.FindWorker e (WorkerPool.RemoveWorker e p) = None /\
  WorkerPool.RemoveWorker e (WorkerPool.RemoveWorker e p)
    = WorkerPool.RemoveWorker e p /\
  (e ∉ WorkerPool.endpoints p -> WorkerPool.RemoveWorker e p = p) /\
  (forall c, c ∈ WorkerPool.workers_ (WorkerPool.RemoveWorker e p) <->
     c ∈ WorkerPool.workers_ p /\ WorkerConnection.endpoint_ c <> e).
Proof.
  assert (Hmem : forall c, c ∈ WorkerPool.workers_ (WorkerPool.RemoveWorker e p) <->
                   c ∈ WorkerPool.workers_ p /\ WorkerConnection.endpoint_ c <> e).
  { intros c. unfold WorkerPool.RemoveWorker, WorkerConnection.GetEndpoint.
    cbn [WorkerPool.set_workers WorkerPool.workers_].
    rewrite list_elem_of_filter, negb_true_iff, String.eqb_neq. tauto. }
  split; [apply find_from_None|]. split.
  { intros i Hi. apply find_from_Some in Hi as (_ & c & Hc & He & Hfirst).
    rewrite Nat.sub_0_r in *. eauto. }
  split.
  { apply find_from_None. intros Hin.
    apply (RemoveWorker_endpoints e p e) in Hin. tauto. }
  assert (Hid : forall q, e ∉ WorkerPool.endpoints q -> WorkerPool.RemoveWorker e q = q).
  { intros q Hout. unfold WorkerPool.RemoveWorker.
    rewrite filter_keeps_all; [apply set_workers_id|].
    apply Forall_forall. intros c Hc.
    apply negb_true_iff, String.eqb_neq. intros Heq. apply Hout.
    unfold WorkerPool.endpoints. apply list_elem_of_fmap. exists c.
    split; [by rewrite <- Heq | assumption]. }
  split; [|split; [apply Hid | exact Hmem]].
  apply Hid. intros Hin. apply (RemoveWorker_endpoints e p e) in Hin. tauto.
Qed.

Lemma FindWorker_RemoveWorker_witness :
  WorkerPool.FindWorker "worker-b:50051" Sample.three_workers = Some 1%nat /\
  WorkerPool.RemoveWorker "worker-z:50051" Sample.three_workers
    = Sample.three_workers.
Proof.
  split; [vm_compute; reflexivity|].
  apply (proj1 (proj2 (proj2 (proj2 (proj2
           (FindWorker_RemoveWorker "worker-z:50051" Sample.three_workers)))))).
  apply (proj1 (FindWorker_RemoveWorker "worker-z:50051" Sample.three_workers)).
  vm_compute. reflexivity.
Defined.

(** X15.  After discovery every member's endpoint is one of the resolved
    endpoints, and every member is either an old member or a connection
    whose health flag is set; distinct endpoints stay distinct, and the
    discovery time is the clock reading at the end of the discovery. *)
Theorem discover_members es p w :
  (forall e, e ∈ WorkerPool.endpoints (WorkerPool.discover es p w).1 -> e ∈ es) /\
  (forall c, c ∈ WorkerPool.workers_ (WorkerPool.discover es p w).1 ->
     WorkerConnection.endpoint_ c ∈ es /\
     (c ∈ WorkerPool.workers_ p \/ WorkerConnection.is_healthy_ c = true)) /\
  (NoDup (WorkerPool.endpoints p) ->
     NoDup (WorkerPool.endpoints (WorkerPool.discover es p w).1)) /\
  WorkerPool.last_discovery_ (WorkerPool.discover es p w).1
    = now (WorkerPool.discover es p w).2.
Proof.
  destruct (discover_cases es p w) as (added & Hws & Hall & Hnd & Hlast).
  assert (Hmem : forall c, c ∈ WorkerPool.workers_ (WorkerPool.discover es p w).1 ->
     WorkerConnection.endpoint_ c ∈ es /\
     (c ∈ WorkerPool.workers_ p \/ WorkerConnection.is_healthy_ c = true)).
  { intros c. rewrite Hws, elem_of_app, list_elem_of_filter.
    intros [[He Hc] | Hc]; [by auto|].
    rewrite Forall_forall in Hall. destruct (Hall c Hc). auto. }
  split; [|split; [exact Hmem | split; [exact Hnd | exact Hlast]]].
  intros e He. unfold WorkerPool.endpoints in He.
  apply list_elem_of_fmap in He as (c & -> & Hc). by apply Hmem.
Qed.

Lemma discover_members_witness :
  NoDup (WorkerPool.endpoints
           (WorkerPool.discover ["worker-a:50051"; "worker-d:50051"]
              Sample.three_workers (Sample.all_up 2000000000)).1).
Proof.
  apply (proj1 (proj2 (proj2 (discover_members ["worker-a:50051"; "worker-d:50051"]
                                Sample.three_workers (Sample.all_up 2000000000))))).
  apply (bool_decide_unpack _). vm_compute. reflexivity.
Defined.

(** X16.  [DiscoverWorkers] resolves one endpoint only, that of the worker
    service: afterwards every member of the pool is connected to
    service.namespace.svc.cluster.local:port, so connections that
    [AddWorker] made to other endpoints are gone, and a pool with distinct
    endpoints has at most one member. *)
Theorem DiscoverWorkers_single_endpoint p w :
  (forall e, e ∈ WorkerPool.endpoints (WorkerPool.DiscoverWorkers p w).1 ->
     e = WorkerPool.worker_service_name_ p +:+ "."
           +:+ WorkerPool.worker_namespace_ p +:+ ".svc.cluster.local:"
           +:+ default "50051" (WORKER_PORT w)) /\
  (NoDup (WorkerPool.endpoints p) ->
     (length (WorkerPool.workers_ (WorkerPool.DiscoverWorkers p w).1) <= 1)%nat).
Proof.
  unfold WorkerPool.DiscoverWorkers.
  destruct (discover_cases (WorkerPool.GetWorkerEndpoints p w) p w)
    as (added & Hws & Hall & Hnd & _).
  assert (Hone : forall e,
            e ∈ WorkerPool.endpoints
                  (WorkerPool.discover (WorkerPool.GetWorkerEndpoints p w) p w).1 ->
            e = WorkerPool.worker_service_name_ p +:+ "."
                  +:+ WorkerPool.worker_namespace_ p +:+ ".svc.cluster.local:"
                  +:+ default "50051" (WORKER_PORT w)).
  { intros e He. unfold WorkerPool.endpoints in He. rewrite Hws in He.
    apply list_elem_of_fmap in He as (c & -> & Hc).
    apply elem_of_app in Hc as [Hc | Hc].
    - apply list_elem_of_filter in Hc as [He _].
      unfold WorkerPool.GetWorkerEndpoints, WorkerConnection.GetEndpoint in He.
      by apply list_elem_of_singleton in He.
    - rewrite Forall_forall in Hall. destruct (Hall c Hc) as [He _].
      unfold WorkerPool.GetWorkerEndpoints in He.
      by apply list_elem_of_singleton in He. }
  split; [exact Hone|]. intros Hp. specialize (Hnd Hp).
  assert (Hlen : length (WorkerPool.endpoints
                   (WorkerPool.discover (WorkerPool.GetWorkerEndpoints p w) p w).1)
                 = length (WorkerPool.workers_
                   (WorkerPool.discover (WorkerPool.GetWorkerEndpoints p w) p w).1))
    by apply length_fmap.
  rewrite <- Hlen.
  destruct (WorkerPool.endpoints _) as [|e1 [|e2 rest]];
    [simpl; lia | simpl; lia |].
  exfalso. apply NoDup_cons in Hnd as [Hnotin _]. apply Hnotin.
  rewrite (Hone e1) by left. rewrite (Hone e2) by (right; left). left.
Qed.

Lemma DiscoverWorkers_single_endpoint_witness :
  (length (WorkerPool.workers_
             (WorkerPool.DiscoverWorkers Sample.three_workers
                (Sample.all_up 2000000000)).1) <= 1)%nat.
Proof.
  apply (proj2 (DiscoverWorkers_single_endpoint Sample.three_workers
                  (Sample.all_up 2000000000))).
  apply (bool_decide_unpack _). vm_compute. reflexivity.
Defined.

(** Manually added workers do not survive a discovery: the three of the
    sample pool are replaced by the one connection to the service. *)
Example discovery_drops_added_workers :
  WorkerPool.endpoints
    (WorkerPool.DiscoverWorkers Sample.three_workers (Sample.all_up 2000000000)).1
  = ["raycast-worker-service.default.svc.cluster.local:50051"].
Proof. vm_compute. reflexivity. Qed.

Lemma elapsed_seconds_ge (d n : Z) :
  0 <= d -> (Z.quot d 1000000000 >= n <-> d >= n * 1000000000).
Proof.
  intros Hd. rewrite Z.quot_div_nonneg by lia.
  pose proof (Z.div_mod d 1000000000 ltac:(lia)) as Hdm.
  pose proof (Z.mod_pos_bound d 1000000000 ltac:(lia)) as Hm.
  split; intros H; nia.
Qed.

(** X17.  After a discovery, [RefreshWorkers] does nothing (no lookup, no
    probe, pool and world unchanged) until the discovery interval has
    passed in full, and from then on it is a discovery. *)
Theorem RefreshWorkers_waits p w v :
  now (WorkerPool.DiscoverWorkers p w).2 <= now v ->
  (now v < now (WorkerPool.DiscoverWorkers p w).2
           + WorkerPool.discovery_interval_ p * 1000000000 ->
     WorkerPool.RefreshWorkers (WorkerPool.DiscoverWorkers p w).1 v
       = ((WorkerPool.DiscoverWorkers p w).1, v)) /\
  (now (WorkerPool.DiscoverWorkers p w).2
     + WorkerPool.discovery_interval_ p * 1000000000 <= now v ->
     WorkerPool.RefreshWorkers (WorkerPool.DiscoverWorkers p w).1 v
       = WorkerPool.DiscoverWorkers (WorkerPool.DiscoverWorkers p w).1 v).
Proof.
  intros Hafter.
  destruct (discover_cases (WorkerPool.GetWorkerEndpoints p w) p w)
    as (_ & _ & _ & _ & Hlast).
  assert (Hint : WorkerPool.discovery_interval_ (WorkerPool.DiscoverWorkers p w).1
                 = WorkerPool.discovery_interval_ p).
  { unfold WorkerPool.DiscoverWorkers, WorkerPool.discover.
    destruct (WorkerPool.add_new _ _ w). reflexivity. }
  unfold WorkerPool.RefreshWorkers, WorkerPool.ShouldRefreshWorkers.
  fold (WorkerPool.DiscoverWorkers p w) in Hlast. rewrite Hlast, Hint.
  pose proof (elapsed_seconds_ge (now v - now (WorkerPool.DiscoverWorkers p w).2)
                (WorkerPool.discovery_interval_ p) ltac:(lia)) as Hge.
  split; intros H;
    destruct (Z.geb_spec
                (Z.quot (now v - now (WorkerPool.DiscoverWorkers p w).2) 1000000000)
                (WorkerPool.discovery_interval_ p)) as [Hq|Hq];
    try reflexivity; exfalso; lia.
Qed.

Lemma RefreshWorkers_waits_witness :
  WorkerPool.RefreshWorkers
    (WorkerPool.DiscoverWorkers Sample.three_workers (Sample.all_up 2000000000)).1
    (Sample.all_down 31000000000)
  = ((WorkerPool.DiscoverWorkers Sample.three_workers (Sample.all_up 2000000000)).1,
     Sample.all_down 31000000000).
Proof.
  apply (proj1 (RefreshWorkers_waits Sample.three_workers (Sample.all_up 2000000000)
                  (Sample.all_down 31000000000)
                  ltac:(vm_compute; discriminate))).
  vm_compute. reflexivity.
Defined.

(** * Further properties of the load balancer *)

Section Selection.
Import WorkerConnection WorkerPool LoadBalancer.

(** The snapshot names the connections whose flag is set, in ascending
    order. *)
Lemma snapshot_facts p w :
  (forall i, i ∈ (GetHealthyWorkers p w).1.1 <->
     exists c, workers_ (GetHealthyWorkers p w).1.2 !! i = Some c /\
               is_healthy_ c = true) /\
  (forall ia ib a b,
     (GetHealthyWorkers p w).1.1 !! ia = Some a ->
     (GetHealthyWorkers p w).1.1 !! ib = Some b -> (ia < ib)%nat -> (a < b)%nat).
Proof.
  unfold GetHealthyWorkers.
  pose proof (check_all_flags (workers_ p) w) as [Hflags Hlen].
  destruct (check_all (workers_ p) w) as [[hs ws] w'].
  cbn [fst snd set_workers workers_] in *. split.
  - intros i. rewrite elem_of_positions, Nat.sub_0_r, Hflags, list_lookup_fmap.
    split.
    + intros [_ Hi]. destruct (ws !! i) as [c|]; [|discriminate].
      exists c. split; [reflexivity|]. by injection Hi.
    + intros (c & -> & Hc). split; [lia|]. cbn. by rewrite Hc.
  - apply positions_ascending.
Qed.

(** Dereferencing pointers that are all valid. *)
Lemma derefs_valid p workers :
  (forall i, i ∈ workers -> is_Some (workers_ p !! i)) ->
  exists cs, derefs p workers = Ok cs /\
    length cs = length workers /\
    forall k i, workers !! k = Some i -> cs !! k = workers_ p !! i.
Proof.
  induction workers as [|i workers IH]; intros Hvalid; cbn [derefs].
  - exists []. repeat split. intros k i Hk. done.
  - destruct (Hvalid i ltac:(left)) as [c Hc]. unfold deref. rewrite Hc.
    destruct IH as (cs & -> & Hlen & Hcs); [intros j Hj; apply Hvalid; by right|].
    exists (c :: cs). cbn. split; [reflexivity|]. split; [by rewrite Hlen|].
    intros [|k] j; cbn; [by intros [= <-] | apply Hcs].
Qed.

(** [std::min_element]: the first position holding a least key. *)
Lemma min_element_from_spec (keys : list Z) : forall pre best kbest,
  pre !! best = Some kbest ->
  (forall j kj, pre !! j = Some kj -> kbest <= kj /\ ((j < best)%nat -> kbest < kj)) ->
  exists km,
    (pre ++ keys) !! min_element_from Z.ltb best kbest (length pre) keys = Some km /\
    forall j kj, (pre ++ keys) !! j = Some kj ->
      km <= kj /\
      ((j < min_element_from Z.ltb best kbest (length pre) keys)%nat -> km < kj).
Proof.
  induction keys as [|k keys IH]; intros pre best kbest Hk Hmin;
    cbn [min_element_from].
  - rewrite app_nil_r. eauto.
  - assert (Hpre : length (pre ++ [k]) = S (length pre))
      by (rewrite length_app; simpl; lia).
    apply lookup_lt_Some in Hk as Hbest.
    assert (Hlast : forall j kj, (pre ++ [k]) !! j = Some kj ->
              pre !! j = Some kj \/ (j = length pre /\ kj = k)).
    { intros j kj Hj. apply lookup_app_Some in Hj as [Hj | [Hle Hj]]; [by left|].
      right. destruct (j - length pre)%nat eqn:E; [|destruct n; discriminate].
      injection Hj as <-. split; [lia | reflexivity]. }
    destruct (Z.ltb_spec k kbest) as [Hlt | Hge].
    + pose proof (IH (pre ++ [k]) (length pre) k) as H.
      rewrite Hpre, <- app_assoc in H. cbn [app] in H. apply H.
      * by apply list_lookup_middle.
      * intros j kj Hj. apply Hlast in Hj as [Hj | [-> ->]]; [|lia].
        destruct (Hmin j kj Hj). apply lookup_lt_Some in Hj. lia.
    + pose proof (IH (pre ++ [k]) best kbest) as H.
      rewrite Hpre, <- app_assoc in H. cbn [app] in H. apply H.
      * by apply lookup_app_l_Some.
      * intros j kj Hj. apply Hlast in Hj as [Hj | [-> ->]]; [by apply Hmin|].
        split; lia.
Qed.

Lemma GetHealthyWorkers_endpoints p w :
  endpoints (GetHealthyWorkers p w).1.2 = endpoints p.
Proof.
  unfold GetHealthyWorkers, endpoints.
  pose proof (check_all_endpoints (workers_ p) w) as H.
  destruct (check_all _ w) as [[hs ws] w']. exact H.
Qed.

Lemma at_index_Some (workers : list nat) (m i : nat) :
  workers !! m = Some i -> at_index workers (Z.of_nat m) = Ok i.
Proof.
  intros Hm. unfold at_index. destruct (Z.ltb_spec (Z.of_nat m) 0); [lia|].
  by rewrite Nat2Z.id, Hm.
Qed.

(** What [SelectLeastLoaded] returns. *)
Lemma SelectLeastLoaded_cases lb p w :
  ((GetHealthyWorkers p w).1.1 = [] /\
   SelectLeastLoaded lb p w
     = (Ok None, lb, (GetHealthyWorkers p w).1.2, (GetHealthyWorkers p w).2)) \/
  (exists i c,
     SelectLeastLoaded lb p w
       = (Ok (Some i), lb, (GetHealthyWorkers p w).1.2, (GetHealthyWorkers p w).2) /\
     i ∈ (GetHealthyWorkers p w).1.1 /\
     workers_ (GetHealthyWorkers p w).1.2 !! i = Some c /\
     is_healthy_ c = true /\
     forall j c', j ∈ (GetHealthyWorkers p w).1.1 ->
       workers_ (GetHealthyWorkers p w).1.2 !! j = Some c' ->
       active_jobs_ c <= active_jobs_ c' /\
       ((j < i)%nat -> active_jobs_ c < active_jobs_ c')).
Proof.
  unfold SelectLeastLoaded.
  pose proof (snapshot_facts p w) as [Hmem Hasc].
  destruct (GetHealthyWorkers p w) as [[workers p'] w']. cbn [fst snd] in *.
  destruct (derefs_valid p' workers) as (cs & Hd & Hlen & Hcs).
  { intros i Hi. apply Hmem in Hi as (c & Hc & _). eauto. }
  rewrite Hd. cbn [mbind outcome_bind obind].
  destruct cs as [|c0 cs'].
  { left. destruct workers; [|discriminate]. split; reflexivity. }
  right. rewrite fmap_cons.
  destruct (min_element_from_spec (GetActiveJobs <$> cs') [GetActiveJobs c0]
              0%nat (GetActiveJobs c0) eq_refl) as (km & Hkm & Hmin).
  { intros [|j] kj; cbn; [intros [= <-]; lia | discriminate]. }
  cbn [length app] in Hkm, Hmin.
  set (m := min_element_from Z.ltb 0 (GetActiveJobs c0) 1 (GetActiveJobs <$> cs')) in *.
  change (GetActiveJobs c0 :: (GetActiveJobs <$> cs'))
    with (GetActiveJobs <$> (c0 :: cs')) in Hkm, Hmin.
  rewrite list_lookup_fmap in Hkm.
  destruct ((c0 :: cs') !! m) as [c|] eqn:Ec; [|discriminate].
  injection Hkm as <-.
  apply lookup_lt_Some in Ec as Hm. rewrite Hlen in Hm.
  destruct (workers !! m) as [i|] eqn:Ei; [|apply lookup_ge_None in Ei; lia].
  exists i, c. rewrite (at_index_Some workers m i Ei).
  rewrite (Hcs m i Ei) in Ec.
  split; [reflexivity|]. split; [by eapply list_elem_of_lookup_2|].
  split; [exact Ec|].
  split. { destruct (proj1 (Hmem i)) as (c1 & Hc1 & Hh);
             [by eapply list_elem_of_lookup_2 | congruence]. }
  intros j c' Hj Hc'. apply list_elem_of_lookup in Hj as [kj Hkj].
  assert (Hkey : (GetActiveJobs <$> (c0 :: cs')) !! kj = Some (GetActiveJobs c')).
  { rewrite list_lookup_fmap, (Hcs kj j Hkj), Hc'. reflexivity. }
  destruct (Hmin kj _ Hkey) as [Hle Hlt]. unfold GetActiveJobs in *.
  split; [exact Hle|]. intros Hji. apply Hlt.
  destruct (decide (kj < m)%nat) as [|Hge]; [assumption|]. exfalso.
  destruct (decide (kj = m)) as [-> | Hne]; [rewrite Ei in Hkj; injection Hkj; lia|].
  pose proof (Hasc m kj i j Ei Hkj ltac:(lia)). lia.
Qed.

(** What [SelectRoundRobin] returns. *)
Lemma SelectRoundRobin_cases lb p w :
  ((GetHealthyWorkers p w).1.1 = [] /\
   SelectRoundRobin lb p w
     = (Ok None, lb, (GetHealthyWorkers p w).1.2, (GetHealthyWorkers p w).2)) \/
  (exists i c,
     SelectRoundRobin lb p w
       = (Ok (Some i), (fetch_add_index lb).2,
          (GetHealthyWorkers p w).1.2, (GetHealthyWorkers p w).2) /\
     (GetHealthyWorkers p w).1.1
       !! Z.to_nat (round_robin_index_ lb
                      mod Z.of_nat (length (GetHealthyWorkers p w).1.1)) = Some i /\
     workers_ (GetHealthyWorkers p w).1.2 !! i = Some c /\
     is_healthy_ c = true).
Proof.
  unfold SelectRoundRobin.
  pose proof (snapshot_facts p w) as [Hmem _].
  destruct (GetHealthyWorkers p w) as [[workers p'] w']. cbn [fst snd] in *.
  destruct workers as [|i0 rest]; [left; by split|]. right.
  remember (i0 :: rest) as workers eqn:Ew.
  assert (Hpick : round_robin_pick workers lb
                  = (Some <$> at_index workers
                       (round_robin_index_ lb mod Z.of_nat (length workers)),
                     (fetch_add_index lb).2)) by (subst; reflexivity).
  rewrite Hpick.
  assert (HN : 0 < Z.of_nat (length workers)) by (rewrite Ew; simpl; lia).
  pose proof (Z.mod_pos_bound (round_robin_index_ lb) _ HN) as Hidx.
  destruct (workers !! Z.to_nat (round_robin_index_ lb mod Z.of_nat (length workers)))
    as [i|] eqn:Ei; [|apply lookup_ge_None in Ei; lia].
  destruct (proj1 (Hmem i)) as (c & Hc & Hh); [by eapply list_elem_of_lookup_2|].
  exists i, c. split; [|by repeat split].
  pose proof (at_index_Some workers _ i Ei) as Hat.
  rewrite Z2Nat.id in Hat by lia. by rewrite Hat.
Qed.

End Selection.

(** X18.  [SelectLeastLoaded] returns nobody exactly when the healthy
    snapshot is empty; otherwise it returns a connection of the snapshot
    (health flag set) whose active-job count is no greater than that of any
    other connection of the snapshot and strictly smaller than that of
    every earlier one: the first of the least loaded; when all counts are
    equal that is the first connection of the snapshot.  It changes nothing
    in the balancer. *)
Theorem SelectLeastLoaded_minimal lb p w :
  ((WorkerPool.GetHealthyWorkers p w).1.1 = [] /\
   LoadBalancer.SelectLeastLoaded lb p w
     = (Ok None, lb, (WorkerPool.GetHealthyWorkers p w).1.2,
        (WorkerPool.GetHealthyWorkers p w).2)) \/
  (exists i c,
     LoadBalancer.SelectLeastLoaded lb p w
       = (Ok (Some i), lb, (WorkerPool.GetHealthyWorkers p w).1.2,
          (WorkerPool.GetHealthyWorkers p w).2) /\
     i ∈ (WorkerPool.GetHealthyWorkers p w).1.1 /\
     WorkerPool.workers_ (WorkerPool.GetHealthyWorkers p w).1.2 !! i = Some c /\
     WorkerConnection.is_healthy_ c = true /\
     (forall j c', j ∈ (WorkerPool.GetHealthyWorkers p w).1.1 ->
       WorkerPool.workers_ (WorkerPool.GetHealthyWorkers p w).1.2 !! j = Some c' ->
       WorkerConnection.active_jobs_ c <= WorkerConnection.active_jobs_ c' /\
       ((j < i)%nat ->
          WorkerConnection.active_jobs_ c < WorkerConnection.active_jobs_ c')) /\
     (forall n, (forall j c', j ∈ (WorkerPool.GetHealthyWorkers p w).1.1 ->
          WorkerPool.workers_ (WorkerPool.GetHealthyWorkers p w).1.2 !! j = Some c' ->
          WorkerConnection.active_jobs_ c' = n) ->
        head (WorkerPool.GetHealthyWorkers p w).1.1 = Some i)).
Proof.
  destruct (SelectLeastLoaded_cases lb p w)
    as [Hnone | (i & c & Hsel & Hi & Hc & Hh & Hmin)]; [by left|].
  right. exists i, c. do 4 (split; [assumption|]). split; [exact Hmin|].
  intros n Hequal.
  pose proof (snapshot_facts p w) as [Hmem Hasc].
  destruct ((WorkerPool.GetHealthyWorkers p w).1.1) as [|i0 rest] eqn:Ew;
    [by apply elem_of_nil in Hi|].
  cbn [head]. f_equal.
  destruct (proj1 (Hmem i0) ltac:(left)) as (c0 & Hc0 & _).
  destruct (Hmin i0 c0 ltac:(left) Hc0) as [_ Hlt].
  rewrite (Hequal i0 c0 ltac:(left) Hc0), (Hequal i c Hi Hc) in Hlt.
  apply list_elem_of_lookup in Hi as [[|k] Hk]; [by injection Hk|].
  pose proof (Hasc 0%nat (S k) i0 i eq_refl Hk ltac:(lia)). lia.
Qed.

(** X19.  With the round-robin or the least-loaded strategy,
    [GetNextWorker] never returns a dangling pointer: it returns nobody, and
    then leaves the round-robin index where it was, or a connection of the
    pool whose health flag is set.  In both cases the pool keeps its
    endpoints and the balancer its strategy. *)
Theorem GetNextWorker_returns_healthy_member lb p w :
  LoadBalancer.strategy_ lb = ROUND_ROBIN \/
  LoadBalancer.strategy_ lb = LEAST_LOADED ->
  ((LoadBalancer.GetNextWorker lb p w).1.1.1 = Ok None /\
   LoadBalancer.round_robin_index_ (LoadBalancer.GetNextWorker lb p w).1.1.2
     = LoadBalancer.round_robin_index_ lb
   \/ exists i c,
        (LoadBalancer.GetNextWorker lb p w).1.1.1 = Ok (Some i) /\
        WorkerPool.workers_ (LoadBalancer.GetNextWorker lb p w).1.2 !! i = Some c /\
        WorkerConnection.is_healthy_ c = true) /\
  WorkerPool.endpoints (LoadBalancer.GetNextWorker lb p w).1.2
    = WorkerPool.endpoints p /\
  LoadBalancer.strategy_ (LoadBalancer.GetNextWorker lb p w).1.1.2
    = LoadBalancer.strategy_ lb.
Proof.
  intros Hs. unfold LoadBalancer.GetNextWorker.
  pose proof (GetHealthyWorkers_endpoints p w) as He1.
  destruct (WorkerPool.GetHealthyWorkers p w) as [[ws1 p1] w1]. cbn [fst snd] in He1.
  destruct ws1 as [|i0 rest]; [cbn; by auto|].
  cbn [LoadBalancer.strategy_ LoadBalancer.set_random_distribution].
  set (lb1 := LoadBalancer.set_random_distribution _ lb).
  pose proof (GetHealthyWorkers_endpoints p1 w1) as He2.
  destruct Hs as [Hs | Hs]; rewrite Hs.
  - destruct (SelectRoundRobin_cases lb1 p1 w1)
      as [[_ ->] | (i & c & -> & _ & Hc & Hh)]; cbn [fst snd];
      (split; [|split; [congruence | assumption]]).
    + by left.
    + right. eauto.
  - destruct (SelectLeastLoaded_cases lb1 p1 w1)
      as [[_ ->] | (i & c & -> & _ & Hc & Hh & _)]; cbn [fst snd];
      (split; [|split; [congruence | assumption]]).
    + by left.
    + right. eauto.
Qed.

Lemma GetNextWorker_returns_healthy_member_witness :
  let r := LoadBalancer.GetNextWorker (LoadBalancer.new LEAST_LOADED)
             Sample.three_workers (Sample.all_up 2000000000) in
  (r.1.1.1 = Ok None /\
   LoadBalancer.round_robin_index_ r.1.1.2
     = LoadBalancer.round_robin_index_ (LoadBalancer.new LEAST_LOADED)
   \/ exists i c,
        r.1.1.1 = Ok (Some i) /\
        WorkerPool.workers_ r.1.2 !! i = Some c /\
        WorkerConnection.is_healthy_ c = true) /\
  WorkerPool.endpoints r.1.2 = WorkerPool.endpoints Sample.three_workers /\
  LoadBalancer.strategy_ r.1.1.2 = LEAST_LOADED.
Proof.
  exact (GetNextWorker_returns_healthy_member (LoadBalancer.new LEAST_LOADED)
           Sample.three_workers (Sample.all_up 2000000000) (or_intror eq_refl)).
Defined.

(** * The master's request path *)

Section MasterPath.
Import WorkerConnection WorkerPool.

Lemma ProcessRenderRequest_endpoint c w request response :
  endpoint_ (WorkerConnection.ProcessRenderRequest c w request response).1.2
    = endpoint_ c.
Proof.
  unfold WorkerConnection.ProcessRenderRequest.
  destruct (stub_ c); cbn [negb]; [|reflexivity].
  destruct (render_rpc _ _ _ _) as [st r|what]; [destruct (ok st)|]; reflexivity.
Qed.

(** A request that did not end in an ok status leaves the connection
    without a stub or flagged unhealthy. *)
Lemma ProcessRenderRequest_failed c w request response :
  ok (WorkerConnection.ProcessRenderRequest c w request response).1.1.1 = false ->
  stub_ (WorkerConnection.ProcessRenderRequest c w request response).1.2 = false \/
  is_healthy_ (WorkerConnection.ProcessRenderRequest c w request response).1.2
    = false.
Proof.
  unfold WorkerConnection.ProcessRenderRequest.
  destruct (stub_ c) eqn:Es; cbn [negb]; [|by left].
  destruct (render_rpc _ _ _ _) as [st r|what]; cbn [fst snd].
  - intros ->. by right.
  - intros _. by right.
Qed.

Lemma store_endpoints i c c0 p :
  workers_ p !! i = Some c0 -> endpoint_ c = endpoint_ c0 ->
  endpoints (store i c p) = endpoints p.
Proof.
  intros Hi He. unfold store, endpoints. cbn [set_workers workers_].
  rewrite list_fmap_insert, He. apply list_insert_id.
  by rewrite list_lookup_fmap, Hi.
Qed.

Lemma store_lookup i c c0 p :
  workers_ p !! i = Some c0 -> workers_ (store i c p) !! i = Some c.
Proof.
  intros Hi. unfold store. cbn [set_workers workers_].
  apply list_lookup_insert_eq. by eapply lookup_lt_Some.
Qed.

Lemma CalculateWorkerWeight_endpoint c w :
  endpoint_ (LoadBalancer.CalculateWorkerWeight c w).1.2 = endpoint_ c.
Proof.
  unfold LoadBalancer.CalculateWorkerWeight.
  pose proof (IsHealthy_endpoint c w) as H.
  by destruct (IsHealthy c w) as [[h c'] w'].
Qed.

Lemma weigh_endpoints workers : forall p w,
  endpoints (LoadBalancer.weigh workers p w).1.2 = endpoints p.
Proof.
  induction workers as [|i rest IH]; intros p w; [reflexivity|].
  cbn [LoadBalancer.weigh]. unfold deref.
  destruct (workers_ p !! i) as [c|] eqn:Ei; cbn [of_option]; [|reflexivity].
  pose proof (CalculateWorkerWeight_endpoint c w) as Hc.
  destruct (LoadBalancer.CalculateWorkerWeight c w) as [[k c'] w1].
  cbn [fst snd] in Hc.
  specialize (IH (store i c' p) w1).
  destruct (LoadBalancer.weigh rest (store i c' p) w1) as [[res p2] w2].
  cbn [fst snd] in *. rewrite IH. by eapply store_endpoints.
Qed.

(** Choosing a worker never changes who is in the pool, whatever the
    strategy and whatever the outcome. *)
Lemma GetNextWorker_endpoints lb p w :
  endpoints (LoadBalancer.GetNextWorker lb p w).1.2 = endpoints p.
Proof.
  unfold LoadBalancer.GetNextWorker.
  pose proof (GetHealthyWorkers_endpoints p w) as He1.
  destruct (GetHealthyWorkers p w) as [[ws1 p1] w1]. cbn [fst snd] in He1.
  destruct ws1 as [|i0 rest]; [exact He1|].
  rewrite <- He1. clear He1.
  set (lb1 := LoadBalancer.set_random_distribution _ lb). clearbody lb1.
  pose proof (GetHealthyWorkers_endpoints p1 w1) as He2.
  destruct (LoadBalancer.strategy_ lb1);
    unfold LoadBalancer.SelectRoundRobin, LoadBalancer.SelectLeastLoaded,
      LoadBalancer.SelectRandom, LoadBalancer.SelectWeightedRoundRobin;
    destruct (GetHealthyWorkers p1 w1) as [[ws2 p2] w2]; cbn [fst snd] in He2.
  - by destruct (LoadBalancer.round_robin_pick ws2 lb1).
  - exact He2.
  - destruct ws2; [exact He2|].
    by destruct (LoadBalancer.random_distribution_ lb1).
  - destruct ws2 as [|j ws2]; [exact He2|].
    pose proof (weigh_endpoints (j :: ws2) p2 w2) as Hw.
    destruct (LoadBalancer.weigh (j :: ws2) p2 w2) as [[res p3] w3].
    cbn [fst snd] in *. by rewrite Hw.
Qed.

Lemma worker_infos_entries ws : forall w,
  endpoint <$> (worker_infos ws w).1.1 = endpoint_ <$> ws /\
  Forall (fun info =>
            worker_id info = 0 /\
            (wi_status info = "healthy" \/ wi_status info = "unhealthy"))
         (worker_infos ws w).1.1.
Proof.
  induction ws as [|c ws IH]; intros w; [by split|]. cbn [worker_infos].
  pose proof (IsHealthy_endpoint c w) as Hc.
  destruct (IsHealthy c w) as [[h c'] w1].
  specialize (IH w1). destruct (worker_infos ws w1) as [[infos ws'] w2].
  cbn [fst snd] in *. destruct IH as [IHe IHf]. split.
  - rewrite !fmap_cons, IHe. cbn [endpoint]. unfold GetEndpoint. by rewrite Hc.
  - constructor; [|exact IHf]. cbn [worker_id wi_status].
    split; [reflexivity|]. destruct h; by auto.
Qed.

End MasterPath.

(** X20.  Serving a request never changes who is in the pool: after
    [ProcessRaycastRequest], whatever the strategy and whatever the outcome
    (no worker, a served request, a failed one, an exception), the pool
    holds the endpoints that the refresh at the start of the call left, in
    the same order.  A worker that fails is kept. *)
Theorem ProcessRaycastRequest_keeps_members m w request response :
  WorkerPool.endpoints
    (MasterServiceImpl.worker_pool_
       (MasterServiceImpl.ProcessRaycastRequest m w request response).1.2)
  = WorkerPool.endpoints
      (WorkerPool.RefreshWorkers (MasterServiceImpl.worker_pool_ m) w).1.
Proof.
  unfold MasterServiceImpl.ProcessRaycastRequest.
  destruct (WorkerPool.RefreshWorkers _ w) as [p1 w1]. cbn [fst snd].
  pose proof (GetNextWorker_endpoints (MasterServiceImpl.load_balancer_ m) p1 w1)
    as He.
  destruct (LoadBalancer.GetNextWorker _ p1 w1) as [[[chosen lb2] p2] w2].
  cbn [fst snd] in He.
  destruct chosen as [[worker|]|what| |]; try exact He.
  unfold WorkerPool.deref.
  destruct (WorkerPool.workers_ p2 !! worker) as [c|] eqn:Ec; cbn [of_option];
    [|exact He].
  pose proof (ProcessRenderRequest_endpoint c w2
                (MasterServiceImpl.ConvertRequest request) empty_RenderResponse)
    as Hc.
  destruct (WorkerConnection.ProcessRenderRequest c w2 _ _)
    as [[[status worker_response] c'] w3]. cbn [fst snd] in Hc.
  rewrite <- He.
  destruct (ok status); cbn [fst snd MasterServiceImpl.worker_pool_
    MasterServiceImpl.UpdateStats MasterServiceImpl.with_pool];
    by eapply store_endpoints.
Qed.

(** X21.  The response's success flag is the returned status's ok, and
    only a served request is counted.  When [ProcessRaycastRequest] returns
    an ok status, a worker was called, the response names the endpoint of
    that worker, and the request counter is one more (as an [int]); when it
    returns any other status, the response's results and worker endpoint
    are the caller's, both statistics are unchanged, and a worker that was
    called has given the response its status's message and is left without
    a stub or flagged unhealthy.  When the call does not return, the
    statistics are unchanged as well. *)
Theorem ProcessRaycastRequest_counts_successes m w request response :
  match MasterServiceImpl.ProcessRaycastRequest m w request response with
  | (Ok (status, response', served), m', _) =>
      mr_success response' = ok status /\
      if ok status
      then (exists worker c,
              served = MasterServiceImpl.Dispatched worker /\
              WorkerPool.workers_ (MasterServiceImpl.worker_pool_ m') !! worker
                = Some c /\
              mr_worker_endpoint response' = WorkerConnection.endpoint_ c) /\
           MasterServiceImpl.total_requests_processed_ m'
             = CInt.wrap_int (MasterServiceImpl.total_requests_processed_ m + 1)
      else mr_results response' = mr_results response /\
           mr_worker_endpoint response' = mr_worker_endpoint response /\
           MasterServiceImpl.total_requests_processed_ m'
             = MasterServiceImpl.total_requests_processed_ m /\
           MasterServiceImpl.total_response_time_ms_ m'
             = MasterServiceImpl.total_response_time_ms_ m /\
           match served with
           | MasterServiceImpl.NotDispatched => True
           | MasterServiceImpl.Dispatched worker =>
               mr_error_message response' = error_message status /\
               exists c,
                 WorkerPool.workers_ (MasterServiceImpl.worker_pool_ m') !! worker
                   = Some c /\
                 (WorkerConnection.stub_ c = false \/
                  WorkerConnection.is_healthy_ c = false)
           end
  | (_, m', _) =>
      MasterServiceImpl.total_requests_processed_ m'
        = MasterServiceImpl.total_requests_processed_ m /\
      MasterServiceImpl.total_response_time_ms_ m'
        = MasterServiceImpl.total_response_time_ms_ m
  end.
Proof.
  unfold MasterServiceImpl.ProcessRaycastRequest.
  destruct (WorkerPool.RefreshWorkers _ w) as [p1 w1].
  destruct (LoadBalancer.GetNextWorker _ p1 w1) as [[[chosen lb2] p2] w2].
  destruct chosen as [[worker|]|what| |]; try (cbn; by repeat split).
  unfold WorkerPool.deref.
  destruct (WorkerPool.workers_ p2 !! worker) as [c|] eqn:Ec; cbn [of_option];
    [|cbn; by repeat split].
  pose proof (ProcessRenderRequest_failed c w2
                (MasterServiceImpl.ConvertRequest request) empty_RenderResponse)
    as Hfail.
  destruct (WorkerConnection.ProcessRenderRequest c w2 _ _)
    as [[[status worker_response] c'] w3]. cbn [fst snd] in Hfail.
  destruct (ok status) eqn:Eok.
  - rewrite Eok. split; [reflexivity|]. split; [|reflexivity].
    exists worker, c'. split; [reflexivity|]. split; [|reflexivity].
    cbn [MasterServiceImpl.worker_pool_ MasterServiceImpl.UpdateStats
         MasterServiceImpl.with_pool].
    by eapply store_lookup.
  - rewrite Eok. split; [reflexivity|]. do 4 (split; [reflexivity|]).
    split; [reflexivity|]. exists c'. split; [|by apply Hfail].
    cbn [MasterServiceImpl.worker_pool_ MasterServiceImpl.with_pool].
    by eapply store_lookup.
Qed.

(** X22.  The status report lists the pool as the refresh left it: one
    entry per connection, in pool order, with the connection's endpoint,
    worker id 0 and the status healthy or unhealthy, appended to the
    entries already in the response; the status is OK, the pool keeps its
    endpoints, and while the pool holds at most INT_MAX connections the
    worker total is its size and the number of active workers lies between
    0 and that total. *)
Theorem GetMasterStatus_roster m w response :
  let p1 := (WorkerPool.RefreshWorkers (MasterServiceImpl.worker_pool_ m) w).1 in
  let r := MasterServiceImpl.GetMasterStatus m w response in
  r.1.1.1 = Status_OK /\
  (exists infos,
     workers r.1.1.2 = workers response ++ infos /\
     WorkerPool.endpoint <$> infos = WorkerPool.endpoints p1 /\
     Forall (fun info =>
               WorkerPool.worker_id info = 0 /\
               (WorkerPool.wi_status info = "healthy" \/
                WorkerPool.wi_status info = "unhealthy")) infos) /\
  WorkerPool.endpoints (MasterServiceImpl.worker_pool_ r.1.2)
    = WorkerPool.endpoints p1 /\
  (Z.of_nat (length (WorkerPool.workers_ p1)) <= CInt.INT_MAX ->
   total_workers r.1.1.2 = Z.of_nat (length (WorkerPool.workers_ p1)) /\
   0 <= active_workers r.1.1.2 <= total_workers r.1.1.2).
Proof.
  unfold MasterServiceImpl.GetMasterStatus.
  destruct (WorkerPool.RefreshWorkers _ w) as [p1 w1]. cbn [fst snd].
  unfold WorkerPool.GetWorkerInfo.
  pose proof (worker_infos_entries (WorkerPool.workers_ p1) w1) as [Hie Hif].
  pose proof (worker_infos_endpoints (WorkerPool.workers_ p1) w1) as Hwe.
  destruct (WorkerPool.worker_infos (WorkerPool.workers_ p1) w1)
    as [[infos ws2] w2]. cbn [fst snd] in *.
  unfold WorkerPool.GetActiveWorkers, WorkerPool.GetTotalWorkers.
  cbn [WorkerPool.set_workers WorkerPool.workers_].
  pose proof (check_all_endpoints ws2 w2) as Hce.
  pose proof (check_all_flags ws2 w2) as [Hflags Hlen].
  destruct (WorkerPool.check_all ws2 w2) as [[hs ws3] w3]. cbn [fst snd] in *.
  assert (Hl2 : length ws2 = length (WorkerPool.workers_ p1)).
  { by rewrite <- (length_fmap WorkerConnection.endpoint_ ws2), Hwe, length_fmap. }
  split; [reflexivity|]. split; [by exists infos|]. split.
  - unfold WorkerPool.endpoints. cbn. by rewrite Hce, Hwe.
  - intros Hsize. cbn [total_workers active_workers].
    rewrite Hl2.
    assert (Hin : CInt.in_int (Z.of_nat (length (WorkerPool.workers_ p1)))).
    { unfold CInt.in_int. unfold CInt.INT_MAX in Hsize. unfold CInt.INT_MIN, CInt.INT_MAX. lia. }
    rewrite (wrap_int_id _ Hin). split; [reflexivity|].
    pose proof (length_filter (fun h => h = true) hs) as Hf.
    assert (Hhs : length hs = length (WorkerPool.workers_ p1)).
    { by rewrite Hflags, length_fmap, Hlen, Hl2. }
    rewrite wrap_int_id; [lia|].
    unfold CInt.in_int, CInt.INT_MIN, CInt.INT_MAX in *. lia.
Qed.

Lemma GetMasterStatus_roster_witness :
  let p1 := (WorkerPool.RefreshWorkers
               (MasterServiceImpl.worker_pool_ Sample.busy_master)
               (Sample.all_up 2000000000)).1 in
  let r := MasterServiceImpl.GetMasterStatus Sample.busy_master
             (Sample.all_up 2000000000) empty_MasterStatus in
  Z.of_nat (length (WorkerPool.workers_ p1)) <= CInt.INT_MAX /\
  total_workers r.1.1.2 = Z.of_nat (length (WorkerPool.workers_ p1)) /\
  0 <= active_workers r.1.1.2 <= total_workers r.1.1.2.
Proof.
  intros p1 r.
  assert (H : Z.of_nat (length (WorkerPool.workers_ p1)) <= CInt.INT_MAX)
    by (vm_compute; discriminate).
  split; [exact H|].
  exact (proj2 (proj2 (proj2 (GetMasterStatus_roster Sample.busy_master
                                (Sample.all_up 2000000000) empty_MasterStatus))) H).
Defined.

(** A worker whose render call raises is reported as INTERNAL, is not
    counted, and stays in the pool, flagged unhealthy. *)
Example master_keeps_failing_worker :
  let m := {| MasterServiceImpl.worker_pool_ := Sample.three_workers;
              MasterServiceImpl.load_balancer_ := LoadBalancer.new ROUND_ROBIN;
              MasterServiceImpl.total_requests_processed_ := 0;
              MasterServiceImpl.total_response_time_ms_ := 0 |} in
  let w := {| now := 2000000000; system_ms := 1700000000000;
              connect := fun _ => true;
              status_rpc := fun _ _ => Returned Status_OK Sample.idle_status;
              render_rpc := fun _ _ _ => Raised "std::bad_alloc";
              rpc_ns := fun _ _ => 1000000;
              random_draw := fun _ lo _ => lo;
              HEALTH_CHECK_INTERVAL_SECONDS := None;
              HEALTH_CHECK_TIMEOUT_SECONDS := None;
              REQUEST_TIMEOUT_SECONDS := None;
              WORKER_PORT := None |} in
  match MasterServiceImpl.ProcessRaycastRequest m w
          Sample.raycast_request empty_RaycastResponse with
  | (Ok (status, response, served), m', w') =>
      error_code status = INTERNAL /\
      served = MasterServiceImpl.Dispatched 0 /\
      mr_success response = false /\
      MasterServiceImpl.total_requests_processed_ m' = 0 /\
      WorkerPool.endpoints (MasterServiceImpl.worker_pool_ m')
        = WorkerPool.endpoints Sample.three_workers /\
      WorkerConnection.is_healthy_ <$>
        WorkerPool.workers_ (MasterServiceImpl.worker_pool_ m')
        = [false; true; true]
  | _ => False
  end.
Proof. vm_compute. repeat split; reflexivity. Qed.
